(** * gestion-casa: the expense-distribution core of [app.py]

    A shallow embedding of the decision logic of the household expense
    tracker: the week partition of a month, the frequency conversion, the
    month-specific amounts, the split between Ricardo and Wendy, the groups of
    distribution, the payments, the monthly table and the net balance.

    Conventions of the embedding.
    - SQLite [REAL] amounts are exact rationals ([Q]); the rounding of binary
      floating point is outside the model, and amounts are compared with [==].
      A float that may be nan is a [flotante].
    - SQLite [INTEGER] is [Z], [TEXT] is [string], a nullable column is an
      [option]; a NULL reaches the code as [None] in the rows of a cursor,
      and as [None] or nan in the rows of a frame (see [DataFrame]).
    - [obtener_monto_del_mes] and [establecer_monto_del_mes] model the
      binding of their integer parameters by sqlite3 ([enlazar]); the other
      operations are modelled on ids, months and years that SQLite can bind
      (64-bit integers), and the statements that need it say so with
      [cabe_en_sqlite].
    - A table is the list of its rows in storage order; the connection
      [conn] is the record of the five tables, and an operation that writes
      returns the new store next to its result.
    - A query without [ORDER BY] returns its rows in storage order.
    - A Python exception is a [Raise] of the result type [resultado]. *)

From Stdlib Require Import ZArith QArith Qabs List Bool String Ascii Lia Lqa.
From Stdlib Require Import Sorting.Sorted Sorting.Permutation.
From Stdlib Require DecimalString.
Import ListNotations.

Open Scope string_scope.
Open Scope Z_scope.

(** ** Exceptions *)

Inductive excepcion : Type :=
| ValueError
| OverflowError
| IndexError
| SinCombustible. (* fuel of a modelled [while] ran out; never reached, see
                     [contar_semanas_combustible] *)

Inductive resultado (A : Type) : Type :=
| Ok (a : A)
| Raise (e : excepcion).

Arguments Ok {A} a.
Arguments Raise {A} e.

Definition bind {A B : Type} (r : resultado A) (k : A -> resultado B)
  : resultado B :=
  match r with
  | Ok a => k a
  | Raise e => Raise e
  end.

Notation "x <- c1 ;; c2" := (bind c1 (fun x => c2))
  (at level 61, c1 at next level, right associativity).

(** ** The parameters of a statement

    [cursor.execute(sql, parametros)] binds a Python int as a 64-bit
    INTEGER; for an int outside that range sqlite3 raises [OverflowError]
    ("Python int too large to convert to SQLite INTEGER") before the
    statement runs. *)

Definition cabe_en_sqlite (n : Z) : bool :=
  (-9223372036854775808 <=? n) && (n <=? 9223372036854775807).

Definition enlazar (parametros : list Z) : resultado unit :=
  if forallb cabe_en_sqlite parametros then Ok tt else Raise OverflowError.

(** What a function returns that binds [parametros] and then computes
    [v]. *)
Definition enlazado {A : Type} (parametros : list Z) (v : A) : resultado A :=
  _ <- enlazar parametros ;; Ok v.

(** ** The calendar: [datetime.date] and [calendar.monthrange]

    A [date] is represented by its proleptic Gregorian ordinal
    ([date.toordinal()]); comparison of dates is comparison of ordinals. *)

Module Calendario.

Definition MINYEAR : Z := 1.
Definition MAXYEAR : Z := 9999.
Definition _MAXORDINAL : Z := 3652059.

Definition _is_leap (year : Z) : bool :=
  (year mod 4 =? 0) && (negb (year mod 100 =? 0) || (year mod 400 =? 0)).

Definition _days_before_year (year : Z) : Z :=
  let y := year - 1 in
  y * 365 + y / 4 - y / 100 + y / 400.

Definition _DAYS_IN_MONTH : list Z :=
  [-1; 31; 28; 31; 30; 31; 30; 31; 31; 30; 31; 30; 31].

Definition _DAYS_BEFORE_MONTH : list Z :=
  [-1; 0; 31; 59; 90; 120; 151; 181; 212; 243; 273; 304; 334].

Definition _days_in_month (year month : Z) : Z :=
  if (month =? 2) && _is_leap year then 29
  else nth (Z.to_nat month) _DAYS_IN_MONTH 0.

Definition _days_before_month (year month : Z) : Z :=
  nth (Z.to_nat month) _DAYS_BEFORE_MONTH 0
  + (if (2 <? month) && _is_leap year then 1 else 0).

Definition _ymd2ord (year month day : Z) : Z :=
  _days_before_year year + _days_before_month year month + day.

Definition date : Type := Z.

(** The constructor of [date] reads its arguments as C ints: a Python int
    outside the range of a C int raises [OverflowError] before any field is
    checked. *)
Definition cabe_en_int (n : Z) : bool :=
  (-2147483648 <=? n) && (n <=? 2147483647).

(** [date(year, month, day)]: the conversion of the arguments, then the
    checks of [_check_date_fields]. *)
Definition date_ (year month day : Z) : resultado date :=
  if negb (cabe_en_int year && cabe_en_int month && cabe_en_int day)
  then Raise OverflowError
  else if negb ((MINYEAR <=? year) && (year <=? MAXYEAR)) then Raise ValueError
  else if negb ((1 <=? month) && (month <=? 12)) then Raise ValueError
  else if negb ((1 <=? day) && (day <=? _days_in_month year month))
       then Raise ValueError
  else Ok (_ymd2ord year month day).

(** [d.weekday()]: Monday is 0. *)
Definition weekday (d : date) : Z := (d + 6) mod 7.

(** [d + timedelta(days=n)]. *)
Definition date_add (d : date) (days : Z) : resultado date :=
  let o := d + days in
  if (0 <? o) && (o <=? _MAXORDINAL) then Ok o else Raise OverflowError.

(** [calendar.mdays]. *)
Definition mdays : list Z :=
  [0; 31; 28; 31; 30; 31; 30; 31; 31; 30; 31; 30; 31].

(** [calendar.monthrange(year, month)[1]]; [IllegalMonthError] is a
    [ValueError]. *)
Definition monthrange_ndays (year month : Z) : resultado Z :=
  if negb ((1 <=? month) && (month <=? 12)) then Raise ValueError
  else Ok (nth (Z.to_nat month) mdays 0
           + (if (month =? 2) && _is_leap year then 1 else 0)).

End Calendario.

Import Calendario.

(** ** WeekPartitioner: [calcular_semanas_del_mes] *)

(** The loop [while fecha_actual <= ultimo_dia: semanas += 1;
    fecha_actual += timedelta(days=7)]. *)
Fixpoint contar_semanas (combustible : nat) (fecha_actual ultimo_dia : date)
    (semanas : Z) : resultado Z :=
  if fecha_actual <=? ultimo_dia then
    match combustible with
    | O => Raise SinCombustible
    | S c =>
        siguiente <- date_add fecha_actual 7 ;;
        contar_semanas c siguiente ultimo_dia (semanas + 1)
    end
  else Ok semanas.

(** The first Monday on or after the first day of the month. *)
Definition primer_lunes_del_mes (primer_dia : date) : resultado date :=
  if weekday primer_dia =? 0 then Ok primer_dia
  else
    let dias_hasta_lunes := (7 - weekday primer_dia) mod 7 in
    let dias_hasta_lunes :=
      if dias_hasta_lunes =? 0 then 7 else dias_hasta_lunes in
    date_add primer_dia dias_hasta_lunes.

Definition calcular_semanas_del_mes (mes anio : Z) : resultado Z :=
  primer_dia <- date_ anio mes 1 ;;
  ndias <- monthrange_ndays anio mes ;;
  ultimo_dia <- date_ anio mes ndias ;;
  primer_lunes <- primer_lunes_del_mes primer_dia ;;
  if primer_lunes >? ultimo_dia then Ok 0
  else
    contar_semanas (Z.to_nat (ultimo_dia - primer_lunes) + 1)
                   primer_lunes ultimo_dia 0.

(** ** FrequencyResolver: [calcular_monto_mensual_segun_frecuencia] *)

Definition calcular_monto_mensual_segun_frecuencia
    (monto_base : Q) (frecuencia : string) (mes anio : Z) : resultado Q :=
  if (frecuencia =? "Semanal")%string then
    semanas <- calcular_semanas_del_mes mes anio ;;
    Ok (monto_base * inject_Z semanas)%Q
  else if (frecuencia =? "Quincenal")%string then Ok (monto_base * 2)%Q
  else if (frecuencia =? "Anual")%string then Ok (monto_base / 12)%Q
  else Ok monto_base.

(** ** The store: the five tables of [conectar_db]

    The date-stamp columns ([fecha_creacion], [fecha_registro], [fecha_pago])
    are written from the clock and never read by the logic below; they are
    left out of the rows. *)

Record gasto_mensual : Type := {
  g_id : Z;
  g_concepto : string;
  g_monto_total : Q;
  g_frecuencia : string;
  g_tipo_monto : string;
  g_tipo_distribucion : string;
  g_monto_fijo_ricardo : option Q;
  g_monto_fijo_wendy : option Q;
  g_porcentaje_ricardo : option Q;
  g_grupo : option string;
  g_activo : Z
}.

Record monto_mensual : Type := {
  m_id : Z;
  m_gasto_id : Z;
  m_mes : Z;
  m_anio : Z;
  m_monto_total : Q
}.

Record pago : Type := {
  p_id : Z;
  p_gasto_id : Z;
  p_mes : Z;
  p_anio : Z;
  p_quien_pago : string;
  p_monto_pagado : Q;
  p_semana : option Z
}.

Record grupo_distribucion : Type := {
  gd_id : Z;
  gd_nombre : string;
  gd_descripcion : option string;
  gd_monto_fijo_ricardo : option Q;
  gd_monto_fijo_wendy : option Q;
  gd_quien_paga_fijo : string;
  gd_activo : Z
}.

Record gasto_en_grupo : Type := {
  ge_id : Z;
  ge_grupo_id : Z;
  ge_gasto_id : Z
}.

(** [sec_*] is the AUTOINCREMENT counter SQLite keeps for the table. *)
Record conn : Type := {
  gastos_mensuales : list gasto_mensual;
  montos_mensuales : list monto_mensual;
  pagos : list pago;
  grupos_distribucion : list grupo_distribucion;
  gastos_en_grupo : list gasto_en_grupo;
  sec_gastos_mensuales : Z;
  sec_pagos : Z;
  sec_grupos_distribucion : Z;
  sec_gastos_en_grupo : Z
}.

(** The id an AUTOINCREMENT insert gives: above the counter and above every
    id of the table. *)
Definition nuevo_id (sec : Z) (ids : list Z) : Z :=
  fold_left Z.max ids sec + 1.

(** ** Python and SQL idioms *)

(** [x or defecto] on a nullable number: [None] and [0] are falsy. *)
Definition valor_o (x : option Q) (defecto : Q) : Q :=
  match x with
  | Some v => if Qeq_bool v 0 then defecto else v
  | None => defecto
  end.

(** [max(a, b)]: the second argument wins only when strictly greater. *)
Definition max_ (a b : Q) : Q := if Qle_bool b a then a else b.

(** A Python float that may be nan: the value of a cell of a float64 column
    of a frame, and what is computed from it. *)
Inductive flotante : Type :=
| Num (q : Q)
| NaN.

Coercion Num : Q >-> flotante.

(** [x or defecto] on a cell of a frame: [None] and [0.0] are falsy, nan is
    truthy. *)
Definition celda_o (x : option flotante) (defecto : Q) : flotante :=
  match x with
  | Some (Num v) => if Qeq_bool v 0 then Num defecto else Num v
  | Some NaN => NaN
  | None => Num defecto
  end.

(** [a - b], [a * b] and [a / b] with an operand that may be nan. *)
Definition resta (a : Q) (b : flotante) : flotante :=
  match b with
  | Num y => Num (a - y)
  | NaN => NaN
  end.

Definition producto (a : Q) (b : flotante) : flotante :=
  match b with
  | Num y => Num (a * y)
  | NaN => NaN
  end.

Definition cociente (a : flotante) (b : Q) : flotante :=
  match a with
  | Num x => Num (x / b)
  | NaN => NaN
  end.

(** [max(0, x)]: nan is not greater than 0, so 0 is returned. *)
Definition max_0 (x : flotante) : flotante :=
  match x with
  | Num y => Num (max_ 0 y)
  | NaN => Num 0
  end.

(** [sum] of a column, starting from 0. *)
Definition suma (l : list Q) : Q := fold_left Qplus l 0%Q.

(** SQL [SUM]: NULL over no rows. *)
Definition SUM (l : list Q) : option Q :=
  match l with
  | [] => None
  | _ => Some (suma l)
  end.

(** [str(n)] of an integer, as an f-string prints it. *)
Definition str (n : Z) : string :=
  DecimalString.NilZero.string_of_int (Z.to_int n).

(** [ORDER BY]: a stable insertion sort on the order [le]. *)
Section Ordenar.
Context {A : Type} (le : A -> A -> bool).

Fixpoint insertar (x : A) (l : list A) : list A :=
  match l with
  | [] => [x]
  | y :: l' => if le x y then x :: l else y :: insertar x l'
  end.

Fixpoint ordenar (l : list A) : list A :=
  match l with
  | [] => []
  | x :: l' => insertar x (ordenar l')
  end.
End Ordenar.

(** NULL sorts first, text by its bytes (collation BINARY). *)
Definition texto_nulo_leb (a b : option string) : bool :=
  match a, b with
  | None, _ => true
  | Some _, None => false
  | Some x, Some y => String.leb x y
  end.

Definition texto_nulo_eqb (a b : option string) : bool :=
  match a, b with
  | None, None => true
  | Some x, Some y => String.eqb x y
  | _, _ => false
  end.

(** ** The recurring expenses: [crear_gasto_mensual] and
    [actualizar_gasto_mensual] *)

Definition crear_gasto_mensual (c : conn) (concepto : string)
    (monto_total : Q) (frecuencia tipo_monto tipo_distribucion : string)
    (monto_fijo_ricardo monto_fijo_wendy porcentaje_ricardo : option Q)
    (grupo : option string) : conn * bool :=
  let id := nuevo_id (sec_gastos_mensuales c)
                     (map g_id (gastos_mensuales c)) in
  ({| gastos_mensuales :=
        (gastos_mensuales c
         ++ [{| g_id := id; g_concepto := concepto;
                g_monto_total := monto_total; g_frecuencia := frecuencia;
                g_tipo_monto := tipo_monto;
                g_tipo_distribucion := tipo_distribucion;
                g_monto_fijo_ricardo := monto_fijo_ricardo;
                g_monto_fijo_wendy := monto_fijo_wendy;
                g_porcentaje_ricardo := porcentaje_ricardo;
                g_grupo := grupo; g_activo := 1 |}])%list;
      montos_mensuales := montos_mensuales c;
      pagos := pagos c;
      grupos_distribucion := grupos_distribucion c;
      gastos_en_grupo := gastos_en_grupo c;
      sec_gastos_mensuales := id;
      sec_pagos := sec_pagos c;
      sec_grupos_distribucion := sec_grupos_distribucion c;
      sec_gastos_en_grupo := sec_gastos_en_grupo c |}, true).

Definition actualizar_gasto_mensual (c : conn) (id_gasto : Z)
    (concepto : string) (monto_total : Q)
    (frecuencia tipo_monto tipo_distribucion : string)
    (monto_fijo_ricardo monto_fijo_wendy porcentaje_ricardo : option Q)
    (grupo : option string) : conn * bool :=
  ({| gastos_mensuales :=
        map (fun g =>
               if g_id g =? id_gasto
               then {| g_id := g_id g; g_concepto := concepto;
                       g_monto_total := monto_total;
                       g_frecuencia := frecuencia;
                       g_tipo_monto := tipo_monto;
                       g_tipo_distribucion := tipo_distribucion;
                       g_monto_fijo_ricardo := monto_fijo_ricardo;
                       g_monto_fijo_wendy := monto_fijo_wendy;
                       g_porcentaje_ricardo := porcentaje_ricardo;
                       g_grupo := grupo; g_activo := g_activo g |}
               else g)
            (gastos_mensuales c);
      montos_mensuales := montos_mensuales c;
      pagos := pagos c;
      grupos_distribucion := grupos_distribucion c;
      gastos_en_grupo := gastos_en_grupo c;
      sec_gastos_mensuales := sec_gastos_mensuales c;
      sec_pagos := sec_pagos c;
      sec_grupos_distribucion := sec_grupos_distribucion c;
      sec_gastos_en_grupo := sec_gastos_en_grupo c |},
   0 <? Z.of_nat (List.length (filter (fun g => g_id g =? id_gasto)
                                      (gastos_mensuales c)))).

(** ** MonthlyAmountStore *)

(** The two queries of [obtener_monto_del_mes], on parameters that sqlite3
    has bound: the override of the key, else the base amount of the
    expense, else 0.0. *)
Definition consultar_monto_del_mes (c : conn) (gasto_id mes anio : Z) : Q :=
  let resultado :=
    filter (fun m => (m_gasto_id m =? gasto_id) && (m_mes m =? mes)
                     && (m_anio m =? anio))
           (montos_mensuales c) in
  match resultado with
  | m :: _ => m_monto_total m
  | [] =>
      let resultado_base :=
        filter (fun g => g_id g =? gasto_id) (gastos_mensuales c) in
      match resultado_base with
      | g :: _ => g_monto_total g
      | [] => 0%Q
      end
  end.

(** [obtener_monto_del_mes]: the first [execute] binds the three integers,
    and nothing catches the [OverflowError] of an int that does not fit. *)
Definition obtener_monto_del_mes (c : conn) (gasto_id mes anio : Z)
  : resultado Q :=
  _ <- enlazar [gasto_id; mes; anio] ;;
  Ok (consultar_monto_del_mes c gasto_id mes anio).

(** [establecer_monto_del_mes]: update the row of the key or insert one. The
    id of the new row is not read anywhere; it is taken above the ids in
    use. The statements run inside [try]: when sqlite3 cannot bind the key,
    the [except] branch rolls back, nothing is written and False is
    returned. *)
Definition establecer_monto_del_mes (c : conn) (gasto_id mes anio : Z)
    (monto : Q) : conn * bool :=
  match enlazar [gasto_id; mes; anio] with
  | Raise _ => (c, false)
  | Ok _ =>
  let es_clave m :=
    (m_gasto_id m =? gasto_id) && (m_mes m =? mes) && (m_anio m =? anio) in
  let montos :=
    if existsb es_clave (montos_mensuales c) then
      map (fun m => if es_clave m
                    then {| m_id := m_id m; m_gasto_id := m_gasto_id m;
                            m_mes := m_mes m; m_anio := m_anio m;
                            m_monto_total := monto |}
                    else m)
          (montos_mensuales c)
    else
      (montos_mensuales c
       ++ [{| m_id := nuevo_id 0 (map m_id (montos_mensuales c));
              m_gasto_id := gasto_id; m_mes := mes; m_anio := anio;
              m_monto_total := monto |}])%list in
  ({| gastos_mensuales := gastos_mensuales c;
      montos_mensuales := montos;
      pagos := pagos c;
      grupos_distribucion := grupos_distribucion c;
      gastos_en_grupo := gastos_en_grupo c;
      sec_gastos_mensuales := sec_gastos_mensuales c;
      sec_pagos := sec_pagos c;
      sec_grupos_distribucion := sec_grupos_distribucion c;
      sec_gastos_en_grupo := sec_gastos_en_grupo c |}, true)
  end.

(** A row of the frame [obtener_montos_configurados] returns. The cell of a
    nullable REAL column is [None], nan or a number. *)
Record fila_config : Type := {
  c_id : Z;
  c_concepto : string;
  c_frecuencia : string;
  c_tipo_monto : string;
  c_monto_total : Q;
  c_personalizado : Z;
  c_tipo_distribucion : string;
  c_monto_fijo_ricardo : option flotante;
  c_monto_fijo_wendy : option flotante;
  c_porcentaje_ricardo : option flotante;
  c_grupo : option string
}.

(** The SELECT list of [obtener_montos_configurados] on one row of the LEFT
    JOIN: [m] is [None] when no override matches. In the tuples of the
    cursor a NULL is [None]. *)
Definition seleccionar_config (g : gasto_mensual) (m : option monto_mensual)
  : fila_config :=
  {| c_id := g_id g;
     c_concepto := g_concepto g;
     c_frecuencia := g_frecuencia g;
     c_tipo_monto := g_tipo_monto g;
     c_monto_total :=
       if (g_tipo_monto g =? "variable")%string then
         match m with
         | Some m' => m_monto_total m'
         | None => g_monto_total g
         end
       else g_monto_total g;
     c_personalizado := match m with Some _ => 1 | None => 0 end;
     c_tipo_distribucion := g_tipo_distribucion g;
     c_monto_fijo_ricardo := option_map Num (g_monto_fijo_ricardo g);
     c_monto_fijo_wendy := option_map Num (g_monto_fijo_wendy g);
     c_porcentaje_ricardo := option_map Num (g_porcentaje_ricardo g);
     c_grupo := g_grupo g |}.

(** [ORDER BY g.grupo, g.concepto]. *)
Definition orden_config (a b : fila_config) : bool :=
  if texto_nulo_eqb (c_grupo a) (c_grupo b)
  then String.leb (c_concepto a) (c_concepto b)
  else texto_nulo_leb (c_grupo a) (c_grupo b).

Definition union_montos (c : conn) (mes anio : Z) (g : gasto_mensual)
  : list fila_config :=
  match filter (fun m => (g_id g =? m_gasto_id m) && (m_mes m =? mes)
                         && (m_anio m =? anio))
               (montos_mensuales c) with
  | [] => [seleccionar_config g None]
  | ms => map (fun m => seleccionar_config g (Some m)) ms
  end.

(** The rows of the cursor, in the order of the [ORDER BY]. *)
Definition filas_configuradas (c : conn) (mes anio : Z) : list fila_config :=
  ordenar orden_config
    (flat_map (union_montos c mes anio)
              (filter (fun g => g_activo g =? 1) (gastos_mensuales c))).

(** [pd.DataFrame(rows, columns=columns)] infers the type of a column from
    all its values. A nullable REAL column in which some row has a number
    becomes float64 and its NULLs become nan; a column in which every row
    is NULL stays a column of [None]. *)
Definition columna_real (columna : list (option flotante))
    (x : option flotante) : option flotante :=
  match x with
  | Some v => Some v
  | None =>
      if existsb (fun y => match y with Some _ => true | None => false end)
                 columna
      then Some NaN else None
  end.

Definition fila_de_marco (rows : list fila_config) (r : fila_config)
  : fila_config :=
  {| c_id := c_id r;
     c_concepto := c_concepto r;
     c_frecuencia := c_frecuencia r;
     c_tipo_monto := c_tipo_monto r;
     c_monto_total := c_monto_total r;
     c_personalizado := c_personalizado r;
     c_tipo_distribucion := c_tipo_distribucion r;
     c_monto_fijo_ricardo :=
       columna_real (map c_monto_fijo_ricardo rows) (c_monto_fijo_ricardo r);
     c_monto_fijo_wendy :=
       columna_real (map c_monto_fijo_wendy rows) (c_monto_fijo_wendy r);
     c_porcentaje_ricardo :=
       columna_real (map c_porcentaje_ricardo rows) (c_porcentaje_ricardo r);
     c_grupo := c_grupo r |}.

Definition DataFrame (rows : list fila_config) : list fila_config :=
  map (fila_de_marco rows) rows.

Definition obtener_montos_configurados (c : conn) (mes anio : Z)
  : list fila_config :=
  DataFrame (filas_configuradas c mes anio).

(** ** SplitCalculator: [calcular_distribucion_pago] *)

Definition calcular_distribucion_pago (gasto : fila_config)
    (monto_total_mes : Q) : flotante * flotante :=
  let tipo_dist := c_tipo_distribucion gasto in
  if (tipo_dist =? "fijo_ricardo")%string then
    let monto_ricardo := celda_o (c_monto_fijo_ricardo gasto) 0 in
    let monto_wendy := max_0 (resta monto_total_mes monto_ricardo) in
    (monto_ricardo, monto_wendy)
  else if (tipo_dist =? "fijo_wendy")%string then
    let monto_wendy := celda_o (c_monto_fijo_wendy gasto) 0 in
    let monto_ricardo := max_0 (resta monto_total_mes monto_wendy) in
    (monto_ricardo, monto_wendy)
  else if (tipo_dist =? "personalizado")%string then
    let porcentaje_r := celda_o (c_porcentaje_ricardo gasto) 50 in
    let monto_ricardo := producto monto_total_mes (cociente porcentaje_r 100) in
    let monto_wendy := resta monto_total_mes monto_ricardo in
    (monto_ricardo, monto_wendy)
  else
    (Num (monto_total_mes / 2), Num (monto_total_mes / 2)).

(** ** ExpenseGroup: the groups of distribution *)

Definition con_gastos_mensuales (c : conn) (gs : list gasto_mensual) : conn :=
  {| gastos_mensuales := gs;
     montos_mensuales := montos_mensuales c;
     pagos := pagos c;
     grupos_distribucion := grupos_distribucion c;
     gastos_en_grupo := gastos_en_grupo c;
     sec_gastos_mensuales := sec_gastos_mensuales c;
     sec_pagos := sec_pagos c;
     sec_grupos_distribucion := sec_grupos_distribucion c;
     sec_gastos_en_grupo := sec_gastos_en_grupo c |}.

Definition con_tipo_distribucion (g : gasto_mensual) (tipo : string)
  : gasto_mensual :=
  {| g_id := g_id g;
     g_concepto := g_concepto g;
     g_monto_total := g_monto_total g;
     g_frecuencia := g_frecuencia g;
     g_tipo_monto := g_tipo_monto g;
     g_tipo_distribucion := tipo;
     g_monto_fijo_ricardo := g_monto_fijo_ricardo g;
     g_monto_fijo_wendy := g_monto_fijo_wendy g;
     g_porcentaje_ricardo := g_porcentaje_ricardo g;
     g_grupo := g_grupo g;
     g_activo := g_activo g |}.

(** [UPDATE gastos_mensuales SET tipo_distribucion = ? WHERE] the row
    satisfies [donde]. *)
Definition actualizar_tipo_distribucion (c : conn)
    (donde : gasto_mensual -> bool) (tipo : string) : conn :=
  con_gastos_mensuales c
    (map (fun g => if donde g then con_tipo_distribucion g tipo else g)
         (gastos_mensuales c)).

(** [INSERT INTO gastos_en_grupo (grupo_id, gasto_id)]: [None] is the
    [sqlite3.IntegrityError] of [UNIQUE(grupo_id, gasto_id)]. Foreign keys
    are not enforced by the connection. *)
Definition insertar_gasto_en_grupo (c : conn) (grupo_id gasto_id : Z)
  : option conn :=
  if existsb (fun ge => (ge_grupo_id ge =? grupo_id)
                        && (ge_gasto_id ge =? gasto_id))
             (gastos_en_grupo c)
  then None
  else
    let id := nuevo_id (sec_gastos_en_grupo c)
                       (map ge_id (gastos_en_grupo c)) in
    Some {| gastos_mensuales := gastos_mensuales c;
            montos_mensuales := montos_mensuales c;
            pagos := pagos c;
            grupos_distribucion := grupos_distribucion c;
            gastos_en_grupo :=
              (gastos_en_grupo c
               ++ [{| ge_id := id; ge_grupo_id := grupo_id;
                      ge_gasto_id := gasto_id |}])%list;
            sec_gastos_mensuales := sec_gastos_mensuales c;
            sec_pagos := sec_pagos c;
            sec_grupos_distribucion := sec_grupos_distribucion c;
            sec_gastos_en_grupo := id |}.

(** The loop [for gasto_id in gastos_ids] of [crear_grupo_distribucion]. *)
Fixpoint asociar_gastos (c : conn) (grupo_id : Z) (gastos_ids : list Z)
  : option conn :=
  match gastos_ids with
  | [] => Some c
  | gasto_id :: resto =>
      match insertar_gasto_en_grupo c grupo_id gasto_id with
      | None => None
      | Some c1 =>
          asociar_gastos
            (actualizar_tipo_distribucion c1 (fun g => g_id g =? gasto_id)
                                          "agrupado")
            grupo_id resto
      end
  end.

(** Returns the new group id, or [None] after the rollback of the [except]
    branch. *)
Definition crear_grupo_distribucion (c : conn) (nombre : string)
    (descripcion : option string) (quien_paga_fijo : string) (monto_fijo : Q)
    (gastos_ids : list Z) : conn * option Z :=
  let monto_r :=
    if (quien_paga_fijo =? "Ricardo")%string then Some monto_fijo else None in
  let monto_w :=
    if (quien_paga_fijo =? "Wendy")%string then Some monto_fijo else None in
  let grupo_id := nuevo_id (sec_grupos_distribucion c)
                           (map gd_id (grupos_distribucion c)) in
  let c1 :=
    {| gastos_mensuales := gastos_mensuales c;
       montos_mensuales := montos_mensuales c;
       pagos := pagos c;
       grupos_distribucion :=
         (grupos_distribucion c
          ++ [{| gd_id := grupo_id; gd_nombre := nombre;
                 gd_descripcion := descripcion;
                 gd_monto_fijo_ricardo := monto_r;
                 gd_monto_fijo_wendy := monto_w;
                 gd_quien_paga_fijo := quien_paga_fijo;
                 gd_activo := 1 |}])%list;
       gastos_en_grupo := gastos_en_grupo c;
       sec_gastos_mensuales := sec_gastos_mensuales c;
       sec_pagos := sec_pagos c;
       sec_grupos_distribucion := grupo_id;
       sec_gastos_en_grupo := sec_gastos_en_grupo c |} in
  match asociar_gastos c1 grupo_id gastos_ids with
  | Some c2 => (c2, Some grupo_id)
  | None => (c, None)
  end.

(** The active expenses joined with the membership rows of a group:
    [FROM gastos_mensuales g INNER JOIN gastos_en_grupo ge
     ON g.id = ge.gasto_id WHERE ge.grupo_id = ? AND g.activo = 1]. *)
Definition miembros_de_grupo (c : conn) (grupo_id : Z) : list gasto_mensual :=
  flat_map
    (fun g =>
       map (fun _ => g)
           (filter (fun ge => (g_id g =? ge_gasto_id ge)
                              && (ge_grupo_id ge =? grupo_id))
                   (gastos_en_grupo c)))
    (filter (fun g => g_activo g =? 1) (gastos_mensuales c)).

(** A dictionary of the list [obtener_grupos_distribucion] returns. *)
Record grupo : Type := {
  gr_id : Z;
  gr_nombre : string;
  gr_descripcion : option string;
  gr_monto_fijo_ricardo : option Q;
  gr_monto_fijo_wendy : option Q;
  gr_quien_paga_fijo : string;
  gr_gastos : list (Z * string * Q)
}.

Definition grupo_de_fila (c : conn) (gd : grupo_distribucion) : grupo :=
  {| gr_id := gd_id gd;
     gr_nombre := gd_nombre gd;
     gr_descripcion := gd_descripcion gd;
     gr_monto_fijo_ricardo := gd_monto_fijo_ricardo gd;
     gr_monto_fijo_wendy := gd_monto_fijo_wendy gd;
     gr_quien_paga_fijo := gd_quien_paga_fijo gd;
     gr_gastos :=
       map (fun g => (g_id g, g_concepto g, g_monto_total g))
           (miembros_de_grupo c (gd_id gd)) |}.

Definition obtener_grupos_distribucion (c : conn) : list grupo :=
  map (grupo_de_fila c)
      (ordenar (fun a b => String.leb (gd_nombre a) (gd_nombre b))
               (filter (fun gd => gd_activo gd =? 1)
                       (grupos_distribucion c))).

Definition agregar_gasto_a_grupo (c : conn) (grupo_id gasto_id : Z)
  : conn * bool :=
  match insertar_gasto_en_grupo c grupo_id gasto_id with
  | Some c1 =>
      (actualizar_tipo_distribucion c1 (fun g => g_id g =? gasto_id)
                                    "agrupado", true)
  | None => (c, false)
  end.

(** The returned flag is [cursor.rowcount > 0] of the last statement, the
    UPDATE. *)
Definition remover_gasto_de_grupo (c : conn) (grupo_id gasto_id : Z)
  : conn * bool :=
  let c1 :=
    {| gastos_mensuales := gastos_mensuales c;
       montos_mensuales := montos_mensuales c;
       pagos := pagos c;
       grupos_distribucion := grupos_distribucion c;
       gastos_en_grupo :=
         filter (fun ge => negb ((ge_grupo_id ge =? grupo_id)
                                 && (ge_gasto_id ge =? gasto_id)))
                (gastos_en_grupo c);
       sec_gastos_mensuales := sec_gastos_mensuales c;
       sec_pagos := sec_pagos c;
       sec_grupos_distribucion := sec_grupos_distribucion c;
       sec_gastos_en_grupo := sec_gastos_en_grupo c |} in
  let c2 :=
    actualizar_tipo_distribucion c1 (fun g => g_id g =? gasto_id) "50/50" in
  (c2, 0 <? Z.of_nat (List.length (filter (fun g => g_id g =? gasto_id)
                                     (gastos_mensuales c1)))).

Definition eliminar_grupo_distribucion (c : conn) (grupo_id : Z)
  : conn * bool :=
  let c1 :=
    actualizar_tipo_distribucion c
      (fun g =>
         existsb (fun id => g_id g =? id)
                 (map ge_gasto_id
                      (filter (fun ge => ge_grupo_id ge =? grupo_id)
                              (gastos_en_grupo c))))
      "50/50" in
  let c2 :=
    {| gastos_mensuales := gastos_mensuales c1;
       montos_mensuales := montos_mensuales c1;
       pagos := pagos c1;
       grupos_distribucion :=
         map (fun gd =>
                if gd_id gd =? grupo_id
                then {| gd_id := gd_id gd; gd_nombre := gd_nombre gd;
                        gd_descripcion := gd_descripcion gd;
                        gd_monto_fijo_ricardo := gd_monto_fijo_ricardo gd;
                        gd_monto_fijo_wendy := gd_monto_fijo_wendy gd;
                        gd_quien_paga_fijo := gd_quien_paga_fijo gd;
                        gd_activo := 0 |}
                else gd)
             (grupos_distribucion c1);
       gastos_en_grupo := gastos_en_grupo c1;
       sec_gastos_mensuales := sec_gastos_mensuales c1;
       sec_pagos := sec_pagos c1;
       sec_grupos_distribucion := sec_grupos_distribucion c1;
       sec_gastos_en_grupo := sec_gastos_en_grupo c1 |} in
  (c2, 0 <? Z.of_nat (List.length (filter (fun gd => gd_id gd =? grupo_id)
                                     (grupos_distribucion c1)))).

(** ** PaymentLedger *)

Definition registrar_pago (c : conn) (gasto_id mes anio : Z)
    (quien_pago : string) (monto_pagado : Q) (semana : option Z)
  : conn * bool :=
  let id := nuevo_id (sec_pagos c) (map p_id (pagos c)) in
  ({| gastos_mensuales := gastos_mensuales c;
      montos_mensuales := montos_mensuales c;
      pagos :=
        (pagos c
         ++ [{| p_id := id; p_gasto_id := gasto_id; p_mes := mes;
                p_anio := anio; p_quien_pago := quien_pago;
                p_monto_pagado := monto_pagado; p_semana := semana |}])%list;
      grupos_distribucion := grupos_distribucion c;
      gastos_en_grupo := gastos_en_grupo c;
      sec_gastos_mensuales := sec_gastos_mensuales c;
      sec_pagos := id;
      sec_grupos_distribucion := sec_grupos_distribucion c;
      sec_gastos_en_grupo := sec_gastos_en_grupo c |}, true).

(** The WHERE clause shared by the payment queries. *)
Definition es_pago_de (gasto_id mes anio : Z) (quien_pago : string) (p : pago)
  : bool :=
  (p_gasto_id p =? gasto_id) && (p_mes p =? mes) && (p_anio p =? anio)
  && (p_quien_pago p =? quien_pago)%string.

Definition verificar_pago_existente (c : conn) (gasto_id mes anio : Z)
    (quien_pago : string) (semana : option Z) : bool :=
  let count :=
    match semana with
    | Some s =>
        List.length (filter (fun p => es_pago_de gasto_id mes anio quien_pago p
                                 && match p_semana p with
                                    | Some s' => s' =? s
                                    | None => false
                                    end)
                       (pagos c))
    | None =>
        List.length (filter (es_pago_de gasto_id mes anio quien_pago) (pagos c))
    end in
  0 <? Z.of_nat count.

(** The weeks of the rows [WHERE ... AND semana IS NOT NULL], before the
    [ORDER BY]. *)
Definition semanas_registradas (c : conn) (gasto_id mes anio : Z)
    (quien_pago : string) : list Z :=
  flat_map (fun p => match p_semana p with Some s => [s] | None => [] end)
           (filter (es_pago_de gasto_id mes anio quien_pago) (pagos c)).

Definition obtener_semanas_pagadas (c : conn) (gasto_id mes anio : Z)
    (quien_pago : string) : list Z :=
  ordenar Z.leb (semanas_registradas c gasto_id mes anio quien_pago).

(** ** MonthlyStatementBuilder: [calcular_tabla_mensual] *)

(** The ['id'] of a row: the expense id, or the text [f"grupo_{grupo_id}"]
    kept as its group id. *)
Inductive id_fila : Type :=
| IdGasto (gasto_id : Z)
| IdGrupo (grupo_id : Z).

Record fila : Type := {
  f_id : id_fila;
  f_Concepto : string;
  f_Monto_Total : Q;
  f_Frecuencia : string;
  f_Debe_Ricardo : flotante;
  f_Debe_Wendy : flotante;
  f_Ricardo_Pago : string;
  f_Wendy_Pago : string
}.

Definition marca (pago : bool) : string := if pago then "✅" else "❌".

(** A [for] loop whose body may raise. *)
Fixpoint iterar {A S : Type} (cuerpo : S -> A -> resultado S) (l : list A)
    (s : S) : resultado S :=
  match l with
  | [] => Ok s
  | x :: l' => s' <- cuerpo s x ;; iterar cuerpo l' s'
  end.

(** Body of [for gasto_id, concepto, monto_base in gastos_grupo]; the state is
    [(monto_total_grupo, conceptos_grupo, ids added to gastos_procesados)].
    The ids of [gastos_grupo] are INTEGERs that the database returned, which
    sqlite3 binds again: the call of [obtener_monto_del_mes] is its two
    queries. *)
Definition sumar_gasto_de_grupo (c : conn) (gastos_df : list fila_config)
    (mes anio : Z) (estado : Q * list string * list Z)
    (gasto : Z * string * Q) : resultado (Q * list string * list Z) :=
  let '(monto_total_grupo, conceptos_grupo, procesados) := estado in
  let '(gasto_id, concepto, _) := gasto in
  let monto_mes_actualizado := consultar_monto_del_mes c gasto_id mes anio in
  let gasto_info := filter (fun r => c_id r =? gasto_id) gastos_df in
  match gasto_info with
  | [] => Ok estado
  | gasto_row :: _ =>
      let frecuencia := c_frecuencia gasto_row in
      monto_mes <- calcular_monto_mensual_segun_frecuencia
                     monto_mes_actualizado frecuencia mes anio ;;
      Ok ((monto_total_grupo + monto_mes)%Q,
          (conceptos_grupo ++ [concepto])%list,
          gasto_id :: procesados)
  end.

(** [quien_paga[0]]. *)
Definition inicial (s : string) : resultado string :=
  match s with
  | EmptyString => Raise IndexError
  | String a _ => Ok (String a EmptyString)
  end.

(** Body of [for grupo in grupos]: the row of the group ([None] on
    [continue]) and the expense ids it adds to [gastos_procesados]. *)
Definition fila_de_grupo (c : conn) (gastos_df : list fila_config)
    (mes anio : Z) (grupo : grupo) : resultado (option fila * list Z) :=
  let grupo_id := gr_id grupo in
  let nombre_grupo := gr_nombre grupo in
  let gastos_grupo := gr_gastos grupo in
  match gastos_grupo with
  | [] => Ok (None, [])
  | _ =>
      estado <- iterar (sumar_gasto_de_grupo c gastos_df mes anio)
                       gastos_grupo (0%Q, [], []) ;;
      let '(monto_total_grupo, conceptos_grupo, procesados) := estado in
      let quien_paga := gr_quien_paga_fijo grupo in
      let '(monto_ricardo, monto_wendy) :=
        if (quien_paga =? "Ricardo")%string then
          let monto_fijo := valor_o (gr_monto_fijo_ricardo grupo) 0 in
          (monto_fijo, max_ 0 (monto_total_grupo - monto_fijo))
        else if (quien_paga =? "Wendy")%string then
          let monto_fijo := valor_o (gr_monto_fijo_wendy grupo) 0 in
          (max_ 0 (monto_total_grupo - monto_fijo), monto_fijo)
        else
          ((monto_total_grupo / 2)%Q, (monto_total_grupo / 2)%Q) in
      let ricardo_pago :=
        forallb (fun '(id_g, _, _) =>
                   verificar_pago_existente c id_g mes anio "Ricardo" None)
                gastos_grupo in
      let wendy_pago :=
        forallb (fun '(id_g, _, _) =>
                   verificar_pago_existente c id_g mes anio "Wendy" None)
                gastos_grupo in
      let concepto_grupo :=
        "📦 " ++ nombre_grupo ++ " ("
        ++ String.concat " + " conceptos_grupo ++ ")" in
      letra <- inicial quien_paga ;;
      Ok (Some {| f_id := IdGrupo grupo_id;
                  f_Concepto := concepto_grupo ++ " 💰" ++ letra;
                  f_Monto_Total := monto_total_grupo;
                  f_Frecuencia := "Grupo";
                  f_Debe_Ricardo := monto_ricardo;
                  f_Debe_Wendy := monto_wendy;
                  f_Ricardo_Pago := marca ricardo_pago;
                  f_Wendy_Pago := marca wendy_pago |},
          procesados)
  end.

(** The loop over the groups: rows in order, and [gastos_procesados]. *)
Definition procesar_grupo (c : conn) (gastos_df : list fila_config)
    (mes anio : Z) (estado : list fila * list Z) (grupo : grupo)
  : resultado (list fila * list Z) :=
  let '(resultados, gastos_procesados) := estado in
  r <- fila_de_grupo c gastos_df mes anio grupo ;;
  let '(fila_grupo, procesados) := r in
  Ok (match fila_grupo with
      | Some f => (resultados ++ [f])%list
      | None => resultados
      end,
      (procesados ++ gastos_procesados)%list).

(** The row of an individual expense: the body of
    [for _, gasto in gastos_df.iterrows()] after its two [continue]s. *)
Definition fila_de_gasto (c : conn) (mes anio : Z) (gasto : fila_config)
  : resultado fila :=
  let gasto_id := c_id gasto in
  let concepto := c_concepto gasto in
  let monto_base := c_monto_total gasto in
  let frecuencia := c_frecuencia gasto in
  let tipo_monto := c_tipo_monto gasto in
  let personalizado := c_personalizado gasto in
  monto_total <- calcular_monto_mensual_segun_frecuencia
                   monto_base frecuencia mes anio ;;
  let '(monto_ricardo, monto_wendy) :=
    calcular_distribucion_pago gasto monto_total in
  pagado <-
    (if (frecuencia =? "Semanal")%string then
       semanas_del_mes <- calcular_semanas_del_mes mes anio ;;
       let ricardo_semanas :=
         obtener_semanas_pagadas c gasto_id mes anio "Ricardo" in
       let wendy_semanas :=
         obtener_semanas_pagadas c gasto_id mes anio "Wendy" in
       let ricardo_pago :=
         Z.of_nat (List.length ricardo_semanas) =? semanas_del_mes in
       let wendy_pago :=
         Z.of_nat (List.length wendy_semanas) =? semanas_del_mes in
       Ok (ricardo_pago, wendy_pago,
           concepto ++ " (" ++ str (Z.of_nat (List.length ricardo_semanas))
           ++ "/" ++ str semanas_del_mes ++ " sem)")
     else
       Ok (verificar_pago_existente c gasto_id mes anio "Ricardo" None,
           verificar_pago_existente c gasto_id mes anio "Wendy" None,
           concepto)) ;;
  let '(ricardo_pago, wendy_pago, concepto_con_info) := pagado in
  let indicador :=
    if (tipo_monto =? "variable")%string && negb (personalizado =? 0)
    then " 📝"
    else if (tipo_monto =? "variable")%string then " 🔄"
    else "" in
  let tipo_dist := c_tipo_distribucion gasto in
  let dist_tag :=
    if (tipo_dist =? "fijo_ricardo")%string then " 💰R"
    else if (tipo_dist =? "fijo_wendy")%string then " 💰W"
    else if (tipo_dist =? "personalizado")%string then " ⚖️"
    else "" in
  Ok {| f_id := IdGasto gasto_id;
        f_Concepto := concepto_con_info ++ indicador ++ dist_tag;
        f_Monto_Total := monto_total;
        f_Frecuencia := frecuencia;
        f_Debe_Ricardo := monto_ricardo;
        f_Debe_Wendy := monto_wendy;
        f_Ricardo_Pago := marca ricardo_pago;
        f_Wendy_Pago := marca wendy_pago |}.

Definition procesar_gasto (c : conn) (mes anio : Z)
    (gastos_procesados : list Z) (resultados : list fila)
    (gasto : fila_config) : resultado (list fila) :=
  if existsb (fun id => id =? c_id gasto) gastos_procesados then Ok resultados
  else if (c_tipo_distribucion gasto =? "agrupado")%string then Ok resultados
  else
    f <- fila_de_gasto c mes anio gasto ;;
    Ok (resultados ++ [f])%list.

Definition calcular_tabla_mensual (c : conn) (mes anio : Z)
  : resultado (list fila) :=
  let gastos_df := obtener_montos_configurados c mes anio in
  match gastos_df with
  | [] => Ok []
  | _ =>
      let grupos := obtener_grupos_distribucion c in
      estado <- iterar (procesar_grupo c gastos_df mes anio) grupos ([], []) ;;
      let '(resultados, gastos_procesados) := estado in
      iterar (procesar_gasto c mes anio gastos_procesados) gastos_df
             resultados
  end.

(** ** The net balance: [calcular_saldo_neto] *)

(** The text of ['mensaje'], before its amount is printed with two
    decimals. *)
Inductive mensaje_saldo : Type :=
| Ricardo_debe_pagar (monto : Q)
| Wendy_debe_pagar (monto : Q)
| Todo_pagado.

Record saldo_neto : Type := {
  total_debe_cada_uno : Q;
  pagado_ricardo : Q;
  pagado_wendy : Q;
  saldo_ricardo : Q;
  saldo_wendy : Q;
  mensaje : mensaje_saldo
}.

(** [SELECT SUM(monto_pagado) FROM pagos WHERE mes = ? AND anio = ? AND
    quien_pago = ?]. *)
Definition suma_pagado (c : conn) (mes anio : Z) (quien : string)
  : option Q :=
  SUM (map p_monto_pagado
           (filter (fun p => (p_mes p =? mes) && (p_anio p =? anio)
                             && (p_quien_pago p =? quien)%string)
                   (pagos c))).

Definition calcular_saldo_neto (c : conn) (mes anio : Z) : saldo_neto :=
  let gastos_df := obtener_montos_configurados c mes anio in
  let total_debe_cada_uno :=
    match gastos_df with
    | [] => 0%Q
    | _ => (suma (map c_monto_total gastos_df) / 2)%Q
    end in
  let pagado_ricardo := valor_o (suma_pagado c mes anio "Ricardo") 0 in
  let pagado_wendy := valor_o (suma_pagado c mes anio "Wendy") 0 in
  let saldo_ricardo := (total_debe_cada_uno - pagado_ricardo)%Q in
  let saldo_wendy := (total_debe_cada_uno - pagado_wendy)%Q in
  let mensaje :=
    if negb (Qle_bool saldo_ricardo (1 # 100))
    then Ricardo_debe_pagar (Qabs saldo_ricardo)
    else if negb (Qle_bool saldo_wendy (1 # 100))
    then Wendy_debe_pagar (Qabs saldo_wendy)
    else Todo_pagado in
  {| total_debe_cada_uno := total_debe_cada_uno;
     pagado_ricardo := pagado_ricardo;
     pagado_wendy := pagado_wendy;
     saldo_ricardo := saldo_ricardo;
     saldo_wendy := saldo_wendy;
     mensaje := mensaje |}.

(** ** Domains, example data and proof automation *)

(** The months on which the week count is computed: a month of a year that
    [date] accepts, December 9999 apart, where the step of one week after
    the last Monday leaves the range of [date]. *)
Definition mes_calculable (mes anio : Z) : bool :=
  (1 <=? mes) && (mes <=? 12) && (MINYEAR <=? anio) && (anio <=? MAXYEAR)
  && negb ((anio =? MAXYEAR) && (mes =? 12)).

Ltac casos_mes mes :=
  let H := fresh "Hmes" in
  assert (H : mes = 1 \/ mes = 2 \/ mes = 3 \/ mes = 4 \/ mes = 5 \/ mes = 6
              \/ mes = 7 \/ mes = 8 \/ mes = 9 \/ mes = 10 \/ mes = 11
              \/ mes = 12) by lia;
  destruct H
    as [H | [H | [H | [H | [H | [H | [H | [H | [H | [H | [H | H]]]]]]]]]]];
  subst mes.

(** Evaluates the table lookups and month tests once the month is known. *)
Ltac evaluar_tablas :=
  repeat match goal with
         | |- context [nth (Z.to_nat ?m) ?l ?d] =>
             let v := eval vm_compute in (nth (Z.to_nat m) l d) in
             change (nth (Z.to_nat m) l d) with v
         | |- context [Z.eqb ?m 2] =>
             let v := eval vm_compute in (Z.eqb m 2) in
             change (Z.eqb m 2) with v
         | |- context [Z.ltb 2 ?m] =>
             let v := eval vm_compute in (Z.ltb 2 m) in
             change (Z.ltb 2 m) with v
         end;
  cbn [andb].


(** The empty store, right after [conectar_db] creates the tables. *)
Definition conn_vacia : conn :=
  {| gastos_mensuales := [];
     montos_mensuales := [];
     pagos := [];
     grupos_distribucion := [];
     gastos_en_grupo := [];
     sec_gastos_mensuales := 0;
     sec_pagos := 0;
     sec_grupos_distribucion := 0;
     sec_gastos_en_grupo := 0 |}.

(** Two monthly expenses of 40.00 and 60.00, in no group. *)
Definition conn_40_60 : conn :=
  let c := fst (crear_gasto_mensual conn_vacia "Luz" 40 "Mensual" "fijo"
                  "50/50" None None (Some 50%Q) None) in
  fst (crear_gasto_mensual c "Agua" 60 "Mensual" "fijo"
         "50/50" None None (Some 50%Q) None).

(** Two monthly expenses of 40.00 and 60.00 in one group where Ricardo pays
    70.00 fixed. *)
Definition conn_grupo_40_60 : conn :=
  let c := fst (crear_gasto_mensual conn_vacia "Luz" 40 "Mensual" "fijo"
                  "50/50" None None (Some 50%Q) None) in
  let c := fst (crear_gasto_mensual c "Agua" 60 "Mensual" "fijo"
                  "50/50" None None (Some 50%Q) None) in
  fst (crear_grupo_distribucion c "Servicios" None "Ricardo" 70 [1; 2]).

(** A variable expense that got an override for March 2025, was then edited
    to a fixed amount, and was grouped with a second expense. *)
Definition conn_fijo_con_override : conn :=
  let c := fst (crear_gasto_mensual conn_vacia "Luz" 100 "Mensual" "variable"
                  "50/50" None None (Some 50%Q) None) in
  let c := fst (crear_gasto_mensual c "Agua" 60 "Mensual" "fijo"
                  "50/50" None None (Some 50%Q) None) in
  let c := fst (establecer_monto_del_mes c 1 3 2025 150) in
  let c := fst (actualizar_gasto_mensual c 1 "Luz" 100 "Mensual" "fijo"
                  "50/50" None None (Some 50%Q) None) in
  fst (crear_grupo_distribucion c "Servicios" None "Ricardo" 70 [1; 2]).

(** One monthly expense of 100.00 of which Ricardo pays 70.00 fixed. *)
Definition conn_fijo_ricardo : conn :=
  fst (crear_gasto_mensual conn_vacia "Alquiler" 100 "Mensual" "fijo"
         "fijo_ricardo" (Some 70%Q) None (Some 50%Q) None).

(** One weekly expense of 10.00, split 50/50. *)
Definition conn_semanal : conn :=
  fst (crear_gasto_mensual conn_vacia "Mercado" 10 "Semanal" "fijo"
         "50/50" None None (Some 50%Q) None).

(** Ricardo pays the listed weeks of expense 1 in January 2024, one
    [registrar_pago] per week. *)
Definition pagar_semanas (c : conn) (semanas : list Z) : conn :=
  fold_left (fun c s => fst (registrar_pago c 1 1 2024 "Ricardo" 5 (Some s)))
            semanas c.

(** [conn_semanal] after Ricardo paid the five weeks of January 2024. *)
Definition conn_semanal_pagada : conn :=
  pagar_semanas conn_semanal [1; 2; 3; 4; 5].

(** A row of kind fijo_ricardo with the given fixed amount of Ricardo. *)
Definition gasto_fijo_ricardo (monto_fijo : Q) : fila_config :=
  {| c_id := 1; c_concepto := "Alquiler"; c_frecuencia := "Mensual";
     c_tipo_monto := "fijo"; c_monto_total := 80; c_personalizado := 0;
     c_tipo_distribucion := "fijo_ricardo";
     c_monto_fijo_ricardo := Some (Num monto_fijo);
     c_monto_fijo_wendy := None;
     c_porcentaje_ricardo := Some (Num 50); c_grupo := None |}.

(** The four kinds of distribution of an individual expense. *)
Definition tipos_de_distribucion : list string :=
  ["50/50"; "fijo_ricardo"; "fijo_wendy"; "personalizado"].

(** The sum invariant of the split, with its tolerance of 1e-9: the two
    shares are numbers, their sum is the total within 1e-9, and neither is
    negative. *)
Definition suma_total_y_no_negativos (total : Q) (montos : flotante * flotante)
  : Prop :=
  exists a b : Q,
    montos = (Num a, Num b)
    /\ (Qabs (a + b - total) <= 1 # 1000000000)%Q
    /\ (0 <= a)%Q /\ (0 <= b)%Q.

(** [minimo <= x <= maximo] on a float: false of nan. *)
Definition numero_entre (x : flotante) (minimo maximo : Q) : Prop :=
  match x with
  | Num v => (minimo <= v <= maximo)%Q
  | NaN => False
  end.

(** The parameter that the kind reads is a number within the total: the
    fixed amount of the payer, as [gasto.get(...) or 0] reads it, is between
    0 and the total; the percentage of Ricardo, as [... or 50.0] reads it,
    is between 0 and 100. *)
Definition parametros_dentro_del_total (gasto : fila_config) (total : Q)
  : Prop :=
  if (c_tipo_distribucion gasto =? "fijo_ricardo")%string then
    numero_entre (celda_o (c_monto_fijo_ricardo gasto) 0) 0 total
  else if (c_tipo_distribucion gasto =? "fijo_wendy")%string then
    numero_entre (celda_o (c_monto_fijo_wendy gasto) 0) 0 total
  else if (c_tipo_distribucion gasto =? "personalizado")%string then
    numero_entre (celda_o (c_porcentaje_ricardo gasto) 50) 0 100
  else True.

(** Every row of the expense [gasto_id] has the distribution kind [tipo]. *)
Definition tipo_de_gasto_es (c : conn) (gasto_id : Z) (tipo : string) : Prop :=
  forall g, In g (gastos_mensuales c) -> g_id g = gasto_id ->
            g_tipo_distribucion g = tipo.

(** The expense [gasto_id] has a membership row in the group [grupo_id]. *)
Definition es_miembro (c : conn) (grupo_id gasto_id : Z) : Prop :=
  exists ge, In ge (gastos_en_grupo c)
             /\ ge_grupo_id ge = grupo_id /\ ge_gasto_id ge = gasto_id.

(** Two stores hold the same expenses when their rows agree, in order, on
    every column but the distribution kind. *)
Definition mismos_gastos (c c' : conn) : Prop :=
  map (fun g => con_tipo_distribucion g "") (gastos_mensuales c')
  = map (fun g => con_tipo_distribucion g "") (gastos_mensuales c).

(** Two expenses and an empty group 1, nothing grouped yet. *)
Definition conn_dos_gastos : conn :=
  let c := fst (crear_gasto_mensual conn_vacia "Luz" 40 "Mensual" "fijo"
                  "50/50" None None (Some 50%Q) None) in
  let c := fst (crear_gasto_mensual c "Agua" 60 "Mensual" "fijo"
                  "fijo_wendy" None (Some 20%Q) (Some 50%Q) None) in
  fst (crear_grupo_distribucion c "Servicios" None "Ricardo" 70 []).

(** The row of the weekly expense of [conn_semanal]; the payments do not
    change it. *)
Definition gasto_semanal : fila_config :=
  {| c_id := 1; c_concepto := "Mercado"; c_frecuencia := "Semanal";
     c_tipo_monto := "fijo"; c_monto_total := 10; c_personalizado := 0;
     c_tipo_distribucion := "50/50";
     c_monto_fijo_ricardo := None; c_monto_fijo_wendy := None;
     c_porcentaje_ricardo := Some (Num 50); c_grupo := None |}.

(** The week numbers 1..n of a month of [n] weeks. *)
Definition semanas_1_a (n : Z) : list Z :=
  map Z.of_nat (seq 1 (Z.to_nat n)).

(** The amount of the month of a member expense of a group: the frequency
    conversion of the amount the queries of [obtener_monto_del_mes] give for
    its id. *)
Definition monto_de_miembro (c : conn) (mes anio : Z) (e : gasto_mensual)
  : resultado Q :=
  calcular_monto_mensual_segun_frecuencia
    (consultar_monto_del_mes c (g_id e) mes anio) (g_frecuencia e) mes anio.

(** The person has a payment record for the expense in (month, year). *)
Definition hay_pago (c : conn) (gasto_id mes anio : Z) (quien : string)
  : Prop :=
  exists p, In p (pagos c) /\ p_gasto_id p = gasto_id /\ p_mes p = mes
            /\ p_anio p = anio /\ p_quien_pago p = quien.

(** The group row of [conn_grupo_40_60]. *)
Definition grupo_servicios : grupo_distribucion :=
  {| gd_id := 1; gd_nombre := "Servicios"; gd_descripcion := None;
     gd_monto_fijo_ricardo := Some 70%Q; gd_monto_fijo_wendy := None;
     gd_quien_paga_fijo := "Ricardo"; gd_activo := 1 |}.

(** [conn_grupo_40_60] after Ricardo paid the first expense only, in March
    2025. *)
Definition conn_grupo_pago_parcial : conn :=
  fst (registrar_pago conn_grupo_40_60 1 3 2025 "Ricardo" 35 None).

(** ** Further operations of [app.py] *)

Definition con_pagos (c : conn) (ps : list pago) : conn :=
  {| gastos_mensuales := gastos_mensuales c;
     montos_mensuales := montos_mensuales c;
     pagos := ps;
     grupos_distribucion := grupos_distribucion c;
     gastos_en_grupo := gastos_en_grupo c;
     sec_gastos_mensuales := sec_gastos_mensuales c;
     sec_pagos := sec_pagos c;
     sec_grupos_distribucion := sec_grupos_distribucion c;
     sec_gastos_en_grupo := sec_gastos_en_grupo c |}.

Definition eliminar_pago (c : conn) (pago_id : Z) : conn * bool :=
  (con_pagos c (filter (fun p => negb (p_id p =? pago_id)) (pagos c)),
   0 <? Z.of_nat (List.length (filter (fun p => p_id p =? pago_id)
                                      (pagos c)))).

Definition eliminar_pago_por_criterios (c : conn) (gasto_id mes anio : Z)
    (quien_pago : string) : conn * bool :=
  (con_pagos c (filter (fun p => negb (es_pago_de gasto_id mes anio
                                                  quien_pago p))
                       (pagos c)),
   0 <? Z.of_nat (List.length (filter (es_pago_de gasto_id mes anio
                                                  quien_pago)
                                      (pagos c)))).

(** [desactivar_gasto_mensual]: the row stays, with [activo = 0]. *)
Definition desactivar_gasto_mensual (c : conn) (id_gasto : Z) : conn * bool :=
  (con_gastos_mensuales c
     (map (fun g =>
             if g_id g =? id_gasto
             then {| g_id := g_id g; g_concepto := g_concepto g;
                     g_monto_total := g_monto_total g;
                     g_frecuencia := g_frecuencia g;
                     g_tipo_monto := g_tipo_monto g;
                     g_tipo_distribucion := g_tipo_distribucion g;
                     g_monto_fijo_ricardo := g_monto_fijo_ricardo g;
                     g_monto_fijo_wendy := g_monto_fijo_wendy g;
                     g_porcentaje_ricardo := g_porcentaje_ricardo g;
                     g_grupo := g_grupo g; g_activo := 0 |}
             else g)
          (gastos_mensuales c)),
   0 <? Z.of_nat (List.length (filter (fun g => g_id g =? id_gasto)
                                      (gastos_mensuales c)))).

Definition obtener_gastos_de_grupo (c : conn) (grupo_id : Z)
  : list (Z * string * Q * string) :=
  map (fun g => (g_id g, g_concepto g, g_monto_total g, g_tipo_monto g))
      (miembros_de_grupo c grupo_id).

Definition actualizar_grupo_distribucion (c : conn) (grupo_id : Z)
    (nombre : string) (descripcion : option string)
    (quien_paga_fijo : string) (monto_fijo : Q) : conn * bool :=
  let monto_r :=
    if (quien_paga_fijo =? "Ricardo")%string then Some monto_fijo else None in
  let monto_w :=
    if (quien_paga_fijo =? "Wendy")%string then Some monto_fijo else None in
  ({| gastos_mensuales := gastos_mensuales c;
      montos_mensuales := montos_mensuales c;
      pagos := pagos c;
      grupos_distribucion :=
        map (fun gd =>
               if gd_id gd =? grupo_id
               then {| gd_id := gd_id gd; gd_nombre := nombre;
                       gd_descripcion := descripcion;
                       gd_monto_fijo_ricardo := monto_r;
                       gd_monto_fijo_wendy := monto_w;
                       gd_quien_paga_fijo := quien_paga_fijo;
                       gd_activo := gd_activo gd |}
               else gd)
            (grupos_distribucion c);
      gastos_en_grupo := gastos_en_grupo c;
      sec_gastos_mensuales := sec_gastos_mensuales c;
      sec_pagos := sec_pagos c;
      sec_grupos_distribucion := sec_grupos_distribucion c;
      sec_gastos_en_grupo := sec_gastos_en_grupo c |},
   0 <? Z.of_nat (List.length (filter (fun gd => gd_id gd =? grupo_id)
                                      (grupos_distribucion c)))).

(** The WHERE clause on the key of [montos_mensuales]. *)
Definition es_monto_de (gasto_id mes anio : Z) (m : monto_mensual) : bool :=
  (m_gasto_id m =? gasto_id) && (m_mes m =? mes) && (m_anio m =? anio).

(** [UNIQUE(gasto_id, mes, anio)]: at most one override row per key. *)
Definition clave_unica_montos (c : conn) : Prop :=
  forall gasto_id mes anio,
    (List.length (filter (es_monto_de gasto_id mes anio) (montos_mensuales c))
     <= 1)%nat.

(** A row of kind personalizado with the given percentage of Ricardo. *)
Definition gasto_personalizado (porcentaje : option flotante)
  : fila_config :=
  {| c_id := 1; c_concepto := "Alquiler"; c_frecuencia := "Quincenal";
     c_tipo_monto := "fijo"; c_monto_total := 45; c_personalizado := 0;
     c_tipo_distribucion := "personalizado";
     c_monto_fijo_ricardo := None; c_monto_fijo_wendy := None;
     c_porcentaje_ricardo := porcentaje; c_grupo := None |}.

(** A variable expense of base 100.00 with an override of 150.00 for March
    2025, and its row in the table of expenses. *)
Definition conn_variable_con_override : conn :=
  let c := fst (crear_gasto_mensual conn_vacia "Luz" 100 "Mensual" "variable"
                  "50/50" None None (Some 50%Q) None) in
  fst (establecer_monto_del_mes c 1 3 2025 150).

Definition gasto_luz : gasto_mensual :=
  {| g_id := 1; g_concepto := "Luz"; g_monto_total := 100;
     g_frecuencia := "Mensual"; g_tipo_monto := "variable";
     g_tipo_distribucion := "50/50"; g_monto_fijo_ricardo := None;
     g_monto_fijo_wendy := None; g_porcentaje_ricardo := Some 50%Q;
     g_grupo := None; g_activo := 1 |}.

(** Every active group that has an active member names a payer: the text
    [quien_paga_fijo] is not empty. *)
Definition grupos_con_pagador (c : conn) : Prop :=
  forall gd, In gd (grupos_distribucion c) -> gd_activo gd = 1 ->
             miembros_de_grupo c (gd_id gd) <> [] ->
             gd_quien_paga_fijo gd <> "".

(** ** [obtener_rango_semana] *)

Module Calendario2.

Definition _DI400Y : Z := 146097.
Definition _DI100Y : Z := 36524.
Definition _DI4Y : Z := 1461.

(** [_ord2ymd] of [datetime]: the (year, month, day) of an ordinal. *)
Definition _ord2ymd (n : Z) : Z * Z * Z :=
  let n := n - 1 in
  let n400 := n / _DI400Y in
  let n := n mod _DI400Y in
  let year := n400 * 400 + 1 in
  let n100 := n / _DI100Y in
  let n := n mod _DI100Y in
  let n4 := n / _DI4Y in
  let n := n mod _DI4Y in
  let n1 := n / 365 in
  let n := n mod 365 in
  let year := year + n100 * 100 + n4 * 4 + n1 in
  if (n1 =? 4) || (n100 =? 4) then (year - 1, 12, 31)
  else
    let leapyear := (n1 =? 3) && (negb (n4 =? 24) || (n100 =? 3)) in
    let month := Z.shiftr (n + 50) 5 in
    let preceding :=
      nth (Z.to_nat month) _DAYS_BEFORE_MONTH 0
      + (if (2 <? month) && leapyear then 1 else 0) in
    if preceding >? n then
      let month := month - 1 in
      let preceding :=
        preceding - (nth (Z.to_nat month) _DAYS_IN_MONTH 0
                     + (if (month =? 2) && leapyear then 1 else 0)) in
      (year, month, n - preceding + 1)
    else (year, month, n - preceding + 1).

(** ["%02d"]. *)
Definition dos_digitos (n : Z) : string :=
  if n <? 10 then "0" ++ str n else str n.

(** [d.strftime('%d/%m')]. *)
Definition strftime_dm (d : date) : string :=
  let '(_, month, day) := _ord2ymd d in
  dos_digitos day ++ "/" ++ dos_digitos month.

End Calendario2.

Import Calendario2.

(** The two dates of [obtener_rango_semana], before they are printed. *)
Definition rango_semana (mes anio numero_semana : Z)
  : resultado (date * date) :=
  primer_dia <- date_ anio mes 1 ;;
  primer_lunes <- primer_lunes_del_mes primer_dia ;;
  fecha_inicio <- date_add primer_lunes ((numero_semana - 1) * 7) ;;
  fecha_fin <- date_add fecha_inicio 6 ;;
  Ok (fecha_inicio, fecha_fin).

Definition obtener_rango_semana (mes anio numero_semana : Z)
  : resultado (string * string) :=
  fechas <- rango_semana mes anio numero_semana ;;
  Ok (strftime_dm (fst fechas), strftime_dm (snd fechas)).

(** ** The store as the operations leave it *)

(** The operations of [app.py] that write. *)
Inductive operacion : Type :=
| Op_crear_gasto_mensual (concepto : string) (monto_total : Q)
    (frecuencia tipo_monto tipo_distribucion : string)
    (monto_fijo_ricardo monto_fijo_wendy porcentaje_ricardo : option Q)
    (grupo : option string)
| Op_actualizar_gasto_mensual (id_gasto : Z) (concepto : string)
    (monto_total : Q) (frecuencia tipo_monto tipo_distribucion : string)
    (monto_fijo_ricardo monto_fijo_wendy porcentaje_ricardo : option Q)
    (grupo : option string)
| Op_desactivar_gasto_mensual (id_gasto : Z)
| Op_establecer_monto_del_mes (gasto_id mes anio : Z) (monto : Q)
| Op_crear_grupo_distribucion (nombre : string) (descripcion : option string)
    (quien_paga_fijo : string) (monto_fijo : Q) (gastos_ids : list Z)
| Op_actualizar_grupo_distribucion (grupo_id : Z) (nombre : string)
    (descripcion : option string) (quien_paga_fijo : string) (monto_fijo : Q)
| Op_agregar_gasto_a_grupo (grupo_id gasto_id : Z)
| Op_remover_gasto_de_grupo (grupo_id gasto_id : Z)
| Op_eliminar_grupo_distribucion (grupo_id : Z)
| Op_registrar_pago (gasto_id mes anio : Z) (quien_pago : string)
    (monto_pagado : Q) (semana : option Z)
| Op_eliminar_pago (pago_id : Z)
| Op_eliminar_pago_por_criterios (gasto_id mes anio : Z) (quien_pago : string).

(** The store after an operation. *)
Definition ejecutar (c : conn) (op : operacion) : conn :=
  match op with
  | Op_crear_gasto_mensual co mt fr tm td fr_ fw_ pr gr =>
      fst (crear_gasto_mensual c co mt fr tm td fr_ fw_ pr gr)
  | Op_actualizar_gasto_mensual id co mt fr tm td fr_ fw_ pr gr =>
      fst (actualizar_gasto_mensual c id co mt fr tm td fr_ fw_ pr gr)
  | Op_desactivar_gasto_mensual id => fst (desactivar_gasto_mensual c id)
  | Op_establecer_monto_del_mes id mes anio monto =>
      fst (establecer_monto_del_mes c id mes anio monto)
  | Op_crear_grupo_distribucion nombre desc quien monto ids =>
      fst (crear_grupo_distribucion c nombre desc quien monto ids)
  | Op_actualizar_grupo_distribucion gid nombre desc quien monto =>
      fst (actualizar_grupo_distribucion c gid nombre desc quien monto)
  | Op_agregar_gasto_a_grupo gid id => fst (agregar_gasto_a_grupo c gid id)
  | Op_remover_gasto_de_grupo gid id => fst (remover_gasto_de_grupo c gid id)
  | Op_eliminar_grupo_distribucion gid =>
      fst (eliminar_grupo_distribucion c gid)
  | Op_registrar_pago id mes anio quien monto semana =>
      fst (registrar_pago c id mes anio quien monto semana)
  | Op_eliminar_pago pid => fst (eliminar_pago c pid)
  | Op_eliminar_pago_por_criterios id mes anio quien =>
      fst (eliminar_pago_por_criterios c id mes anio quien)
  end.

(** The store after a history of operations on the empty store. *)
Definition historia (ops : list operacion) : conn :=
  fold_left ejecutar ops conn_vacia.

(** The constraints of the schema of [conectar_db], and what the code adds
    to them. *)
Record esquema (c : conn) : Prop := {
  (* PRIMARY KEY of each table *)
  pk_gastos : NoDup (map g_id (gastos_mensuales c));
  pk_montos : NoDup (map m_id (montos_mensuales c));
  pk_pagos : NoDup (map p_id (pagos c));
  pk_grupos : NoDup (map gd_id (grupos_distribucion c));
  pk_gastos_en_grupo : NoDup (map ge_id (gastos_en_grupo c));
  (* UNIQUE(gasto_id, mes, anio) *)
  unico_montos : clave_unica_montos c;
  (* UNIQUE(grupo_id, gasto_id) *)
  unico_gastos_en_grupo :
    NoDup (map (fun ge => (ge_grupo_id ge, ge_gasto_id ge))
               (gastos_en_grupo c));
  (* the flag activo is 0 or 1 *)
  activo_gastos :
    forall g, In g (gastos_mensuales c) -> g_activo g = 0 \/ g_activo g = 1;
  activo_grupos :
    forall gd, In gd (grupos_distribucion c) ->
               gd_activo gd = 0 \/ gd_activo gd = 1;
  (* a group stores a fixed amount for its payer only *)
  fijo_del_pagador :
    forall gd, In gd (grupos_distribucion c) ->
               (gd_monto_fijo_ricardo gd <> None ->
                gd_quien_paga_fijo gd = "Ricardo")
               /\ (gd_monto_fijo_wendy gd <> None ->
                   gd_quien_paga_fijo gd = "Wendy")
}.

(** [leer_gastos_mensuales]: the rows of the frame, with the columns the
    store keeps (the creation date is not among them), [ORDER BY concepto]. *)
Definition leer_gastos_mensuales (c : conn) (solo_activos : bool)
  : list gasto_mensual :=
  ordenar (fun a b => String.leb (g_concepto a) (g_concepto b))
          (if solo_activos
           then filter (fun g => g_activo g =? 1) (gastos_mensuales c)
           else gastos_mensuales c).

(** ** The Mondays of a month *)

(** The day [dia] of the month is a Monday: [date(anio, mes, dia)] exists
    and its [weekday()] is 0. *)
Definition es_lunes (anio mes dia : Z) : bool :=
  match date_ anio mes dia with
  | Ok fecha => weekday fecha =? 0
  | Raise _ => false
  end.

(** The Mondays of the month, among the days 1..31. *)
Definition lunes_del_mes (mes anio : Z) : list Z :=
  filter (es_lunes anio mes) (map Z.of_nat (seq 1 31)).

(** ** Rows with an unset parameter *)

(** Two expenses of kind fijo_ricardo: the rent with 70.00 fixed, and the
    water, of 100.00, with no fixed amount set. *)
Definition conn_fijo_sin_monto : conn :=
  let c := fst (crear_gasto_mensual conn_vacia "Alquiler" 100 "Mensual"
                  "fijo" "fijo_ricardo" (Some 70%Q) None (Some 50%Q) None) in
  fst (crear_gasto_mensual c "Agua" 100 "Mensual" "fijo" "fijo_ricardo"
         None None (Some 50%Q) None).

(** The row of the water in the frame of [conn_fijo_sin_monto]: the column
    of the fixed amounts of Ricardo holds a number, so the unset amount is
    nan. *)
Definition gasto_fijo_nan : fila_config :=
  {| c_id := 2; c_concepto := "Agua"; c_frecuencia := "Mensual";
     c_tipo_monto := "fijo"; c_monto_total := 100; c_personalizado := 0;
     c_tipo_distribucion := "fijo_ricardo";
     c_monto_fijo_ricardo := Some NaN; c_monto_fijo_wendy := None;
     c_porcentaje_ricardo := Some (Num 50); c_grupo := None |}.
(** * Properties *)

(** ** The calendar *)

Lemma mes_calculable_rango (mes anio : Z) :
  mes_calculable mes anio = true ->
  1 <= mes <= 12 /\ 1 <= anio <= 9999 /\ (anio = 9999 -> mes <> 12).
Proof.
  unfold mes_calculable, MINYEAR, MAXYEAR. intros H.
  rewrite !andb_true_iff, negb_true_iff, andb_false_iff in H.
  rewrite !Z.leb_le, !Z.eqb_neq in H. lia.
Qed.

Lemma dias_del_mes_rango (anio mes : Z) :
  1 <= mes <= 12 -> 28 <= _days_in_month anio mes <= 31.
Proof.
  intros Hm. unfold _days_in_month.
  casos_mes mes; destruct (_is_leap anio); vm_compute;
    split; discriminate.
Qed.

Lemma monthrange_ndays_ok (anio mes : Z) :
  1 <= mes <= 12 -> monthrange_ndays anio mes = Ok (_days_in_month anio mes).
Proof.
  intros Hm. unfold monthrange_ndays, _days_in_month.
  casos_mes mes; destruct (_is_leap anio); reflexivity.
Qed.

Lemma cabe_en_int_rango (n : Z) :
  cabe_en_int n = true <-> -2147483648 <= n <= 2147483647.
Proof.
  unfold cabe_en_int. rewrite andb_true_iff, !Z.leb_le. tauto.
Qed.

Lemma date_ok (anio mes dia : Z) :
  1 <= anio <= 9999 -> 1 <= mes <= 12 ->
  1 <= dia <= _days_in_month anio mes ->
  date_ anio mes dia = Ok (_ymd2ord anio mes dia).
Proof.
  intros Ha Hm Hd. unfold date_, MINYEAR, MAXYEAR.
  pose proof (dias_del_mes_rango anio mes Hm) as Hn.
  rewrite !(proj2 (cabe_en_int_rango _)) by lia. cbn [andb negb].
  replace ((1 <=? anio) && (anio <=? 9999)) with true
    by (symmetry; apply andb_true_iff; split; apply Z.leb_le; lia).
  replace ((1 <=? mes) && (mes <=? 12)) with true
    by (symmetry; apply andb_true_iff; split; apply Z.leb_le; lia).
  replace ((1 <=? dia) && (dia <=? _days_in_month anio mes)) with true
    by (symmetry; apply andb_true_iff; split; apply Z.leb_le; lia).
  reflexivity.
Qed.

(** The first day of a month has a positive ordinal, and the last day of a
    calculable month is at least a week before [date.max]. *)
Lemma ordinal_del_mes_rango (anio mes : Z) :
  mes_calculable mes anio = true ->
  1 <= _ymd2ord anio mes 1
  /\ _ymd2ord anio mes (_days_in_month anio mes) + 7 <= _MAXORDINAL.
Proof.
  intros H. apply mes_calculable_rango in H. destruct H as (Hm & Ha & Hd).
  unfold _ymd2ord, _days_before_year, _days_before_month, _days_in_month,
    _MAXORDINAL.
  assert (Hy : anio <= 9998 \/ anio = 9999) by lia.
  destruct Hy as [Hy | Hy].
  - casos_mes mes; destruct (_is_leap anio); evaluar_tablas;
      Z.div_mod_to_equations; lia.
  - subst anio.
    casos_mes mes; try (vm_compute; split; discriminate).
    exfalso. apply Hd; reflexivity.
Qed.

Lemma weekday_rango (d : date) : 0 <= weekday d <= 6.
Proof. unfold weekday. pose proof (Z.mod_pos_bound (d + 6) 7). lia. Qed.

Lemma primer_lunes_ok (d : date) :
  0 < d -> d + 6 <= _MAXORDINAL ->
  exists l, primer_lunes_del_mes d = Ok l /\ d <= l <= d + 6
            /\ weekday l = 0.
Proof.
  intros Hpos Hmax. unfold primer_lunes_del_mes.
  pose proof (weekday_rango d) as Hw.
  destruct (weekday d =? 0) eqn:E.
  - exists d. apply Z.eqb_eq in E. repeat split; lia.
  - apply Z.eqb_neq in E.
    assert (Hk : (7 - weekday d) mod 7 = 7 - weekday d)
      by (apply Z.mod_small; lia).
    rewrite Hk.
    destruct (7 - weekday d =? 0) eqn:E0; [apply Z.eqb_eq in E0; lia | ].
    unfold date_add.
    replace ((0 <? d + (7 - weekday d))
             && (d + (7 - weekday d) <=? _MAXORDINAL)) with true.
    + exists (d + (7 - weekday d)). repeat split; try lia.
      unfold weekday in *. Z.div_mod_to_equations. lia.
    + symmetry. apply andb_true_iff.
      split; [apply Z.ltb_lt | apply Z.leb_le]; lia.
Qed.

(** The loop counts the Mondays from [fecha] to [ultimo], and its fuel is
    enough whenever it covers the days left. *)
Lemma contar_semanas_combustible (n : nat) :
  forall fecha ultimo semanas,
    0 < fecha -> ultimo + 7 <= _MAXORDINAL ->
    ultimo - fecha < 7 * Z.of_nat n ->
    contar_semanas n fecha ultimo semanas
    = Ok (semanas + (if fecha <=? ultimo
                     then (ultimo - fecha) / 7 + 1 else 0)).
Proof.
  induction n as [| n IH]; intros fecha ultimo semanas Hpos Hmax Hfuel.
  - simpl. destruct (fecha <=? ultimo) eqn:E.
    + apply Z.leb_le in E. lia.
    + f_equal. lia.
  - simpl. destruct (fecha <=? ultimo) eqn:E.
    + apply Z.leb_le in E. unfold date_add.
      replace ((0 <? fecha + 7) && (fecha + 7 <=? _MAXORDINAL)) with true
        by (symmetry; apply andb_true_iff;
            split; [apply Z.ltb_lt | apply Z.leb_le]; lia).
      simpl. rewrite IH by lia. f_equal.
      destruct (fecha + 7 <=? ultimo) eqn:E'.
      * apply Z.leb_le in E'.
        replace (ultimo - fecha) with ((ultimo - (fecha + 7)) + 1 * 7) by lia.
        rewrite Z.div_add by lia. lia.
      * apply Z.leb_gt in E'. rewrite Z.div_small by lia. lia.
    + f_equal. lia.
Qed.

(** On a calculable month the count is returned, and it is 4 or 5. *)
Lemma semanas_del_mes_definido (mes anio : Z) :
  mes_calculable mes anio = true ->
  exists s, calcular_semanas_del_mes mes anio = Ok s /\ (s = 4 \/ s = 5).
Proof.
  intros H.
  destruct (ordinal_del_mes_rango anio mes H) as [Hlo Hhi].
  pose proof (mes_calculable_rango mes anio H) as (Hm & Ha & _).
  pose proof (dias_del_mes_rango anio mes Hm) as Hn.
  unfold calcular_semanas_del_mes.
  rewrite date_ok by lia. simpl.
  rewrite monthrange_ndays_ok by lia. simpl.
  rewrite date_ok by lia. simpl.
  set (primer := _ymd2ord anio mes 1) in *.
  set (ultimo := _ymd2ord anio mes (_days_in_month anio mes)) in *.
  assert (Hu : ultimo = primer + _days_in_month anio mes - 1)
    by (unfold ultimo, primer, _ymd2ord; lia).
  destruct (primer_lunes_ok primer) as (l & -> & Hl & _); try lia.
  simpl.
  destruct (l >? ultimo) eqn:E; [apply Z.gtb_lt in E; lia | ].
  rewrite contar_semanas_combustible by lia.
  replace (l <=? ultimo) with true by (symmetry; apply Z.leb_le; lia).
  eexists. split; [reflexivity | ].
  assert (Hq : 3 <= (ultimo - l) / 7 <= 4)
    by (Z.div_mod_to_equations; lia).
  lia.
Qed.

Lemma contar_semanas_creciente (n : nat) :
  forall fecha ultimo semanas r,
    contar_semanas n fecha ultimo semanas = Ok r -> semanas <= r.
Proof.
  induction n as [| n IH]; intros fecha ultimo semanas r; simpl;
    destruct (fecha <=? ultimo); try discriminate;
    try (intros [= <-]; lia).
  destruct (date_add fecha 7) as [f' | e]; simpl; [ | discriminate].
  intros H. apply IH in H. lia.
Qed.

Lemma semanas_del_mes_no_negativo (mes anio s : Z) :
  calcular_semanas_del_mes mes anio = Ok s -> 0 <= s.
Proof.
  unfold calcular_semanas_del_mes.
  destruct (date_ anio mes 1) as [primer | e]; simpl; [ | discriminate].
  destruct (monthrange_ndays anio mes) as [n | e]; simpl; [ | discriminate].
  destruct (date_ anio mes n) as [ultimo | e]; simpl; [ | discriminate].
  destruct (primer_lunes_del_mes primer) as [l | e]; simpl;
    [ | discriminate].
  destruct (l >? ultimo).
  - intros [= <-]. lia.
  - apply contar_semanas_creciente.
Qed.

(** The count of weeks in terms of the first Monday [l] and the last day
    [u] of the month. *)
Lemma semanas_del_mes_formula (mes anio : Z) :
  mes_calculable mes anio = true ->
  exists l,
    primer_lunes_del_mes (_ymd2ord anio mes 1) = Ok l
    /\ _ymd2ord anio mes 1 <= l <= _ymd2ord anio mes 1 + 6
    /\ weekday l = 0
    /\ calcular_semanas_del_mes mes anio
       = Ok ((_ymd2ord anio mes (_days_in_month anio mes) - l) / 7 + 1).
Proof.
  intros H.
  destruct (ordinal_del_mes_rango anio mes H) as [Hlo Hhi].
  pose proof (mes_calculable_rango mes anio H) as (Hm & Ha & _).
  pose proof (dias_del_mes_rango anio mes Hm) as Hn.
  assert (Hu : _ymd2ord anio mes (_days_in_month anio mes)
               = _ymd2ord anio mes 1 + _days_in_month anio mes - 1)
    by (unfold _ymd2ord; lia).
  destruct (primer_lunes_ok (_ymd2ord anio mes 1)) as (l & Hl & Hr & Hw);
    try lia.
  exists l. split; [exact Hl | ]. split; [exact Hr | ].
  split; [exact Hw | ].
  unfold calcular_semanas_del_mes.
  rewrite date_ok by lia. cbn [bind].
  rewrite monthrange_ndays_ok by lia. cbn [bind].
  rewrite date_ok by lia. cbn [bind]. rewrite Hl. cbn [bind].
  destruct (l >? _ymd2ord anio mes (_days_in_month anio mes)) eqn:E;
    [apply Z.gtb_lt in E; lia | ].
  rewrite contar_semanas_combustible by lia.
  replace (l <=? _ymd2ord anio mes (_days_in_month anio mes)) with true
    by (symmetry; apply Z.leb_le; lia).
  reflexivity.
Qed.

(** A day of the month is a Monday exactly when it is a day of the month and
    its distance to the first day fits the weekday of the first day. *)
Lemma es_lunes_formula (mes anio dia : Z) :
  mes_calculable mes anio = true -> 1 <= dia <= 31 ->
  es_lunes anio mes dia
  = (dia <=? _days_in_month anio mes)
    && ((weekday (_ymd2ord anio mes 1) + dia - 1) mod 7 =? 0).
Proof.
  intros H Hd.
  pose proof (mes_calculable_rango mes anio H) as (Hm & Ha & _).
  pose proof (dias_del_mes_rango anio mes Hm) as Hn.
  unfold es_lunes. destruct (dia <=? _days_in_month anio mes) eqn:E.
  - apply Z.leb_le in E. rewrite date_ok by lia. cbn [andb].
    assert (Hw : weekday (_ymd2ord anio mes dia)
                 = (weekday (_ymd2ord anio mes 1) + dia - 1) mod 7).
    { unfold weekday, _ymd2ord. Z.div_mod_to_equations. lia. }
    rewrite Hw. reflexivity.
  - apply Z.leb_gt in E. unfold date_, MINYEAR, MAXYEAR.
    rewrite !(proj2 (cabe_en_int_rango _)) by lia. cbn [andb negb].
    replace ((1 <=? anio) && (anio <=? 9999)) with true
      by (symmetry; apply andb_true_iff; split; apply Z.leb_le; lia).
    replace ((1 <=? mes) && (mes <=? 12)) with true
      by (symmetry; apply andb_true_iff; split; apply Z.leb_le; lia).
    replace (dia <=? _days_in_month anio mes) with false
      by (symmetry; apply Z.leb_gt; lia).
    rewrite andb_false_r. reflexivity.
Qed.

(** The Mondays among the days 1..n of a month whose first day has weekday
    [w]. *)
Lemma cuenta_de_lunes (n w : Z) :
  28 <= n <= 31 -> 0 <= w <= 6 ->
  Z.of_nat (List.length
              (filter (fun d => (d <=? n) && ((w + d - 1) mod 7 =? 0))
                      (map Z.of_nat (seq 1 31))))
  = (n - 1 - (7 - w) mod 7) / 7 + 1.
Proof.
  intros Hn Hw.
  assert (Hn' : n = 28 \/ n = 29 \/ n = 30 \/ n = 31) by lia.
  assert (Hw' : w = 0 \/ w = 1 \/ w = 2 \/ w = 3 \/ w = 4 \/ w = 5 \/ w = 6)
    by lia.
  destruct Hn' as [-> | [-> | [-> | ->]]];
    destruct Hw' as [-> | [-> | [-> | [-> | [-> | [-> | ->]]]]]];
    vm_compute; reflexivity.
Qed.

(** On a calculable month the count is the number of Mondays of the
    month. *)
Lemma semanas_del_mes_son_los_lunes (mes anio : Z) :
  mes_calculable mes anio = true ->
  calcular_semanas_del_mes mes anio
  = Ok (Z.of_nat (List.length (lunes_del_mes mes anio))).
Proof.
  intros H.
  pose proof (mes_calculable_rango mes anio H) as (Hm & Ha & _).
  pose proof (dias_del_mes_rango anio mes Hm) as Hn.
  pose proof (weekday_rango (_ymd2ord anio mes 1)) as Hw.
  destruct (semanas_del_mes_formula mes anio H) as (l & _ & Hl & Hwl & ->).
  f_equal. unfold lunes_del_mes.
  rewrite (filter_ext_in
             (es_lunes anio mes)
             (fun d => (d <=? _days_in_month anio mes)
                       && ((weekday (_ymd2ord anio mes 1) + d - 1) mod 7
                           =? 0))).
  - rewrite (cuenta_de_lunes _ _ Hn Hw).
    assert (Hd : l - _ymd2ord anio mes 1
                 = (7 - weekday (_ymd2ord anio mes 1)) mod 7).
    { unfold weekday in *. Z.div_mod_to_equations. lia. }
    rewrite <- Hd. f_equal. f_equal. unfold _ymd2ord. lia.
  - intros d Hd. apply es_lunes_formula; [exact H | ].
    apply in_map_iff in Hd. destruct Hd as (k & <- & Hk).
    apply in_seq in Hk. lia.
Qed.

(** ** C7: the weeks of a month *)




(** ** C6: the frequency conversion *)

Lemma Qmult_inject_Z_no_negativo (b : Q) (s : Z) :
  (0 <= b)%Q -> 0 <= s -> (0 <= b * inject_Z s)%Q.
Proof.
  intros Hb Hs. apply Qmult_le_0_compat; [exact Hb | ].
  change 0%Q with (inject_Z 0). rewrite <- Zle_Qle. exact Hs.
Qed.

Lemma monto_segun_frecuencia_no_negativo (b : Q) (frecuencia : string)
    (mes anio : Z) (r : Q) :
  (0 <= b)%Q ->
  calcular_monto_mensual_segun_frecuencia b frecuencia mes anio = Ok r ->
  (0 <= r)%Q.
Proof.
  intros Hb. unfold calcular_monto_mensual_segun_frecuencia.
  destruct (frecuencia =? "Semanal")%string.
  - destruct (calcular_semanas_del_mes mes anio) as [s | e] eqn:E; simpl;
      [ | discriminate].
    intros [= <-]. apply Qmult_inject_Z_no_negativo; [exact Hb | ].
    exact (semanas_del_mes_no_negativo _ _ _ E).
  - destruct (frecuencia =? "Quincenal")%string.
    + intros [= <-]. apply Qmult_le_0_compat; [exact Hb | discriminate].
    + destruct (frecuencia =? "Anual")%string; intros [= <-].
      * apply Qmult_le_0_compat; [exact Hb | discriminate].
      * exact Hb.
Qed.

Lemma monto_segun_frecuencia_definido (b : Q) (frecuencia : string)
    (mes anio : Z) :
  mes_calculable mes anio = true ->
  exists r, calcular_monto_mensual_segun_frecuencia b frecuencia mes anio
            = Ok r.
Proof.
  intros H. unfold calcular_monto_mensual_segun_frecuencia.
  destruct (semanas_del_mes_definido mes anio H) as (s & -> & _). simpl.
  destruct (frecuencia =? "Semanal")%string; [eexists; reflexivity | ].
  destruct (frecuencia =? "Quincenal")%string; [eexists; reflexivity | ].
  destruct (frecuencia =? "Anual")%string; eexists; reflexivity.
Qed.

(** C6: for a base amount [b >= 0], [calcular_monto_mensual_segun_frecuencia]
    returns [b] for Mensual, [b * 2] for Quincenal, [b / 12] for Anual and
    [b] times the week count of the month for Semanal (raising exactly when
    the week count raises); every amount it returns is [>= 0], and it returns
    one for each frequency on every calculable month. *)
Theorem C6_monto_segun_frecuencia (b : Q) (mes anio : Z) :
  (0 <= b)%Q ->
  calcular_monto_mensual_segun_frecuencia b "Mensual" mes anio = Ok b
  /\ calcular_monto_mensual_segun_frecuencia b "Quincenal" mes anio
     = Ok (b * 2)%Q
  /\ calcular_monto_mensual_segun_frecuencia b "Anual" mes anio
     = Ok (b / 12)%Q
  /\ (forall s, calcular_semanas_del_mes mes anio = Ok s ->
        calcular_monto_mensual_segun_frecuencia b "Semanal" mes anio
        = Ok (b * inject_Z s)%Q)
  /\ (forall e, calcular_semanas_del_mes mes anio = Raise e ->
        calcular_monto_mensual_segun_frecuencia b "Semanal" mes anio
        = Raise e)
  /\ (forall frecuencia r,
        calcular_monto_mensual_segun_frecuencia b frecuencia mes anio = Ok r ->
        (0 <= r)%Q)
  /\ (mes_calculable mes anio = true ->
      forall frecuencia,
        exists r,
          calcular_monto_mensual_segun_frecuencia b frecuencia mes anio
          = Ok r /\ (0 <= r)%Q).
Proof.
  intros Hb. repeat split; try reflexivity.
  - intros s Hs. unfold calcular_monto_mensual_segun_frecuencia.
    simpl. rewrite Hs. reflexivity.
  - intros e He. unfold calcular_monto_mensual_segun_frecuencia.
    simpl. rewrite He. reflexivity.
  - intros frecuencia r.
    apply monto_segun_frecuencia_no_negativo; exact Hb.
  - intros Hm frecuencia.
    destruct (monto_segun_frecuencia_definido b frecuencia mes anio Hm)
      as [r Hr].
    exists r. split; [exact Hr | ].
    exact (monto_segun_frecuencia_no_negativo _ _ _ _ _ Hb Hr).
Qed.

Lemma C6_monto_segun_frecuencia_witness :
  (0 <= 10)%Q
  /\ calcular_monto_mensual_segun_frecuencia 10 "Semanal" 1 2024
     = Ok (10 * inject_Z 5)%Q.
Proof.
  split; [discriminate | ].
  apply (C6_monto_segun_frecuencia 10 1 2024); [discriminate | reflexivity].
Defined.

(** ** C9: the amount of a month without rows *)

Lemma filter_ninguno {A : Type} (f : A -> bool) (l : list A) :
  (forall x, In x l -> f x = false) -> filter f l = [].
Proof.
  induction l as [| x l IH]; intros H; simpl; [reflexivity | ].
  rewrite (H x) by (left; reflexivity).
  apply IH. intros y Hy. apply H. right. exact Hy.
Qed.

Lemma enlazar_ok (parametros : list Z) :
  enlazar parametros = Ok tt <-> forallb cabe_en_sqlite parametros = true.
Proof.
  unfold enlazar. destruct (forallb cabe_en_sqlite parametros);
    split; try reflexivity; discriminate.
Qed.

Lemma enlazar_tres (a b d : Z) :
  enlazar [a; b; d] = Ok tt
  <-> cabe_en_sqlite a = true /\ cabe_en_sqlite b = true
      /\ cabe_en_sqlite d = true.
Proof.
  rewrite enlazar_ok. cbn [forallb]. rewrite !andb_true_iff. tauto.
Qed.

Lemma obtener_monto_enlazado (c : conn) (gasto_id mes anio : Z) :
  obtener_monto_del_mes c gasto_id mes anio
  = enlazado [gasto_id; mes; anio]
             (consultar_monto_del_mes c gasto_id mes anio).
Proof. reflexivity. Qed.

(** With no row for the key and no row for the id both queries come back
    empty. *)
Lemma consultar_monto_sin_filas (c : conn) (gasto_id mes anio : Z) :
  (forall m, In m (montos_mensuales c) ->
     ~ (m_gasto_id m = gasto_id /\ m_mes m = mes /\ m_anio m = anio)) ->
  (forall g, In g (gastos_mensuales c) -> g_id g <> gasto_id) ->
  consultar_monto_del_mes c gasto_id mes anio = 0%Q.
Proof.
  intros Hm Hg. unfold consultar_monto_del_mes.
  rewrite filter_ninguno.
  - rewrite filter_ninguno; [reflexivity | ].
    intros g Hin. apply Z.eqb_neq. exact (Hg g Hin).
  - intros m Hin. specialize (Hm m Hin).
    destruct (m_gasto_id m =? gasto_id) eqn:E1; [ | reflexivity].
    destruct (m_mes m =? mes) eqn:E2; [ | reflexivity].
    destruct (m_anio m =? anio) eqn:E3; [ | reflexivity].
    exfalso. apply Hm.
    apply Z.eqb_eq in E1, E2, E3. repeat split; assumption.
Qed.

Lemma filter_map_estable {A : Type} (p : A -> bool) (f : A -> A)
    (l : list A) :
  (forall x, p (f x) = p x) -> filter p (map f l) = map f (filter p l).
Proof.
  intros H. induction l as [| x l IH]; [reflexivity | ]. simpl.
  rewrite H. destruct (p x); simpl; rewrite IH; reflexivity.
Qed.

(** C9, as stated, fails for an integer that SQLite cannot hold: the empty
    store has no override row and no expense row for the key
    (2^63, 1, 2025), and the call raises [OverflowError] instead of
    returning 0.0. *)
Lemma C9_id_fuera_de_sqlite :
  (forall m, In m (montos_mensuales conn_vacia) ->
     ~ (m_gasto_id m = 2 ^ 63 /\ m_mes m = 1 /\ m_anio m = 2025))
  /\ (forall g, In g (gastos_mensuales conn_vacia) -> g_id g <> 2 ^ 63)
  /\ obtener_monto_del_mes conn_vacia (2 ^ 63) 1 2025 = Raise OverflowError
  /\ obtener_monto_del_mes conn_vacia (2 ^ 63) 1 2025 <> Ok 0%Q.
Proof.
  split; [intros m [] | ]. split; [intros g [] | ].
  split; [reflexivity | discriminate].
Qed.

(** C9 (amended): for every (expense id, month, year) of integers that
    SQLite can hold, [obtener_monto_del_mes] returns an amount and raises
    nothing, whatever rows exist; and when neither an override row for the
    key nor an expense row with that id exists it returns 0.0. *)
Theorem C9_monto_del_mes_sin_filas (c : conn) (gasto_id mes anio : Z) :
  cabe_en_sqlite gasto_id = true ->
  cabe_en_sqlite mes = true ->
  cabe_en_sqlite anio = true ->
  (exists monto, obtener_monto_del_mes c gasto_id mes anio = Ok monto)
  /\ ((forall m, In m (montos_mensuales c) ->
         ~ (m_gasto_id m = gasto_id /\ m_mes m = mes /\ m_anio m = anio)) ->
      (forall g, In g (gastos_mensuales c) -> g_id g <> gasto_id) ->
      obtener_monto_del_mes c gasto_id mes anio = Ok 0%Q).
Proof.
  intros Hg Hm Ha.
  assert (He : enlazar [gasto_id; mes; anio] = Ok tt)
    by (apply enlazar_tres; tauto).
  unfold obtener_monto_del_mes. rewrite He. cbn [bind]. split.
  - eexists. reflexivity.
  - intros H1 H2. rewrite consultar_monto_sin_filas by assumption.
    reflexivity.
Qed.

(** The store [conn_fijo_con_override] has the expenses 1 and 2 and one
    override, of expense 1 for March 2025: expense 7 has no amount in April
    2025. *)
Lemma C9_monto_del_mes_sin_filas_witness :
  (exists monto,
     obtener_monto_del_mes conn_fijo_con_override 7 4 2025 = Ok monto)
  /\ obtener_monto_del_mes conn_fijo_con_override 7 4 2025 = Ok 0%Q.
Proof.
  destruct (C9_monto_del_mes_sin_filas conn_fijo_con_override 7 4 2025
              eq_refl eq_refl eq_refl) as [Hdef Hcero].
  split; [exact Hdef | ]. apply Hcero.
  - intros m [<- | []]. simpl. intros (H & _). discriminate.
  - intros g [<- | [<- | []]]; simpl; discriminate.
Defined.

(** ** C3: fixed expenses and overrides *)

(** The individual path: the amount [obtener_montos_configurados] selects for
    a fixed expense is its base amount, whatever override is joined. *)
Lemma seleccionar_config_fijo (g : gasto_mensual) (m : option monto_mensual) :
  g_tipo_monto g = "fijo" ->
  c_monto_total (seleccionar_config g m) = g_monto_total g.
Proof. intros H. simpl. rewrite H. reflexivity. Qed.

(** C3 fails on the group path. In [conn_fijo_con_override] expense 1 is
    fixed with base 100.00 and has an override of 150.00 for March 2025: its
    individual amount is the base, but [obtener_monto_del_mes] returns the
    override, and the group row adds 150.00 + 60.00 instead of
    100.00 + 60.00. *)
Theorem C3_grupo_usa_override_de_fijo :
  map (fun g => (g_id g, g_tipo_monto g, g_monto_total g))
      (gastos_mensuales conn_fijo_con_override)
  = [(1, "fijo", 100%Q); (2, "fijo", 60%Q)]
  /\ map (fun r => (c_id r, c_monto_total r))
         (obtener_montos_configurados conn_fijo_con_override 3 2025)
     = [(2, 60%Q); (1, 100%Q)]
  /\ obtener_monto_del_mes conn_fijo_con_override 1 3 2025 = Ok 150%Q
  /\ (exists f,
        calcular_tabla_mensual conn_fijo_con_override 3 2025 = Ok [f]
        /\ f_id f = IdGrupo 1
        /\ f_Monto_Total f = 210%Q
        /\ ~ (f_Monto_Total f == 100 + 60)%Q).
Proof.
  split; [reflexivity | ]. split; [reflexivity | ]. split; [reflexivity | ].
  eexists. split; [vm_compute; reflexivity | ].
  split; [reflexivity | ]. split; [reflexivity | ].
  simpl. intros H. vm_compute in H. discriminate.
Qed.

(** ** C1: the split of a monthly total *)

Lemma max_0_no_negativo (x : Q) : (0 <= max_ 0 x)%Q.
Proof.
  unfold max_. destruct (Qle_bool x 0) eqn:E; [apply Qle_refl | ].
  destruct (Qlt_le_dec 0 x) as [H | H]; [apply Qlt_le_weak; exact H | ].
  apply Qle_bool_iff in H. congruence.
Qed.

Lemma max_0_de_no_negativo (x : Q) : (0 <= x)%Q -> (max_ 0 x == x)%Q.
Proof.
  intros H. unfold max_. destruct (Qle_bool x 0) eqn:E; [ | reflexivity].
  apply Qle_bool_iff in E. apply Qle_antisym; assumption.
Qed.

(** A sum that is exact is within the tolerance. *)
Lemma dentro_de_tolerancia (a b total : Q) :
  (a + b == total)%Q -> (0 <= a)%Q -> (0 <= b)%Q ->
  suma_total_y_no_negativos total (Num a, Num b).
Proof.
  intros Hab Ha Hb. exists a, b. split; [reflexivity | ].
  split; [ | split; assumption].
  assert (E : (a + b - total == 0)%Q) by (rewrite Hab; ring).
  rewrite E. discriminate.
Qed.




(** ** C8 and C10: the distribution kind of grouped expenses *)

Section TipoDistribucion.

Variables (c : conn) (donde : gasto_mensual -> bool) (tipo : string).

Lemma actualizar_tipo_en_fila (g' : gasto_mensual) :
  In g' (gastos_mensuales (actualizar_tipo_distribucion c donde tipo)) ->
  exists g, In g (gastos_mensuales c)
            /\ g' = (if donde g then con_tipo_distribucion g tipo else g).
Proof.
  simpl. intros H. apply in_map_iff in H. destruct H as (g & <- & Hin).
  exists g. split; [exact Hin | reflexivity].
Qed.

Lemma actualizar_tipo_mismos_gastos :
  mismos_gastos c (actualizar_tipo_distribucion c donde tipo).
Proof.
  unfold mismos_gastos. simpl. rewrite map_map. apply map_ext.
  intros g. destruct (donde g); reflexivity.
Qed.

End TipoDistribucion.

Lemma actualizar_tipo_por_id (c : conn) (gasto_id : Z) (tipo : string) :
  tipo_de_gasto_es
    (actualizar_tipo_distribucion c (fun g => g_id g =? gasto_id) tipo)
    gasto_id tipo.
Proof.
  intros g' Hin Hid. apply actualizar_tipo_en_fila in Hin.
  destruct Hin as (g & _ & ->).
  destruct (g_id g =? gasto_id) eqn:E; [reflexivity | ].
  apply Z.eqb_neq in E. contradiction.
Qed.

Lemma insertar_gasto_en_grupo_gastos (c c1 : conn) (grupo_id gasto_id : Z) :
  insertar_gasto_en_grupo c grupo_id gasto_id = Some c1 ->
  gastos_mensuales c1 = gastos_mensuales c
  /\ es_miembro c1 grupo_id gasto_id.
Proof.
  unfold insertar_gasto_en_grupo.
  destruct (existsb _ _); [discriminate | ].
  intros [= <-]. split; [reflexivity | ].
  eexists. split; [apply in_or_app; right; left; reflexivity | ].
  split; reflexivity.
Qed.

(** After the loop of [crear_grupo_distribucion] the expenses are those of
    before, with kind 'agrupado' on the listed ids. *)
Lemma asociar_gastos_gastos (gastos_ids : list Z) :
  forall c c' grupo_id,
    asociar_gastos c grupo_id gastos_ids = Some c' ->
    gastos_mensuales c'
    = map (fun g => if existsb (fun id => g_id g =? id) gastos_ids
                    then con_tipo_distribucion g "agrupado" else g)
          (gastos_mensuales c).
Proof.
  induction gastos_ids as [| id resto IH]; intros c c' grupo_id; simpl.
  - intros [= <-]. symmetry. apply map_id.
  - destruct (insertar_gasto_en_grupo c grupo_id id) as [c1 | ] eqn:E;
      [ | discriminate].
    intros H. apply IH in H. rewrite H. simpl.
    destruct (insertar_gasto_en_grupo_gastos _ _ _ _ E) as [-> _].
    rewrite map_map. apply map_ext. intros g.
    destruct (g_id g =? id) eqn:Eid; simpl.
    + destruct (existsb _ resto); reflexivity.
    + reflexivity.
Qed.

Lemma insertar_gasto_en_grupo_None (c : conn) (grupo_id gasto_id : Z) :
  insertar_gasto_en_grupo c grupo_id gasto_id = None
  <-> es_miembro c grupo_id gasto_id.
Proof.
  unfold insertar_gasto_en_grupo, es_miembro.
  destruct (existsb _ (gastos_en_grupo c)) eqn:E.
  - split; [intros _ | reflexivity].
    apply existsb_exists in E. destruct E as (ge & Hin & H).
    apply andb_true_iff in H. rewrite !Z.eqb_eq in H.
    exists ge. tauto.
  - split; [discriminate | ]. intros (ge & Hin & Hg & He). exfalso.
    assert (Ht : existsb (fun ge => (ge_grupo_id ge =? grupo_id)
                                    && (ge_gasto_id ge =? gasto_id))
                         (gastos_en_grupo c) = true).
    { apply existsb_exists. exists ge. split; [exact Hin | ].
      rewrite <- Hg, <- He, !Z.eqb_refl. reflexivity. }
    congruence.
Qed.

Lemma insertar_gasto_en_grupo_miembros (c c1 : conn)
    (grupo_id gasto_id : Z) :
  insertar_gasto_en_grupo c grupo_id gasto_id = Some c1 ->
  grupos_distribucion c1 = grupos_distribucion c
  /\ forall g id, es_miembro c1 g id
                  <-> es_miembro c g id \/ (g = grupo_id /\ id = gasto_id).
Proof.
  unfold insertar_gasto_en_grupo.
  destruct (existsb _ (gastos_en_grupo c)); [discriminate | ].
  intros [= <-]. split; [reflexivity | ].
  intros g id. unfold es_miembro. cbn [gastos_en_grupo]. split.
  - intros (ge & Hin & Hg & He). apply in_app_or in Hin.
    destruct Hin as [Hin | [<- | []]].
    + left. exists ge. tauto.
    + right. cbn in Hg, He. split; congruence.
  - intros [(ge & Hin & H) | [-> ->]].
    + exists ge. split; [apply in_or_app; left; exact Hin | exact H].
    + eexists. split; [apply in_or_app; right; left; reflexivity | ].
      split; reflexivity.
Qed.

Lemma asociar_gastos_miembros (gastos_ids : list Z) :
  forall c c' grupo_id,
    asociar_gastos c grupo_id gastos_ids = Some c' ->
    grupos_distribucion c' = grupos_distribucion c
    /\ forall g id, es_miembro c' g id
                    <-> es_miembro c g id
                        \/ (g = grupo_id /\ In id gastos_ids).
Proof.
  induction gastos_ids as [| id0 resto IH]; intros c c' grupo_id; simpl.
  - intros [= <-]. split; [reflexivity | ]. intros g id. tauto.
  - destruct (insertar_gasto_en_grupo c grupo_id id0) as [c1 | ] eqn:E;
      [ | discriminate].
    destruct (insertar_gasto_en_grupo_miembros _ _ _ _ E) as [Hgr Hm].
    intros H. apply IH in H. destruct H as [Hgr' Hm'].
    split; [rewrite Hgr'; exact Hgr | ].
    intros g id. rewrite Hm'. unfold es_miembro at 1.
    cbn [gastos_en_grupo actualizar_tipo_distribucion con_gastos_mensuales].
    fold (es_miembro c1 g id). rewrite Hm. intuition (subst; auto).
Qed.

Lemma asociar_gastos_None (gastos_ids : list Z) :
  forall c grupo_id,
    asociar_gastos c grupo_id gastos_ids = None
    <-> (exists id, In id gastos_ids /\ es_miembro c grupo_id id)
        \/ ~ NoDup gastos_ids.
Proof.
  induction gastos_ids as [| id0 resto IH]; intros c grupo_id; simpl.
  - split; [discriminate | ].
    intros [(id & [] & _) | H]; exfalso; apply H; constructor.
  - destruct (insertar_gasto_en_grupo c grupo_id id0) as [c1 | ] eqn:E.
    + destruct (insertar_gasto_en_grupo_miembros _ _ _ _ E) as [_ Hm].
      assert (Hno : ~ es_miembro c grupo_id id0).
      { intros H. apply insertar_gasto_en_grupo_None in H. congruence. }
      rewrite IH. split.
      * intros [(id & Hin & Hmi) | Hnd].
        -- unfold es_miembro in Hmi at 1.
           cbn [gastos_en_grupo actualizar_tipo_distribucion
                con_gastos_mensuales] in Hmi.
           fold (es_miembro c1 grupo_id id) in Hmi.
           apply Hm in Hmi. destruct Hmi as [Hmi | [_ ->]].
           ++ left. exists id. split; [right; exact Hin | exact Hmi].
           ++ right. intros Hnd. inversion Hnd. contradiction.
        -- right. intros Hnd'. inversion Hnd'. contradiction.
      * intros [(id & [<- | Hin] & Hmi) | Hnd].
        -- contradiction.
        -- left. exists id. split; [exact Hin | ].
           unfold es_miembro at 1.
           cbn [gastos_en_grupo actualizar_tipo_distribucion
                con_gastos_mensuales].
           fold (es_miembro c1 grupo_id id). apply Hm. left. exact Hmi.
        -- destruct (in_dec Z.eq_dec id0 resto) as [Hin | Hnin].
           ++ left. exists id0. split; [exact Hin | ].
              unfold es_miembro at 1.
              cbn [gastos_en_grupo actualizar_tipo_distribucion
                   con_gastos_mensuales].
              fold (es_miembro c1 grupo_id id0). apply Hm. right. tauto.
           ++ right. intros Hnd'. apply Hnd. constructor; assumption.
    + split; [intros _ | reflexivity].
      apply insertar_gasto_en_grupo_None in E.
      left. exists id0. split; [left; reflexivity | exact E].
Qed.

(** C8: when an expense is added to a group, by [agregar_gasto_a_grupo] or in
    the list of [crear_grupo_distribucion], its distribution kind becomes
    'agrupado'; when it is removed by [remover_gasto_de_grupo], or its group
    is deleted by [eliminar_grupo_distribucion], its kind becomes '50/50'.
    For ids that SQLite can bind (64-bit integers), the add succeeds on
    every expense that is not yet a member of the group, and the creation
    succeeds on every list without repetition when no membership row
    carries the id of the new group. The operations leave every other
    column of the expenses as it was. *)
Theorem C8_tipo_distribucion_de_grupo (c : conn) (grupo_id gasto_id : Z) :
  (* added later *)
  (cabe_en_sqlite grupo_id = true -> cabe_en_sqlite gasto_id = true ->
   ~ es_miembro c grupo_id gasto_id ->
   exists c', agregar_gasto_a_grupo c grupo_id gasto_id = (c', true))
  /\ (forall c', agregar_gasto_a_grupo c grupo_id gasto_id = (c', true) ->
        es_miembro c' grupo_id gasto_id
        /\ tipo_de_gasto_es c' gasto_id "agrupado"
        /\ mismos_gastos c c')
  (* added at the creation of the group *)
  /\ (forall nombre descripcion quien_paga_fijo monto_fijo gastos_ids,
        (forall id, In id gastos_ids -> cabe_en_sqlite id = true) ->
        NoDup gastos_ids ->
        (forall id,
           ~ es_miembro c (nuevo_id (sec_grupos_distribucion c)
                                    (map gd_id (grupos_distribucion c))) id) ->
        exists c' id,
          crear_grupo_distribucion c nombre descripcion quien_paga_fijo
                                   monto_fijo gastos_ids = (c', Some id))
  /\ (forall nombre descripcion quien_paga_fijo monto_fijo gastos_ids c' id,
        crear_grupo_distribucion c nombre descripcion quien_paga_fijo
                                 monto_fijo gastos_ids = (c', Some id) ->
        In gasto_id gastos_ids ->
        es_miembro c' id gasto_id
        /\ tipo_de_gasto_es c' gasto_id "agrupado"
        /\ mismos_gastos c c')
  (* removed *)
  /\ (forall c' b, remover_gasto_de_grupo c grupo_id gasto_id = (c', b) ->
        ~ es_miembro c' grupo_id gasto_id
        /\ tipo_de_gasto_es c' gasto_id "50/50"
        /\ mismos_gastos c c')
  (* group deleted *)
  /\ (forall c' b, eliminar_grupo_distribucion c grupo_id = (c', b) ->
        es_miembro c grupo_id gasto_id ->
        tipo_de_gasto_es c' gasto_id "50/50" /\ mismos_gastos c c').
Proof.
  split; [ | split; [ | split; [ | split; [ | split]]]].
  - intros _ _ Hno. unfold agregar_gasto_a_grupo.
    destruct (insertar_gasto_en_grupo c grupo_id gasto_id) as [c1 | ] eqn:E.
    + eexists. reflexivity.
    + apply insertar_gasto_en_grupo_None in E. contradiction.
  - intros c'. unfold agregar_gasto_a_grupo.
    destruct (insertar_gasto_en_grupo c grupo_id gasto_id) as [c1 | ] eqn:E;
      [ | discriminate].
    intros [= <-].
    destruct (insertar_gasto_en_grupo_gastos _ _ _ _ E) as [Hg Hm].
    split; [exact Hm | ]. split; [apply actualizar_tipo_por_id | ].
    unfold mismos_gastos. rewrite <- Hg. apply actualizar_tipo_mismos_gastos.
  - intros nombre descripcion quien_paga_fijo monto_fijo gastos_ids _ Hnd
           Hfresco.
    unfold crear_grupo_distribucion.
    match goal with
    | |- context [asociar_gastos ?c1 ?gid gastos_ids] =>
        destruct (asociar_gastos c1 gid gastos_ids) as [c2 | ] eqn:E
    end.
    + eexists. eexists. reflexivity.
    + exfalso. apply asociar_gastos_None in E.
      destruct E as [(id & _ & H) | H]; [ | contradiction].
      exact (Hfresco id H).
  - intros nombre descripcion quien_paga_fijo monto_fijo gastos_ids c' id.
    unfold crear_grupo_distribucion.
    match goal with
    | |- context [asociar_gastos ?c1 ?gid gastos_ids] =>
        destruct (asociar_gastos c1 gid gastos_ids) as [c2 | ] eqn:E
    end; [ | discriminate].
    intros [= <- <-] Hin.
    destruct (asociar_gastos_miembros _ _ _ _ E) as [_ Hm].
    apply asociar_gastos_gastos in E. simpl in E.
    split; [apply Hm; right; split; [reflexivity | exact Hin] | ].
    split.
    + intros g' Hg' Hid. rewrite E in Hg'. apply in_map_iff in Hg'.
      destruct Hg' as (g & <- & _).
      destruct (existsb (fun id0 => g_id g =? id0) gastos_ids) eqn:Ex;
        [reflexivity | ].
      exfalso. simpl in Hid.
      assert (Ht : existsb (fun id0 => g_id g =? id0) gastos_ids = true).
      { apply existsb_exists. exists gasto_id.
        split; [exact Hin | apply Z.eqb_eq; exact Hid]. }
      congruence.
    + unfold mismos_gastos. rewrite E, map_map. apply map_ext.
      intros g. destruct (existsb _ gastos_ids); reflexivity.
  - intros c' b. unfold remover_gasto_de_grupo. intros [= <- _].
    split; [ | split].
    + intros (ge & Hin & Hg & He). simpl in Hin.
      apply filter_In in Hin. destruct Hin as [_ Hf].
      rewrite <- Hg, <- He, !Z.eqb_refl in Hf. discriminate.
    + apply actualizar_tipo_por_id.
    + apply (actualizar_tipo_mismos_gastos
               {| gastos_mensuales := gastos_mensuales c;
                  montos_mensuales := montos_mensuales c;
                  pagos := pagos c;
                  grupos_distribucion := grupos_distribucion c;
                  gastos_en_grupo :=
                    filter (fun ge => negb ((ge_grupo_id ge =? grupo_id)
                                            && (ge_gasto_id ge =? gasto_id)))
                           (gastos_en_grupo c);
                  sec_gastos_mensuales := sec_gastos_mensuales c;
                  sec_pagos := sec_pagos c;
                  sec_grupos_distribucion := sec_grupos_distribucion c;
                  sec_gastos_en_grupo := sec_gastos_en_grupo c |}).
  - intros c' b. unfold eliminar_grupo_distribucion. intros [= <- _].
    intros (ge & Hin & Hg & He). split.
    + intros g' Hg' Hid. simpl in Hg'. apply in_map_iff in Hg'.
      destruct Hg' as (g & <- & _).
      match goal with
      | |- context [if ?cond then _ else _] => destruct cond eqn:Ex
      end; [reflexivity | ].
      exfalso.
      match type of Ex with
      | ?cond = false => assert (Ht : cond = true)
      end; [ | congruence].
      apply existsb_exists. exists gasto_id. split.
      * apply in_map_iff. exists ge. split; [exact He | ].
        apply filter_In. split; [exact Hin | apply Z.eqb_eq; exact Hg].
      * apply Z.eqb_eq. exact Hid.
    + apply (actualizar_tipo_mismos_gastos c).
Qed.

(** On the two expenses of [conn_40_60] the creation of a group with the
    list [1; 2] succeeds, gives the group the id 1 and both expenses the
    kind 'agrupado'; on [conn_dos_gastos] the add of expense 2 to group 1
    succeeds and gives it the kind 'agrupado'. *)
Lemma C8_tipo_distribucion_de_grupo_witness :
  (exists c',
     crear_grupo_distribucion conn_40_60 "Servicios" None "Ricardo" 70 [1; 2]
     = (c', Some 1)
     /\ es_miembro c' 1 2
     /\ tipo_de_gasto_es c' 2 "agrupado")
  /\ (exists c',
        agregar_gasto_a_grupo conn_dos_gastos 1 2 = (c', true)
        /\ tipo_de_gasto_es c' 2 "agrupado").
Proof.
  split.
  - destruct (C8_tipo_distribucion_de_grupo conn_40_60 1 2)
      as (_ & _ & Hcrear & Hagrupado & _).
    destruct (Hcrear "Servicios" None "Ricardo" 70%Q [1; 2])
      as (c' & id & E).
    + intros id [<- | [<- | []]]; reflexivity.
    + repeat constructor; simpl; intuition discriminate.
    + intros id (ge & [] & _).
    + assert (Hid : id = 1).
      { pose proof (f_equal snd E) as H. cbn in H. injection H as <-.
        reflexivity. }
      subst id. exists c'. split; [exact E | ].
      destruct (Hagrupado _ _ _ _ _ _ _ E) as (Hm & Ht & _);
        [right; left; reflexivity | ].
      split; assumption.
  - destruct (C8_tipo_distribucion_de_grupo conn_dos_gastos 1 2)
      as (Hagregar & Hagrupado & _).
    destruct Hagregar as (c' & E).
    + reflexivity.
    + reflexivity.
    + intros (ge & [] & _).
    + exists c'. split; [exact E | ].
      destruct (Hagrupado c' E) as (_ & Ht & _). exact Ht.
Defined.

(** [cursor.rowcount > 0], or [COUNT( * ) > 0]: some row satisfies the WHERE
    clause. *)
Lemma hay_filas_iff {A : Type} (f : A -> bool) (l : list A) :
  (0 <? Z.of_nat (List.length (filter f l))) = true
  <-> exists x, In x l /\ f x = true.
Proof.
  rewrite Z.ltb_lt. split.
  - destruct (filter f l) as [| x l'] eqn:E; simpl; [lia | ].
    intros _. exists x. apply filter_In. rewrite E. left. reflexivity.
  - intros (x & Hin & Hf).
    assert (H : In x (filter f l)) by (apply filter_In; split; assumption).
    destruct (filter f l); [destruct H | simpl; lia].
Qed.



(** ** [ORDER BY] *)

Section OrdenarProps.

Context {A : Type} (le : A -> A -> bool).

Lemma insertar_perm (x : A) (l : list A) :
  Permutation (insertar le x l) (x :: l).
Proof.
  induction l as [| y l IH]; simpl; [apply Permutation_refl | ].
  destruct (le x y); [apply Permutation_refl | ].
  eapply perm_trans; [apply perm_skip; exact IH | apply perm_swap].
Qed.

Lemma ordenar_perm (l : list A) : Permutation (ordenar le l) l.
Proof.
  induction l as [| x l IH]; simpl; [apply perm_nil | ].
  eapply perm_trans; [apply insertar_perm | apply perm_skip; exact IH].
Qed.

Lemma ordenar_In (x : A) (l : list A) : In x (ordenar le l) <-> In x l.
Proof.
  split; apply Permutation_in;
    [ | apply Permutation_sym]; apply ordenar_perm.
Qed.

Hypothesis le_total : forall x y, le x y = false -> le y x = true.

Lemma insertar_sorted (x : A) (l : list A) :
  Sorted (fun a b => le a b = true) l ->
  Sorted (fun a b => le a b = true) (insertar le x l).
Proof.
  induction l as [| y l IH]; intros Hs; simpl.
  - repeat constructor.
  - destruct (le x y) eqn:E.
    + constructor; [exact Hs | constructor; exact E].
    + inversion Hs as [| ? ? Hs' Hhd]; subst.
      constructor; [apply IH; exact Hs' | ].
      destruct l as [| z l]; simpl.
      * constructor. apply le_total. exact E.
      * destruct (le x z); constructor.
        -- apply le_total. exact E.
        -- inversion Hhd; subst. assumption.
Qed.

Lemma ordenar_sorted (l : list A) :
  Sorted (fun a b => le a b = true) (ordenar le l).
Proof.
  induction l as [| x l IH]; simpl; [constructor | ].
  apply insertar_sorted. exact IH.
Qed.

End OrdenarProps.

(** ** C2: the net balance *)

Lemma valor_o_SUM (l : list Q) : (valor_o (SUM l) 0 == suma l)%Q.
Proof.
  destruct l as [| x l]; [reflexivity | ].
  unfold SUM, valor_o.
  destruct (Qeq_bool (suma (x :: l)) 0) eqn:E; [ | reflexivity].
  apply Qeq_bool_iff in E. symmetry. exact E.
Qed.

(** The balance, as [calcular_saldo_neto] computes it: each person owes
    half of the sum of the configured amounts, the amount paid by a person
    is the sum of that person's payment records of the month, and the
    pending amount is owed minus paid. *)
Lemma saldo_neto_formula (c : conn) (mes anio : Z) :
  let s := calcular_saldo_neto c mes anio in
  (total_debe_cada_uno s
   == suma (map c_monto_total (obtener_montos_configurados c mes anio)) / 2)%Q
  /\ (pagado_ricardo s
      == suma (map p_monto_pagado
                   (filter (fun p => (p_mes p =? mes) && (p_anio p =? anio)
                                     && (p_quien_pago p =? "Ricardo")%string)
                           (pagos c))))%Q
  /\ (pagado_wendy s
      == suma (map p_monto_pagado
                   (filter (fun p => (p_mes p =? mes) && (p_anio p =? anio)
                                     && (p_quien_pago p =? "Wendy")%string)
                           (pagos c))))%Q
  /\ saldo_ricardo s = (total_debe_cada_uno s - pagado_ricardo s)%Q
  /\ saldo_wendy s = (total_debe_cada_uno s - pagado_wendy s)%Q.
Proof.
  intros s. split; [ | split; [ | split; [ | split]]]; try reflexivity.
  - unfold s, calcular_saldo_neto. cbn [total_debe_cada_uno].
    destruct (obtener_montos_configurados c mes anio); reflexivity.
  - apply valor_o_SUM.
  - apply valor_o_SUM.
Qed.

(** C2 fails: the balance does not take what each person owes from the rows
    of the statement. For the weekly expense of 10.00 of [conn_semanal] the
    statement of January 2024, a month of five weeks, has one row of 50.00
    of which each person owes 25.00, and the balance makes each owe 5.00,
    half of the amount of one week. Once Ricardo has paid his five weeks,
    5.00 each, the row marks him paid and the balance reports -20.00
    pending. For the expense of 100.00 of [conn_fijo_ricardo], of which
    Ricardo pays 70.00 fixed, the row makes Ricardo owe 70.00 and Wendy
    30.00, the balance 50.00 each. *)
Theorem C2_saldo_ignora_frecuencia_y_distribucion :
  (exists f r w,
     calcular_tabla_mensual conn_semanal 1 2024 = Ok [f]
     /\ (f_Monto_Total f == 50)%Q
     /\ f_Debe_Ricardo f = Num r /\ (r == 25)%Q
     /\ f_Debe_Wendy f = Num w /\ (w == 25)%Q
     /\ (total_debe_cada_uno (calcular_saldo_neto conn_semanal 1 2024)
         == 5)%Q
     /\ ~ (total_debe_cada_uno (calcular_saldo_neto conn_semanal 1 2024)
           == r)%Q)
  /\ (exists f,
        calcular_tabla_mensual conn_semanal_pagada 1 2024 = Ok [f]
        /\ f_Ricardo_Pago f = marca true
        /\ (pagado_ricardo (calcular_saldo_neto conn_semanal_pagada 1 2024)
            == 25)%Q
        /\ (saldo_ricardo (calcular_saldo_neto conn_semanal_pagada 1 2024)
            == - (20))%Q)
  /\ (exists f,
        calcular_tabla_mensual conn_fijo_ricardo 3 2025 = Ok [f]
        /\ f_Debe_Ricardo f = Num 70
        /\ f_Debe_Wendy f = Num (100 - 70)
        /\ (total_debe_cada_uno (calcular_saldo_neto conn_fijo_ricardo 3 2025)
            == 50)%Q).
Proof.
  split; [ | split].
  - eexists. eexists. eexists.
    split; [vm_compute; reflexivity | ].
    split; [reflexivity | ]. split; [reflexivity | ].
    split; [reflexivity | ]. split; [reflexivity | ].
    split; [reflexivity | ]. split; [reflexivity | ].
    intros H. vm_compute in H. discriminate.
  - eexists. split; [vm_compute; reflexivity | ].
    split; [reflexivity | ]. split; reflexivity.
  - eexists. split; [vm_compute; reflexivity | ].
    split; [reflexivity | ]. split; reflexivity.
Qed.

(** ** C5: the paid weeks *)

Lemma marca_verdadera (b : bool) : marca b = marca true <-> b = true.
Proof. destruct b; split; try reflexivity; discriminate. Qed.

Lemma semanas_1_a_In (n s : Z) : In s (semanas_1_a n) <-> 1 <= s <= n.
Proof.
  unfold semanas_1_a. rewrite in_map_iff. split.
  - intros (k & <- & Hk). apply in_seq in Hk. lia.
  - intros H. exists (Z.to_nat s). split; [lia | apply in_seq; lia].
Qed.

Lemma semanas_1_a_NoDup (n : Z) : NoDup (semanas_1_a n).
Proof.
  unfold semanas_1_a. apply Finite.Injective_map_NoDup; [ | apply seq_NoDup].
  intros x y H. lia.
Qed.

Lemma semanas_1_a_length (n : Z) :
  0 <= n -> Z.of_nat (List.length (semanas_1_a n)) = n.
Proof.
  intros H. unfold semanas_1_a. rewrite length_map, length_seq. lia.
Qed.

(** Distinct week numbers within 1..n are as many as the weeks of the month
    exactly when every week is among them. *)
Lemma semanas_distintas_completas (n : Z) (semanas : list Z) :
  0 <= n -> NoDup semanas -> (forall s, In s semanas -> 1 <= s <= n) ->
  (Z.of_nat (List.length semanas) = n
   <-> forall s, 1 <= s <= n -> In s semanas).
Proof.
  intros Hn Hnd Hrango.
  assert (Hincl : incl semanas (semanas_1_a n))
    by (intros s Hs; apply semanas_1_a_In, Hrango, Hs).
  pose proof (semanas_1_a_length n Hn) as Hlen.
  split.
  - intros Hl s Hs.
    apply (@NoDup_length_incl Z semanas (semanas_1_a n) Hnd);
      [lia | exact Hincl | ].
    apply semanas_1_a_In. exact Hs.
  - intros Htodas.
    assert (Hincl' : incl (semanas_1_a n) semanas)
      by (intros s Hs; apply Htodas, semanas_1_a_In, Hs).
    pose proof (NoDup_incl_length Hnd Hincl).
    pose proof (NoDup_incl_length (semanas_1_a_NoDup n) Hincl').
    lia.
Qed.

Lemma semanas_registradas_In (c : conn) (gasto_id mes anio : Z)
    (quien : string) (s : Z) :
  In s (semanas_registradas c gasto_id mes anio quien)
  <-> exists p, In p (pagos c)
                /\ es_pago_de gasto_id mes anio quien p = true
                /\ p_semana p = Some s.
Proof.
  unfold semanas_registradas. rewrite in_flat_map. split.
  - intros (p & Hp & Hs). apply filter_In in Hp.
    exists p. destruct (p_semana p) as [s' | ]; [ | destruct Hs].
    destruct Hs as [-> | []]. tauto.
  - intros (p & Hp & He & Hs). exists p.
    split; [apply filter_In; tauto | rewrite Hs; left; reflexivity].
Qed.

(** C5 fails when a week has two payment records. With records of Ricardo
    for the weeks 1, 1, 2, 3, 4 of January 2024, a month of five weeks,
    [obtener_semanas_pagadas] returns week 1 twice, and the statement marks
    the weekly expense fully paid by Ricardo, with 5/5 weeks in its label,
    although week 5 has no payment. *)
Theorem C5_semana_repetida :
  obtener_semanas_pagadas (pagar_semanas conn_semanal [1; 1; 2; 3; 4])
                          1 1 2024 "Ricardo"
  = [1; 1; 2; 3; 4]
  /\ ~ NoDup (obtener_semanas_pagadas
                (pagar_semanas conn_semanal [1; 1; 2; 3; 4])
                1 1 2024 "Ricardo")
  /\ calcular_semanas_del_mes 1 2024 = Ok 5
  /\ (exists f,
        calcular_tabla_mensual (pagar_semanas conn_semanal [1; 1; 2; 3; 4])
                               1 2024 = Ok [f]
        /\ fila_de_gasto (pagar_semanas conn_semanal [1; 1; 2; 3; 4]) 1 2024
                         gasto_semanal = Ok f
        /\ f_Concepto f = "Mercado (5/5 sem)"
        /\ f_Ricardo_Pago f = marca true)
  /\ ~ In 5 (obtener_semanas_pagadas
               (pagar_semanas conn_semanal [1; 1; 2; 3; 4])
               1 1 2024 "Ricardo")
  /\ verificar_pago_existente (pagar_semanas conn_semanal [1; 1; 2; 3; 4])
                              1 1 2024 "Ricardo" (Some 5) = false.
Proof.
  split; [reflexivity | ]. split.
  - intros H. vm_compute in H. inversion H as [| ? ? Hno _]; subst.
    apply Hno. left. reflexivity.
  - split; [reflexivity | ]. split.
    + eexists. split; [vm_compute; reflexivity | ].
      split; [vm_compute; reflexivity | ].
      split; [vm_compute; reflexivity | reflexivity].
    + split; [ | reflexivity]. vm_compute. intuition discriminate.
Qed.

(** With one payment record per week the list has no repetition: it is
    sorted, it holds the week of every record, and when its entries are
    distinct and within 1..N a weekly expense is marked fully paid for a
    person iff every week of the month is in the list. *)
Lemma semanas_pagadas_sin_repetir (c : conn) (mes anio n : Z)
    (gasto : fila_config) :
  c_frecuencia gasto = "Semanal" ->
  calcular_semanas_del_mes mes anio = Ok n ->
  let pagadas := obtener_semanas_pagadas c (c_id gasto) mes anio in
  (forall quien,
     Sorted Z.le (pagadas quien)
     /\ Permutation (pagadas quien)
                    (semanas_registradas c (c_id gasto) mes anio quien)
     /\ (forall s, In s (pagadas quien)
                   <-> exists p, In p (pagos c)
                                 /\ es_pago_de (c_id gasto) mes anio quien p
                                    = true
                                 /\ p_semana p = Some s))
  /\ (exists f,
        fila_de_gasto c mes anio gasto = Ok f
        /\ (NoDup (pagadas "Ricardo") ->
            (forall s, In s (pagadas "Ricardo") -> 1 <= s <= n) ->
            (f_Ricardo_Pago f = marca true
             <-> forall s, 1 <= s <= n -> In s (pagadas "Ricardo")))
        /\ (NoDup (pagadas "Wendy") ->
            (forall s, In s (pagadas "Wendy") -> 1 <= s <= n) ->
            (f_Wendy_Pago f = marca true
             <-> forall s, 1 <= s <= n -> In s (pagadas "Wendy")))).
Proof.
  intros Hfrec Hsem pagadas.
  pose proof (semanas_del_mes_no_negativo _ _ _ Hsem) as Hn.
  split.
  - intros quien. unfold pagadas, obtener_semanas_pagadas.
    split; [ | split].
    + eapply Sorted_ind with (P := Sorted Z.le);
        [constructor | | apply (ordenar_sorted Z.leb)].
      * intros a l _ IH Hhd. constructor; [exact IH | ].
        destruct Hhd as [| b l' Hab]; constructor.
        apply Z.leb_le. exact Hab.
      * intros x y H. apply Z.leb_gt in H. apply Z.leb_le. lia.
    + apply ordenar_perm.
    + intros s. rewrite ordenar_In. apply semanas_registradas_In.
  - unfold fila_de_gasto.
    unfold calcular_monto_mensual_segun_frecuencia.
    rewrite Hfrec, Hsem. cbn [String.eqb Ascii.eqb Bool.eqb bind].
    destruct (calcular_distribucion_pago gasto
                (c_monto_total gasto * inject_Z n)) as [mr mw].
    eexists. split; [reflexivity | ]. cbn [f_Ricardo_Pago f_Wendy_Pago].
    fold (pagadas "Ricardo"). fold (pagadas "Wendy").
    assert (Hmarca : forall l : list Z,
               marca (Z.of_nat (List.length l) =? n) = marca true
               <-> Z.of_nat (List.length l) = n)
      by (intros l; rewrite marca_verdadera; apply Z.eqb_eq).
    split; intros Hnd Hrango; rewrite Hmarca;
      apply semanas_distintas_completas; assumption.
Qed.

(** Weeks 1 to 5 of January 2024 paid one by one: the paid weeks are
    1, 2, 3, 4, 5 and the expense is fully paid; with weeks 1 to 4 only it is
    not. *)
Lemma semanas_pagadas_ejemplo :
  calcular_semanas_del_mes 1 2024 = Ok 5
  /\ obtener_semanas_pagadas (pagar_semanas conn_semanal [1; 2; 3; 4; 5])
                             1 1 2024 "Ricardo"
     = [1; 2; 3; 4; 5]
  /\ (exists f,
        fila_de_gasto (pagar_semanas conn_semanal [1; 2; 3; 4; 5]) 1 2024
                      gasto_semanal = Ok f
        /\ f_Ricardo_Pago f = marca true)
  /\ obtener_semanas_pagadas (pagar_semanas conn_semanal [1; 2; 3; 4])
                             1 1 2024 "Ricardo"
     = [1; 2; 3; 4]
  /\ (exists f,
        fila_de_gasto (pagar_semanas conn_semanal [1; 2; 3; 4]) 1 2024
                      gasto_semanal = Ok f
        /\ f_Ricardo_Pago f <> marca true).
Proof.
  assert (Hdistintas : forall l : list Z,
             l = [1; 2; 3; 4; 5] \/ l = [1; 2; 3; 4] ->
             NoDup l /\ forall s, In s l -> 1 <= s <= 5).
  { intros l [-> | ->]; (split; [ | simpl; lia]);
      repeat constructor; simpl; lia. }
  split; [reflexivity | ]. split; [reflexivity | ]. split; [ | split].
  - destruct (semanas_pagadas_sin_repetir
                (pagar_semanas conn_semanal [1; 2; 3; 4; 5]) 1 2024 5
                gasto_semanal eq_refl eq_refl)
      as (_ & f & Hf & Hr & _).
    exists f. split; [exact Hf | ].
    destruct (Hdistintas [1; 2; 3; 4; 5] (or_introl eq_refl)) as [Hnd Hr5].
    apply (Hr Hnd Hr5). intros s Hs. simpl. lia.
  - reflexivity.
  - destruct (semanas_pagadas_sin_repetir
                (pagar_semanas conn_semanal [1; 2; 3; 4]) 1 2024 5
                gasto_semanal eq_refl eq_refl)
      as (_ & f & Hf & Hr & _).
    exists f. split; [exact Hf | ].
    destruct (Hdistintas [1; 2; 3; 4] (or_intror eq_refl)) as [Hnd Hr4].
    intros H.
    assert (H5 : 1 <= 5 <= 5) by lia.
    apply (proj1 (Hr Hnd Hr4) H 5) in H5.
    vm_compute in H5. intuition discriminate.
Qed.

(** ** C4: the row of a group *)

Lemma id_unico (l : list gasto_mensual) (g e : gasto_mensual) :
  NoDup (map g_id l) -> In g l -> In e l -> g_id g = g_id e -> g = e.
Proof.
  induction l as [| x l IH]; simpl; intros Hnd Hg He Hid; [destruct Hg | ].
  inversion Hnd as [| ? ? Hno Hnd']; subst.
  destruct Hg as [-> | Hg], He as [-> | He].
  - reflexivity.
  - exfalso. apply Hno. rewrite Hid. apply in_map. exact He.
  - exfalso. apply Hno. rewrite <- Hid. apply in_map. exact Hg.
  - apply IH; assumption.
Qed.

Lemma union_montos_filas (c : conn) (mes anio : Z) (g : gasto_mensual) :
  union_montos c mes anio g <> []
  /\ forall r, In r (union_montos c mes anio g) ->
               c_id r = g_id g /\ c_frecuencia r = g_frecuencia g.
Proof.
  unfold union_montos.
  destruct (filter _ (montos_mensuales c)) as [| m ms].
  - split; [discriminate | ]. intros r [<- | []]. split; reflexivity.
  - split; [discriminate | ]. intros r Hr.
    apply in_map_iff in Hr. destruct Hr as (m' & <- & _).
    split; reflexivity.
Qed.

(** The rows of the frame are the rows of the cursor, with the cells of
    the nullable columns as the frame holds them. *)
Lemma montos_configurados_In (c : conn) (mes anio : Z) (r : fila_config) :
  In r (obtener_montos_configurados c mes anio)
  <-> exists g r0, In g (gastos_mensuales c) /\ g_activo g = 1
                   /\ In r0 (union_montos c mes anio g)
                   /\ r = fila_de_marco (filas_configuradas c mes anio) r0.
Proof.
  unfold obtener_montos_configurados, DataFrame. rewrite in_map_iff.
  unfold filas_configuradas at 2. split.
  - intros (r0 & <- & Hr0). apply ordenar_In, in_flat_map in Hr0.
    destruct Hr0 as (g & Hg & Hr). apply filter_In in Hg.
    destruct Hg as [Hg Ha]. exists g, r0. apply Z.eqb_eq in Ha. tauto.
  - intros (g & r0 & Hg & Ha & Hr & ->). exists r0.
    split; [reflexivity | ]. apply ordenar_In, in_flat_map. exists g.
    split; [apply filter_In; split; [exact Hg | apply Z.eqb_eq; exact Ha] | ].
    exact Hr.
Qed.

(** Every row of the frame is the row of an active expense, with its id,
    frequency and distribution kind. *)
Lemma montos_configurados_origen (c : conn) (mes anio : Z) (r : fila_config) :
  In r (obtener_montos_configurados c mes anio) ->
  exists g, In g (gastos_mensuales c) /\ g_activo g = 1
            /\ c_id r = g_id g /\ c_frecuencia r = g_frecuencia g
            /\ c_tipo_distribucion r = g_tipo_distribucion g.
Proof.
  intros H. apply montos_configurados_In in H.
  destruct H as (g & r0 & Hg & Ha & Hr & ->). exists g.
  split; [exact Hg | ]. split; [exact Ha | ].
  cbn [fila_de_marco c_id c_frecuencia c_tipo_distribucion].
  unfold union_montos in Hr.
  destruct (filter _ (montos_mensuales c)) as [| m ms].
  - destruct Hr as [<- | []]. repeat split.
  - apply in_map_iff in Hr. destruct Hr as (m' & <- & _). repeat split.
Qed.

(** Every active expense has a row in the frame. *)
Lemma montos_configurados_fila (c : conn) (mes anio : Z) (g : gasto_mensual) :
  In g (gastos_mensuales c) -> g_activo g = 1 ->
  exists r, In r (obtener_montos_configurados c mes anio)
            /\ c_id r = g_id g /\ c_frecuencia r = g_frecuencia g
            /\ c_tipo_distribucion r = g_tipo_distribucion g.
Proof.
  intros Hg Ha.
  destruct (union_montos_filas c mes anio g) as [Hne Hfilas].
  destruct (union_montos c mes anio g) as [| r0 l0] eqn:Eu;
    [destruct (Hne eq_refl) | ].
  assert (Hr0 : In r0 (union_montos c mes anio g))
    by (rewrite Eu; left; reflexivity).
  assert (Hin : In (fila_de_marco (filas_configuradas c mes anio) r0)
                   (obtener_montos_configurados c mes anio)).
  { apply montos_configurados_In. exists g, r0. tauto. }
  exists (fila_de_marco (filas_configuradas c mes anio) r0).
  split; [exact Hin | ].
  cbn [fila_de_marco c_id c_frecuencia c_tipo_distribucion].
  destruct (Hfilas r0 (or_introl eq_refl)) as [H1 H2].
  split; [exact H1 | ]. split; [exact H2 | ].
  unfold union_montos in Eu.
  destruct (filter _ (montos_mensuales c)) as [| m ms].
  - injection Eu as <- _. reflexivity.
  - cbn [map] in Eu. injection Eu as <- _. reflexivity.
Qed.

Lemma miembros_de_grupo_In (c : conn) (grupo_id : Z) (e : gasto_mensual) :
  In e (miembros_de_grupo c grupo_id) ->
  In e (gastos_mensuales c) /\ g_activo e = 1.
Proof.
  unfold miembros_de_grupo. rewrite in_flat_map.
  intros (g & Hg & He). apply filter_In in Hg. destruct Hg as [Hg Ha].
  apply in_map_iff in He. destruct He as (_ & <- & _).
  apply Z.eqb_eq in Ha. tauto.
Qed.

(** The lookup [gastos_df[gastos_df['id'] == gasto_id]] of an active expense
    finds a row, and the first row carries the frequency of the expense. *)
Lemma gasto_info_de_activo (c : conn) (mes anio : Z) (e : gasto_mensual) :
  NoDup (map g_id (gastos_mensuales c)) ->
  In e (gastos_mensuales c) -> g_activo e = 1 ->
  exists r resto,
    filter (fun r => c_id r =? g_id e) (obtener_montos_configurados c mes anio)
    = r :: resto
    /\ c_frecuencia r = g_frecuencia e.
Proof.
  intros Hnd He Ha.
  destruct (filter (fun r => c_id r =? g_id e)
                   (obtener_montos_configurados c mes anio))
    as [| r resto] eqn:E.
  - exfalso.
    destruct (montos_configurados_fila c mes anio e He Ha)
      as (r0 & Hin & Hid & _).
    assert (H : In r0 (filter (fun r => c_id r =? g_id e)
                              (obtener_montos_configurados c mes anio)))
      by (apply filter_In; split; [exact Hin | apply Z.eqb_eq; exact Hid]).
    rewrite E in H. destruct H.
  - exists r, resto. split; [reflexivity | ].
    assert (Hin : In r (filter (fun r => c_id r =? g_id e)
                               (obtener_montos_configurados c mes anio)))
      by (rewrite E; left; reflexivity).
    apply filter_In in Hin. destruct Hin as [Hin Hid].
    apply Z.eqb_eq in Hid.
    destruct (montos_configurados_origen c mes anio r Hin)
      as (g & Hg & _ & Hid' & Hfrec & _).
    assert (g = e) by (apply (id_unico (gastos_mensuales c));
                       [assumption .. | congruence]).
    subst g. exact Hfrec.
Qed.

(** The loop over the members adds up their amounts of the month. *)
Lemma iterar_sumar_gastos (c : conn) (mes anio : Z) (es : list gasto_mensual)
    (montos : list Q) :
  NoDup (map g_id (gastos_mensuales c)) ->
  (forall e, In e es -> In e (gastos_mensuales c) /\ g_activo e = 1) ->
  Forall2 (fun e m => monto_de_miembro c mes anio e = Ok m) es montos ->
  forall total conceptos procesados,
  exists conceptos' procesados',
    iterar (sumar_gasto_de_grupo c (obtener_montos_configurados c mes anio)
                                 mes anio)
           (map (fun g => (g_id g, g_concepto g, g_monto_total g)) es)
           (total, conceptos, procesados)
    = Ok (fold_left Qplus montos total, conceptos', procesados').
Proof.
  intros Hnd Hes Hall. induction Hall as [| e m es montos Hm Hall IH];
    intros total conceptos procesados.
  - exists conceptos, procesados. reflexivity.
  - destruct (Hes e (or_introl eq_refl)) as [He Ha].
    destruct (gasto_info_de_activo c mes anio e Hnd He Ha)
      as (r & resto & Hinfo & Hfrec).
    destruct (IH (fun x Hx => Hes x (or_intror Hx)) (total + m)%Q
                 (conceptos ++ [g_concepto e])%list (g_id e :: procesados))
      as (cs & ps & Hit).
    exists cs, ps.
    cbn [map iterar]. unfold sumar_gasto_de_grupo at 1.
    unfold monto_de_miembro in Hm.
    rewrite Hinfo, Hfrec, Hm. cbn [bind]. exact Hit.
Qed.

(** On a calculable month every member has an amount of the month. *)
Lemma montos_de_miembros_definidos (c : conn) (mes anio : Z)
    (es : list gasto_mensual) :
  mes_calculable mes anio = true ->
  exists montos,
    Forall2 (fun e m => monto_de_miembro c mes anio e = Ok m) es montos.
Proof.
  intros Hmes. induction es as [| e es [montos IH]].
  - exists []. constructor.
  - destruct (monto_segun_frecuencia_definido
                (consultar_monto_del_mes c (g_id e) mes anio)
                (g_frecuencia e) mes anio Hmes) as [m Hm].
    exists (m :: montos). constructor; assumption.
Qed.

(** Rows are only appended by the two loops of the table. *)
Lemma iterar_procesar_gasto_incl (c : conn) (mes anio : Z)
    (procesados : list Z) (df : list fila_config) :
  forall resultados filas,
    iterar (procesar_gasto c mes anio procesados) df resultados = Ok filas ->
    incl resultados filas.
Proof.
  induction df as [| gasto df IH]; intros resultados filas; cbn [iterar].
  - intros [= <-]. apply incl_refl.
  - unfold procesar_gasto at 1.
    destruct (existsb _ procesados); [cbn [bind]; apply IH | ].
    destruct (c_tipo_distribucion gasto =? "agrupado")%string;
      [cbn [bind]; apply IH | ].
    destruct (fila_de_gasto c mes anio gasto) as [f | e]; cbn [bind];
      [ | discriminate].
    intros H. apply IH in H. intros x Hx. apply H.
    apply in_or_app. left. exact Hx.
Qed.

Lemma iterar_procesar_grupo_In (c : conn) (mes anio : Z)
    (df : list fila_config) (grupos : list grupo) :
  forall resultados procesados resultados' procesados',
    iterar (procesar_grupo c df mes anio) grupos (resultados, procesados)
    = Ok (resultados', procesados') ->
    incl resultados resultados'
    /\ forall g f ids, In g grupos ->
                       fila_de_grupo c df mes anio g = Ok (Some f, ids) ->
                       In f resultados'.
Proof.
  induction grupos as [| g0 grupos IH];
    intros resultados procesados resultados' procesados'; cbn [iterar].
  - intros [= <- <-]. split; [apply incl_refl | ]. intros g f ids [].
  - unfold procesar_grupo at 1.
    destruct (fila_de_grupo c df mes anio g0) as [[fila_grupo ids0] | e]
      eqn:E0; cbn [bind]; [ | discriminate].
    intros H. apply IH in H. destruct H as [Hincl Hin]. split.
    + intros x Hx. apply Hincl.
      destruct fila_grupo; [apply in_or_app; left | ]; exact Hx.
    + intros g f ids [<- | Hg] Hf.
      * rewrite E0 in Hf. injection Hf as -> _.
        apply Hincl. apply in_or_app. right. left. reflexivity.
      * exact (Hin g f ids Hg Hf).
Qed.

Lemma verificar_pago_existente_iff (c : conn) (gasto_id mes anio : Z)
    (quien : string) :
  verificar_pago_existente c gasto_id mes anio quien None = true
  <-> hay_pago c gasto_id mes anio quien.
Proof.
  unfold verificar_pago_existente, hay_pago. rewrite hay_filas_iff.
  unfold es_pago_de.
  split; intros (p & Hin & H); exists p; (split; [exact Hin | ]).
  - rewrite !andb_true_iff, !Z.eqb_eq, String.eqb_eq in H. tauto.
  - rewrite !andb_true_iff, !Z.eqb_eq, String.eqb_eq. tauto.
Qed.

Lemma todos_pagaron_iff (c : conn) (mes anio : Z) (quien : string)
    (es : list gasto_mensual) :
  forallb (fun '(id_g, _, _) =>
             verificar_pago_existente c id_g mes anio quien None)
          (map (fun g => (g_id g, g_concepto g, g_monto_total g)) es)
  = true
  <-> forall e, In e es -> hay_pago c (g_id e) mes anio quien.
Proof.
  rewrite forallb_forall. split.
  - intros H e He. apply verificar_pago_existente_iff.
    apply (H (g_id e, g_concepto e, g_monto_total e)).
    apply in_map_iff. exists e. split; [reflexivity | exact He].
  - intros H x Hx. apply in_map_iff in Hx. destruct Hx as (e & <- & He).
    apply verificar_pago_existente_iff. apply H. exact He.
Qed.

(** C4: on a store where expense ids are unique (the primary key), for an
    active group with member expenses (the active expenses linked to it)
    whose payer of the fixed amount is Ricardo or Wendy, and [montos] the
    frequency conversions of [obtener_monto_del_mes] of the members, the
    table has a row of the group whose total is the sum of [montos]; the
    payer owes the configured fixed amount and the other person
    max(0, total - fixed); and the paid mark of a person is set iff every
    member expense has a payment record of that person in (month, year).
    On a calculable month the amounts [montos] exist. *)
Theorem C4_fila_de_grupo (c : conn) (mes anio : Z) (gd : grupo_distribucion)
    (montos : list Q) :
  NoDup (map g_id (gastos_mensuales c)) ->
  In gd (grupos_distribucion c) ->
  gd_activo gd = 1 ->
  miembros_de_grupo c (gd_id gd) <> [] ->
  gd_quien_paga_fijo gd = "Ricardo" \/ gd_quien_paga_fijo gd = "Wendy" ->
  let miembros := miembros_de_grupo c (gd_id gd) in
  Forall2 (fun e m => monto_de_miembro c mes anio e = Ok m) miembros montos ->
  exists f ids,
    fila_de_grupo c (obtener_montos_configurados c mes anio) mes anio
                  (grupo_de_fila c gd) = Ok (Some f, ids)
    /\ (forall filas, calcular_tabla_mensual c mes anio = Ok filas ->
                      In f filas)
    /\ f_id f = IdGrupo (gd_id gd)
    /\ f_Monto_Total f = suma montos
    /\ (gd_quien_paga_fijo gd = "Ricardo" ->
        f_Debe_Ricardo f = valor_o (gd_monto_fijo_ricardo gd) 0
        /\ f_Debe_Wendy f
           = max_ 0 (suma montos - valor_o (gd_monto_fijo_ricardo gd) 0))
    /\ (gd_quien_paga_fijo gd = "Wendy" ->
        f_Debe_Wendy f = valor_o (gd_monto_fijo_wendy gd) 0
        /\ f_Debe_Ricardo f
           = max_ 0 (suma montos - valor_o (gd_monto_fijo_wendy gd) 0))
    /\ (f_Ricardo_Pago f = marca true
        <-> forall e, In e miembros -> hay_pago c (g_id e) mes anio "Ricardo")
    /\ (f_Wendy_Pago f = marca true
        <-> forall e, In e miembros -> hay_pago c (g_id e) mes anio "Wendy")
    /\ (mes_calculable mes anio = true ->
        exists montos',
          Forall2 (fun e m => monto_de_miembro c mes anio e = Ok m)
                  miembros montos').
Proof.
  intros Hnd Hgd Hact Hne Hquien miembros Hall.
  pose proof (miembros_de_grupo_In c (gd_id gd)) as Hmiembros.
  fold miembros in Hmiembros.
  assert (Em : miembros_de_grupo c (gd_id gd) = miembros) by reflexivity.
  clearbody miembros.
  destruct (iterar_sumar_gastos c mes anio miembros montos Hnd Hmiembros Hall
                                0%Q [] [])
    as (cs & ps & Hit).
  pose proof (todos_pagaron_iff c mes anio "Ricardo" miembros) as HpagoR.
  pose proof (todos_pagaron_iff c mes anio "Wendy" miembros) as HpagoW.
  (* the row *)
  assert (Hfila : exists f,
    fila_de_grupo c (obtener_montos_configurados c mes anio) mes anio
                  (grupo_de_fila c gd) = Ok (Some f, ps)
    /\ f_id f = IdGrupo (gd_id gd)
    /\ f_Monto_Total f = suma montos
    /\ (gd_quien_paga_fijo gd = "Ricardo" ->
        f_Debe_Ricardo f = valor_o (gd_monto_fijo_ricardo gd) 0
        /\ f_Debe_Wendy f
           = max_ 0 (suma montos - valor_o (gd_monto_fijo_ricardo gd) 0))
    /\ (gd_quien_paga_fijo gd = "Wendy" ->
        f_Debe_Wendy f = valor_o (gd_monto_fijo_wendy gd) 0
        /\ f_Debe_Ricardo f
           = max_ 0 (suma montos - valor_o (gd_monto_fijo_wendy gd) 0))
    /\ (f_Ricardo_Pago f = marca true
        <-> forall e, In e miembros -> hay_pago c (g_id e) mes anio "Ricardo")
    /\ (f_Wendy_Pago f = marca true
        <-> forall e, In e miembros -> hay_pago c (g_id e) mes anio "Wendy")).
  { unfold fila_de_grupo.
    cbn [gr_gastos gr_id gr_nombre gr_quien_paga_fijo gr_monto_fijo_ricardo
         gr_monto_fijo_wendy grupo_de_fila].
    rewrite Em.
    destruct miembros as [| e0 es]; [contradiction Hne; exact Em | ].
    cbn [map] in *. rewrite Hit. cbn [bind].
    fold (suma montos).
    destruct Hquien as [Hq | Hq]; rewrite Hq;
      cbn -[max_ valor_o suma marca forallb];
      (eexists; split; [reflexivity | ]);
      cbn -[max_ valor_o suma marca forallb];
      (split; [reflexivity | ]); (split; [reflexivity | ]);
      (split; [intros ?; try discriminate; split; reflexivity | ]);
      (split; [intros ?; try discriminate; split; reflexivity | ]);
      (split; (etransitivity; [apply marca_verdadera | ]));
      [exact HpagoR | exact HpagoW | exact HpagoR | exact HpagoW]. }
  destruct Hfila as (f & Hf & Hid & Htotal & HR & HW & HpR & HpW).
  exists f, ps.
  split; [exact Hf | ].
  split; [ | repeat (split; [assumption | ]);
             apply montos_de_miembros_definidos].
  (* the row is in the table *)
  intros filas. unfold calcular_tabla_mensual.
  destruct (obtener_montos_configurados c mes anio) as [| r0 df] eqn:Edf.
  - exfalso. destruct miembros as [| e0 es];
      [apply Hne; exact Em | ].
    destruct (Hmiembros e0 (or_introl eq_refl)) as [He Ha].
    destruct (gasto_info_de_activo c mes anio e0 Hnd He Ha)
      as (r & resto & Hinfo & _).
    rewrite Edf in Hinfo. discriminate.
  - destruct (iterar (procesar_grupo c (r0 :: df) mes anio)
                     (obtener_grupos_distribucion c) ([], []))
      as [[resultados procesados] | e] eqn:Egr; cbn [bind];
      [ | discriminate].
    intros Hind. apply iterar_procesar_gasto_incl in Hind. apply Hind.
    apply iterar_procesar_grupo_In in Egr. destruct Egr as [_ Hin].
    apply (Hin (grupo_de_fila c gd) f ps); [ | exact Hf].
    unfold obtener_grupos_distribucion. apply in_map.
    apply ordenar_In. apply filter_In.
    split; [exact Hgd | apply Z.eqb_eq; exact Hact].
Qed.

(** The group of 40.00 and 60.00 with Ricardo paying 70.00 fixed: the total
    is 100.00, Ricardo owes 70.00 and Wendy 30.00; with a payment of Ricardo
    for the first expense only, the group is not marked paid by Ricardo. *)
Lemma C4_fila_de_grupo_witness :
  exists f,
    calcular_tabla_mensual conn_grupo_pago_parcial 3 2025 = Ok [f]
    /\ (f_Monto_Total f == 100)%Q
    /\ f_Debe_Ricardo f = Num 70
    /\ (exists w : Q, f_Debe_Wendy f = Num w /\ (w == 30)%Q)
    /\ hay_pago conn_grupo_pago_parcial 1 3 2025 "Ricardo"
    /\ ~ hay_pago conn_grupo_pago_parcial 2 3 2025 "Ricardo"
    /\ f_Ricardo_Pago f <> marca true.
Proof.
  destruct (C4_fila_de_grupo conn_grupo_pago_parcial 3 2025 grupo_servicios
                             [40%Q; 60%Q])
    as (f & ids & Hf & Hin & _ & Htotal & HR & _ & HpR & _).
  - repeat constructor; simpl; intuition discriminate.
  - left. reflexivity.
  - reflexivity.
  - discriminate.
  - left. reflexivity.
  - repeat constructor.
  - exists f.
    assert (Hno : ~ hay_pago conn_grupo_pago_parcial 2 3 2025 "Ricardo").
    { intros (p & [<- | []] & H & _). discriminate. }
    destruct (HR eq_refl) as [HdR HdW].
    split; [ | split; [ | split; [ | split; [ | split; [ | split]]]]].
    + vm_compute in Hf. injection Hf as <- _. reflexivity.
    + rewrite Htotal. reflexivity.
    + exact HdR.
    + eexists. split; [exact HdW | reflexivity].
    + eexists. split; [left; reflexivity | repeat split].
    + exact Hno.
    + intros H.
      assert (Hm : exists e,
                 In e (miembros_de_grupo conn_grupo_pago_parcial
                                         (gd_id grupo_servicios))
                 /\ g_id e = 2)
        by (eexists; split; [right; left; reflexivity | reflexivity]).
      destruct Hm as (e & He & Hid).
      apply Hno. rewrite <- Hid. exact (proj1 HpR H e He).
Defined.

(** * Further properties of the operations *)

(** ** The payment ledger *)

Lemma hay_filas_app {A : Type} (f : A -> bool) (l : list A) (x : A) :
  (0 <? Z.of_nat (List.length (filter f (l ++ [x]))))
  = (0 <? Z.of_nat (List.length (filter f l))) || f x.
Proof.
  rewrite filter_app, length_app. simpl.
  destruct (f x); simpl.
  - rewrite orb_true_r. apply Z.ltb_lt. lia.
  - rewrite orb_false_r. f_equal. lia.
Qed.

Lemma es_pago_de_iff (gasto_id mes anio : Z) (quien : string) (p : pago) :
  es_pago_de gasto_id mes anio quien p = true
  <-> p_gasto_id p = gasto_id /\ p_mes p = mes /\ p_anio p = anio
      /\ p_quien_pago p = quien.
Proof.
  unfold es_pago_de.
  rewrite !andb_true_iff, !Z.eqb_eq, String.eqb_eq. tauto.
Qed.

(** X1: A payment is seen by [verificar_pago_existente] from the moment it is
    registered, under its own key, with no week filter and with its own
    week; payments seen before stay seen, and no other key or week is
    affected. *)
Theorem registrar_pago_verificar (c : conn) (gasto_id mes anio : Z)
    (quien : string) (monto : Q) (semana : option Z) :
  let c' := fst (registrar_pago c gasto_id mes anio quien monto semana) in
  verificar_pago_existente c' gasto_id mes anio quien None = true
  /\ (forall s, semana = Some s ->
        verificar_pago_existente c' gasto_id mes anio quien (Some s) = true)
  /\ (forall g m a q w,
        verificar_pago_existente c g m a q w = true ->
        verificar_pago_existente c' g m a q w = true)
  /\ (forall g m a q w,
        ~ (g = gasto_id /\ m = mes /\ a = anio /\ q = quien) ->
        verificar_pago_existente c' g m a q w
        = verificar_pago_existente c g m a q w)
  /\ (forall s, semana <> Some s ->
        verificar_pago_existente c' gasto_id mes anio quien (Some s)
        = verificar_pago_existente c gasto_id mes anio quien (Some s)).
Proof.
  intros c'.
  assert (Hv : forall g m a q w,
             verificar_pago_existente c' g m a q w
             = verificar_pago_existente c g m a q w
               || (es_pago_de g m a q
                     {| p_id := nuevo_id (sec_pagos c) (map p_id (pagos c));
                        p_gasto_id := gasto_id; p_mes := mes; p_anio := anio;
                        p_quien_pago := quien; p_monto_pagado := monto;
                        p_semana := semana |}
                   && match w with
                      | None => true
                      | Some s => match semana with
                                  | Some s' => s' =? s
                                  | None => false
                                  end
                      end)).
  { intros g m a q w. unfold c', verificar_pago_existente. cbn [fst pagos].
    unfold registrar_pago. cbn [fst pagos].
    destruct w as [s | ]; rewrite hay_filas_app; cbn [p_semana];
      [reflexivity | rewrite andb_true_r; reflexivity]. }
  assert (Hpropio : forall p, p_gasto_id p = gasto_id -> p_mes p = mes ->
                              p_anio p = anio -> p_quien_pago p = quien ->
                              es_pago_de gasto_id mes anio quien p = true)
    by (intros p ? ? ? ?; apply es_pago_de_iff; tauto).
  split; [ | split; [ | split; [ | split]]].
  - rewrite Hv, Hpropio by reflexivity. apply orb_true_r.
  - intros s ->. rewrite Hv, Hpropio by reflexivity.
    rewrite Z.eqb_refl. apply orb_true_r.
  - intros g m a q w H. rewrite Hv, H. reflexivity.
  - intros g m a q w Hdif. rewrite Hv.
    destruct (es_pago_de g m a q _) eqn:E; [ | apply orb_false_r].
    exfalso. apply Hdif. apply es_pago_de_iff in E. cbn in E.
    intuition congruence.
  - intros s Hs. rewrite Hv.
    destruct semana as [s' | ]; [ | rewrite andb_false_r; apply orb_false_r].
    destruct (s' =? s) eqn:E;
      [apply Z.eqb_eq in E; congruence | ].
    rewrite andb_false_r. apply orb_false_r.
Qed.

Lemma verificar_semana_iff (c : conn) (gasto_id mes anio s : Z)
    (quien : string) :
  verificar_pago_existente c gasto_id mes anio quien (Some s) = true
  <-> exists p, In p (pagos c)
                /\ es_pago_de gasto_id mes anio quien p = true
                /\ p_semana p = Some s.
Proof.
  unfold verificar_pago_existente. rewrite hay_filas_iff.
  split; intros (p & Hin & H); exists p; (split; [exact Hin | ]).
  - apply andb_true_iff in H. destruct H as [He Hs].
    split; [exact He | ].
    destruct (p_semana p) as [s' | ]; [ | discriminate].
    apply Z.eqb_eq in Hs. congruence.
  - destruct H as [He Hs]. rewrite He, Hs, Z.eqb_refl. reflexivity.
Qed.

(** X2: The two views of the weekly payments agree: a week is reported paid by
    [verificar_pago_existente] exactly when it is in the list of
    [obtener_semanas_pagadas]. *)
Theorem verificar_semana_en_semanas_pagadas (c : conn)
    (gasto_id mes anio s : Z) (quien : string) :
  verificar_pago_existente c gasto_id mes anio quien (Some s) = true
  <-> In s (obtener_semanas_pagadas c gasto_id mes anio quien).
Proof.
  rewrite verificar_semana_iff. unfold obtener_semanas_pagadas.
  rewrite ordenar_In. symmetry. apply semanas_registradas_In.
Qed.

(** X3: [eliminar_pago_por_criterios] removes every payment of the key, those of
    all the weeks included: afterwards no payment of the key is seen, with or
    without a week, and no week is listed as paid; the other keys keep what
    they had; the flag tells whether the key had a payment. *)
Theorem eliminar_pago_por_criterios_borra_todo (c : conn)
    (gasto_id mes anio : Z) (quien : string) :
  let c' := fst (eliminar_pago_por_criterios c gasto_id mes anio quien) in
  let b := snd (eliminar_pago_por_criterios c gasto_id mes anio quien) in
  (forall w, verificar_pago_existente c' gasto_id mes anio quien w = false)
  /\ obtener_semanas_pagadas c' gasto_id mes anio quien = []
  /\ (forall g m a q w,
        ~ (g = gasto_id /\ m = mes /\ a = anio /\ q = quien) ->
        verificar_pago_existente c' g m a q w
        = verificar_pago_existente c g m a q w)
  /\ b = verificar_pago_existente c gasto_id mes anio quien None.
Proof.
  intros c' b.
  assert (Hvacio : filter (es_pago_de gasto_id mes anio quien) (pagos c')
                   = []).
  { unfold c'. cbn [fst eliminar_pago_por_criterios con_pagos pagos].
    apply filter_ninguno. intros p Hp. apply filter_In in Hp.
    destruct Hp as [_ Hp]. apply negb_true_iff. exact Hp. }
  split; [ | split; [ | split]].
  - intros w. unfold verificar_pago_existente.
    destruct w as [s | ]; [ | rewrite Hvacio; reflexivity].
    rewrite filter_ninguno; [reflexivity | ].
    intros p Hp. apply andb_false_iff. left.
    destruct (es_pago_de gasto_id mes anio quien p) eqn:E; [ | reflexivity].
    assert (Hin : In p (filter (es_pago_de gasto_id mes anio quien)
                               (pagos c')))
      by (apply filter_In; split; assumption).
    rewrite Hvacio in Hin. destruct Hin.
  - unfold obtener_semanas_pagadas, semanas_registradas.
    rewrite Hvacio. reflexivity.
  - intros g m a q w Hdif.
    assert (Hf : forall f : pago -> bool,
               (forall p, f p = true -> es_pago_de g m a q p = true) ->
               filter f (pagos c') = filter f (pagos c)).
    { intros f Hf. unfold c'.
      cbn [fst eliminar_pago_por_criterios con_pagos pagos].
      induction (pagos c) as [| p l IH]; [reflexivity | ]. simpl.
      destruct (es_pago_de gasto_id mes anio quien p) eqn:E; simpl.
      - destruct (f p) eqn:Ef; [ | exact IH].
        exfalso. apply Hdif. apply Hf in Ef.
        apply es_pago_de_iff in E, Ef. intuition congruence.
      - rewrite IH. reflexivity. }
    unfold verificar_pago_existente. destruct w as [s | ].
    + rewrite Hf; [reflexivity | ].
      intros p H. apply andb_true_iff in H. apply H.
    + rewrite Hf; [reflexivity | tauto].
  - reflexivity.
Qed.

Lemma fold_max_cota (ids : list Z) :
  forall sec, sec <= fold_left Z.max ids sec
              /\ forall id, In id ids -> id <= fold_left Z.max ids sec.
Proof.
  induction ids as [| x ids IH]; intros sec; simpl.
  - split; [lia | intros id []].
  - destruct (IH (Z.max sec x)) as [H1 H2]. split; [lia | ].
    intros id [<- | Hin]; [lia | apply H2; exact Hin].
Qed.

(** The id of an AUTOINCREMENT insert is above the counter and above every
    id in use. *)
Lemma nuevo_id_fresco (sec : Z) (ids : list Z) :
  sec < nuevo_id sec ids /\ forall id, In id ids -> id < nuevo_id sec ids.
Proof.
  unfold nuevo_id. destruct (fold_max_cota ids sec) as [H1 H2].
  split; [lia | ]. intros id Hin. specialize (H2 id Hin). lia.
Qed.

(** X4: Deleting by id the payment that was just registered gives back the
    payment table of before, and reports a deletion. *)
Theorem eliminar_pago_recien_registrado (c : conn) (gasto_id mes anio : Z)
    (quien : string) (monto : Q) (semana : option Z) :
  let c1 := fst (registrar_pago c gasto_id mes anio quien monto semana) in
  pagos (fst (eliminar_pago c1 (sec_pagos c1))) = pagos c
  /\ snd (eliminar_pago c1 (sec_pagos c1)) = true.
Proof.
  intros c1. unfold c1, registrar_pago, eliminar_pago.
  cbn [fst snd pagos sec_pagos con_pagos].
  set (id := nuevo_id (sec_pagos c) (map p_id (pagos c))).
  assert (Hviejos : forall p, In p (pagos c) -> (p_id p =? id) = false).
  { intros p Hp. apply Z.eqb_neq.
    destruct (nuevo_id_fresco (sec_pagos c) (map p_id (pagos c))) as [_ H].
    specialize (H (p_id p) (in_map p_id _ _ Hp)). fold id in H. lia. }
  split.
  - rewrite filter_app. cbn [filter p_id]. rewrite Z.eqb_refl. cbn [negb].
    rewrite app_nil_r. apply forallb_filter_id. apply forallb_forall.
    intros p Hp. rewrite (Hviejos p Hp). reflexivity.
  - rewrite hay_filas_app. cbn [p_id]. rewrite Z.eqb_refl.
    apply orb_true_r.
Qed.

Lemma suma_app (l : list Q) (x : Q) : suma (l ++ [x]) = (suma l + x)%Q.
Proof. unfold suma. rewrite fold_left_app. reflexivity. Qed.

(** X5: A payment registered for a month raises what its payer has paid in the
    balance of that month by its amount, and lowers the pending amount of
    the payer by as much; what each one owes, and what the other person has
    paid, stay as they were. *)
Theorem registrar_pago_saldo_neto (c : conn) (gasto_id mes anio : Z)
    (monto : Q) (semana : option Z) :
  let s := calcular_saldo_neto c mes anio in
  let sr := calcular_saldo_neto
              (fst (registrar_pago c gasto_id mes anio "Ricardo" monto semana))
              mes anio in
  let sw := calcular_saldo_neto
              (fst (registrar_pago c gasto_id mes anio "Wendy" monto semana))
              mes anio in
  total_debe_cada_uno sr = total_debe_cada_uno s
  /\ total_debe_cada_uno sw = total_debe_cada_uno s
  /\ (pagado_ricardo sr == pagado_ricardo s + monto)%Q
  /\ (saldo_ricardo sr == saldo_ricardo s - monto)%Q
  /\ pagado_wendy sr = pagado_wendy s
  /\ (pagado_wendy sw == pagado_wendy s + monto)%Q
  /\ (saldo_wendy sw == saldo_wendy s - monto)%Q
  /\ pagado_ricardo sw = pagado_ricardo s.
Proof.
  intros s sr sw.
  assert (Hmas : forall quien,
             (valor_o (suma_pagado
                         (fst (registrar_pago c gasto_id mes anio quien
                                              monto semana))
                         mes anio quien) 0
              == valor_o (suma_pagado c mes anio quien) 0 + monto)%Q).
  { intros quien. unfold suma_pagado. rewrite !valor_o_SUM.
    unfold registrar_pago. cbn [fst pagos].
    rewrite filter_app. cbn [filter p_mes p_anio p_quien_pago].
    rewrite !Z.eqb_refl, String.eqb_refl. cbn [andb].
    rewrite map_app. cbn [map p_monto_pagado]. rewrite suma_app.
    reflexivity. }
  assert (Higual : forall quien otro,
             (otro =? quien)%string = false ->
             suma_pagado (fst (registrar_pago c gasto_id mes anio quien
                                              monto semana))
                         mes anio otro
             = suma_pagado c mes anio otro).
  { intros quien otro Hdif. unfold suma_pagado, registrar_pago.
    cbn [fst pagos]. rewrite filter_app.
    cbn [filter p_mes p_anio p_quien_pago].
    rewrite String.eqb_sym, Hdif, andb_false_r, app_nil_r. reflexivity. }
  assert (HR : (pagado_ricardo sr == pagado_ricardo s + monto)%Q)
    by exact (Hmas "Ricardo").
  assert (HW : (pagado_wendy sw == pagado_wendy s + monto)%Q)
    by exact (Hmas "Wendy").
  split; [reflexivity | ]. split; [reflexivity | ].
  split; [exact HR | ]. split.
  { change (saldo_ricardo sr)
      with (total_debe_cada_uno s - pagado_ricardo sr)%Q.
    change (saldo_ricardo s)
      with (total_debe_cada_uno s - pagado_ricardo s)%Q.
    rewrite HR. ring. }
  split.
  { unfold sr, s, calcular_saldo_neto; cbn [pagado_wendy].
    rewrite (Higual "Ricardo" "Wendy" eq_refl). reflexivity. }
  split; [exact HW | ]. split.
  { change (saldo_wendy sw)
      with (total_debe_cada_uno s - pagado_wendy sw)%Q.
    change (saldo_wendy s)
      with (total_debe_cada_uno s - pagado_wendy s)%Q.
    rewrite HW. ring. }
  unfold sw, s, calcular_saldo_neto; cbn [pagado_ricardo].
  rewrite (Higual "Wendy" "Ricardo" eq_refl). reflexivity.
Qed.

(** ** The amounts of a month *)

Lemma es_monto_de_iff (gasto_id mes anio : Z) (m : monto_mensual) :
  es_monto_de gasto_id mes anio m = true
  <-> m_gasto_id m = gasto_id /\ m_mes m = mes /\ m_anio m = anio.
Proof.
  unfold es_monto_de. rewrite !andb_true_iff, !Z.eqb_eq. tauto.
Qed.

Section EstablecerMonto.

Variables (c : conn) (gasto_id mes anio : Z) (monto : Q).

Let r := establecer_monto_del_mes c gasto_id mes anio monto.

Let c' := fst r.

Let actualizar (m : monto_mensual) : monto_mensual :=
  if es_monto_de gasto_id mes anio m
  then {| m_id := m_id m; m_gasto_id := m_gasto_id m; m_mes := m_mes m;
          m_anio := m_anio m; m_monto_total := monto |}
  else m.

Let nuevo : monto_mensual :=
  {| m_id := nuevo_id 0 (map m_id (montos_mensuales c));
     m_gasto_id := gasto_id; m_mes := mes; m_anio := anio;
     m_monto_total := monto |}.

(** The flag tells whether sqlite3 could bind the key. *)
Lemma establecer_devuelve :
  snd r = true <-> enlazar [gasto_id; mes; anio] = Ok tt.
Proof.
  unfold r, establecer_monto_del_mes.
  destruct (enlazar [gasto_id; mes; anio]) as [[] | e]; cbn [snd];
    split; try reflexivity; discriminate.
Qed.

Lemma establecer_sin_cambio : snd r = false -> c' = c.
Proof.
  unfold c', r, establecer_monto_del_mes.
  destruct (enlazar [gasto_id; mes; anio]) as [[] | e]; cbn [fst snd];
    [discriminate | reflexivity].
Qed.

Lemma establecer_montos :
  montos_mensuales c'
  = if snd r
    then if existsb (es_monto_de gasto_id mes anio) (montos_mensuales c)
         then map actualizar (montos_mensuales c)
         else (montos_mensuales c ++ [nuevo])%list
    else montos_mensuales c.
Proof.
  unfold c', r, establecer_monto_del_mes.
  destruct (enlazar [gasto_id; mes; anio]); reflexivity.
Qed.

Lemma establecer_resto :
  gastos_mensuales c' = gastos_mensuales c
  /\ pagos c' = pagos c
  /\ grupos_distribucion c' = grupos_distribucion c
  /\ gastos_en_grupo c' = gastos_en_grupo c.
Proof.
  unfold c', r, establecer_monto_del_mes.
  destruct (enlazar [gasto_id; mes; anio]); repeat split.
Qed.

Lemma actualizar_clave (g m a : Z) (x : monto_mensual) :
  es_monto_de g m a (actualizar x) = es_monto_de g m a x.
Proof.
  unfold actualizar. destruct (es_monto_de gasto_id mes anio x); reflexivity.
Qed.

(** The rows of a key in the table after [establecer_monto_del_mes]. *)
Lemma establecer_filas_de_clave (g m a : Z) :
  filter (es_monto_de g m a) (montos_mensuales c')
  = if snd r
    then if existsb (es_monto_de gasto_id mes anio) (montos_mensuales c)
         then map actualizar (filter (es_monto_de g m a) (montos_mensuales c))
         else (filter (es_monto_de g m a) (montos_mensuales c)
               ++ (if es_monto_de g m a nuevo then [nuevo] else []))%list
    else filter (es_monto_de g m a) (montos_mensuales c).
Proof.
  rewrite establecer_montos. destruct (snd r); [ | reflexivity].
  destruct (existsb _ (montos_mensuales c)).
  - apply filter_map_estable. intros x. apply actualizar_clave.
  - rewrite filter_app. reflexivity.
Qed.

Lemma otra_clave (g m a : Z) (x : monto_mensual) :
  ~ (g = gasto_id /\ m = mes /\ a = anio) ->
  es_monto_de g m a x = true -> es_monto_de gasto_id mes anio x = false.
Proof.
  intros Hdif Hx.
  destruct (es_monto_de gasto_id mes anio x) eqn:E; [ | reflexivity].
  exfalso. apply Hdif. apply es_monto_de_iff in Hx, E.
  intuition congruence.
Qed.

Lemma establecer_filas_de_otra_clave (g m a : Z) :
  ~ (g = gasto_id /\ m = mes /\ a = anio) ->
  filter (es_monto_de g m a) (montos_mensuales c')
  = filter (es_monto_de g m a) (montos_mensuales c).
Proof.
  intros Hdif. rewrite establecer_filas_de_clave.
  destruct (snd r); [ | reflexivity].
  destruct (existsb _ (montos_mensuales c)).
  - rewrite <- (map_id (filter (es_monto_de g m a) (montos_mensuales c)))
      at 2.
    apply map_ext_in. intros x Hx. apply filter_In in Hx.
    unfold actualizar. rewrite (otra_clave g m a x Hdif); tauto.
  - destruct (es_monto_de g m a nuevo) eqn:E; [ | apply app_nil_r].
    exfalso. apply Hdif. apply es_monto_de_iff in E. cbn in E.
    intuition congruence.
Qed.

(** The rows of the key itself after a write that went through: the rows it
    had, with the new amount, or the new row. *)
Lemma establecer_filas_propias :
  snd r = true ->
  exists x l,
    filter (es_monto_de gasto_id mes anio) (montos_mensuales c') = x :: l
    /\ m_monto_total x = monto
    /\ List.length (x :: l)
       = Nat.max 1 (List.length (filter (es_monto_de gasto_id mes anio)
                                        (montos_mensuales c))).
Proof.
  intros Hr. rewrite establecer_filas_de_clave, Hr.
  destruct (existsb _ (montos_mensuales c)) eqn:E.
  - apply existsb_exists in E. destruct E as (x & Hx & Hk).
    assert (Hin : In x (filter (es_monto_de gasto_id mes anio)
                               (montos_mensuales c)))
      by (apply filter_In; split; assumption).
    destruct (filter (es_monto_de gasto_id mes anio) (montos_mensuales c))
      as [| y l] eqn:Ef; [destruct Hin | ].
    assert (Hy : es_monto_de gasto_id mes anio y = true).
    { assert (H : In y (filter (es_monto_de gasto_id mes anio)
                               (montos_mensuales c)))
        by (rewrite Ef; left; reflexivity).
      apply filter_In in H. apply H. }
    cbn [map]. eexists. eexists. split; [reflexivity | ]. split.
    + unfold actualizar. rewrite Hy. reflexivity.
    + cbn [List.length]. rewrite length_map. lia.
  - rewrite filter_ninguno.
    + assert (Hn : es_monto_de gasto_id mes anio nuevo = true)
        by (apply es_monto_de_iff; repeat split).
      rewrite Hn. exists nuevo, []. repeat split.
    + intros x Hx. destruct (es_monto_de gasto_id mes anio x) eqn:Ex;
        [ | reflexivity].
      assert (existsb (es_monto_de gasto_id mes anio) (montos_mensuales c)
              = true)
        by (apply existsb_exists; exists x; split; assumption).
      congruence.
Qed.

(** X6: Write then read. [establecer_monto_del_mes] returns True exactly when
    sqlite3 can bind the key; then [obtener_monto_del_mes] returns the amount
    stored for the key, whether the key had a row or not. When it returns
    False the store is the one of before. In both cases
    [obtener_monto_del_mes] gives for every other key what it gave
    before. *)
Theorem establecer_obtener_monto :
  (snd r = true
   <-> cabe_en_sqlite gasto_id = true /\ cabe_en_sqlite mes = true
       /\ cabe_en_sqlite anio = true)
  /\ (snd r = true -> obtener_monto_del_mes c' gasto_id mes anio = Ok monto)
  /\ (snd r = false -> c' = c)
  /\ (forall g m a,
        ~ (g = gasto_id /\ m = mes /\ a = anio) ->
        obtener_monto_del_mes c' g m a = obtener_monto_del_mes c g m a).
Proof.
  split; [ | split; [ | split]].
  - rewrite establecer_devuelve. apply enlazar_tres.
  - intros Hr. unfold obtener_monto_del_mes.
    rewrite (proj1 establecer_devuelve Hr). cbn [bind]. f_equal.
    unfold consultar_monto_del_mes.
    change (fun m0 => (m_gasto_id m0 =? gasto_id) && (m_mes m0 =? mes)
                      && (m_anio m0 =? anio))
      with (es_monto_de gasto_id mes anio).
    destruct (establecer_filas_propias Hr) as (x & l & -> & Hx & _).
    exact Hx.
  - exact establecer_sin_cambio.
  - intros g m a Hdif. unfold obtener_monto_del_mes.
    destruct (enlazar [g; m; a]); cbn [bind]; [ | reflexivity]. f_equal.
    unfold consultar_monto_del_mes.
    change (fun m0 => (m_gasto_id m0 =? g) && (m_mes m0 =? m)
                      && (m_anio m0 =? a))
      with (es_monto_de g m a).
    rewrite (establecer_filas_de_otra_clave g m a Hdif).
    destruct establecer_resto as (-> & _). reflexivity.
Qed.

(** X7: The upsert never duplicates a key. After a write that went through
    the key has the rows it had, or one row if it had none; after one that
    did not the table is the one of before; in both cases every other key
    has the rows it had, and a table with at most one row per key stays
    so. *)
Theorem establecer_monto_sin_duplicados :
  (snd r = true ->
   List.length (filter (es_monto_de gasto_id mes anio) (montos_mensuales c'))
   = Nat.max 1 (List.length (filter (es_monto_de gasto_id mes anio)
                                    (montos_mensuales c))))
  /\ (snd r = false -> montos_mensuales c' = montos_mensuales c)
  /\ (forall g m a,
        ~ (g = gasto_id /\ m = mes /\ a = anio) ->
        List.length (filter (es_monto_de g m a) (montos_mensuales c'))
        = List.length (filter (es_monto_de g m a) (montos_mensuales c)))
  /\ (clave_unica_montos c -> clave_unica_montos c').
Proof.
  split; [ | split; [ | split]].
  - intros Hr. destruct (establecer_filas_propias Hr) as (x & l & -> & _ & H).
    exact H.
  - intros Hr. rewrite establecer_montos, Hr. reflexivity.
  - intros g m a Hdif. rewrite (establecer_filas_de_otra_clave g m a Hdif).
    reflexivity.
  - intros Hu g m a.
    destruct (snd r) eqn:Hr;
      [ | rewrite establecer_montos, Hr; apply Hu].
    destruct (Z.eq_dec g gasto_id) as [-> | Hg];
      [destruct (Z.eq_dec m mes) as [-> | Hm];
       [destruct (Z.eq_dec a anio) as [-> | Ha] | ] | ];
      try (rewrite establecer_filas_de_otra_clave by tauto; apply Hu).
    destruct (establecer_filas_propias Hr) as (x & l & -> & _ & ->).
    specialize (Hu gasto_id mes anio). lia.
Qed.

End EstablecerMonto.

(** The override of March 2025 written on [conn_variable_con_override] is
    read back; a key that SQLite cannot hold is refused and leaves the store
    as it was. *)
Lemma establecer_obtener_monto_witness :
  obtener_monto_del_mes
    (fst (establecer_monto_del_mes conn_variable_con_override 1 3 2025 175))
    1 3 2025 = Ok 175%Q
  /\ establecer_monto_del_mes conn_variable_con_override (2 ^ 63) 3 2025 175
     = (conn_variable_con_override, false).
Proof.
  split; [ | reflexivity].
  destruct (establecer_obtener_monto conn_variable_con_override 1 3 2025 175)
    as (_ & Hleer & _).
  apply Hleer. reflexivity.
Defined.

Lemma establecer_monto_sin_duplicados_witness :
  List.length
    (filter (es_monto_de 1 3 2025)
            (montos_mensuales
               (fst (establecer_monto_del_mes conn_variable_con_override
                                              1 3 2025 175))))
  = 1%nat.
Proof.
  destruct (establecer_monto_sin_duplicados conn_variable_con_override
                                            1 3 2025 175) as (Hfilas & _).
  apply Hfilas. reflexivity.
Defined.

Lemma filter_perm {A : Type} (p : A -> bool) (l l' : list A) :
  Permutation l l' -> Permutation (filter p l) (filter p l').
Proof.
  intros H. induction H as [| x l l' _ IH | x y l | l l' l'' _ IH1 _ IH2];
    simpl.
  - apply perm_nil.
  - destruct (p x); [apply perm_skip | ]; exact IH.
  - destruct (p x), (p y); try apply Permutation_refl. apply perm_swap.
  - eapply perm_trans; eassumption.
Qed.

(** With unique ids, the rows of one expense in the LEFT JOIN are those its
    own overrides give. *)
Lemma filas_de_un_gasto (c : conn) (mes anio : Z) (g : gasto_mensual)
    (l : list gasto_mensual) :
  NoDup (map g_id l) -> In g l ->
  filter (fun r => c_id r =? g_id g) (flat_map (union_montos c mes anio) l)
  = union_montos c mes anio g.
Proof.
  assert (Htodas : forall g', forallb (fun r => c_id r =? g_id g')
                                      (union_montos c mes anio g') = true).
  { intros g'. apply forallb_forall. intros r Hr. apply Z.eqb_eq.
    apply (union_montos_filas c mes anio g'). exact Hr. }
  assert (Hninguna : forall g', g_id g' <> g_id g ->
                                filter (fun r => c_id r =? g_id g)
                                       (union_montos c mes anio g') = []).
  { intros g' Hdif. apply filter_ninguno. intros r Hr. apply Z.eqb_neq.
    destruct (union_montos_filas c mes anio g') as [_ H].
    destruct (H r Hr) as [-> _]. exact Hdif. }
  induction l as [| x l IH]; intros Hnd Hin; [destruct Hin | ].
  simpl in Hnd. inversion Hnd as [| ? ? Hno Hnd']; subst.
  cbn [flat_map]. rewrite filter_app. destruct Hin as [-> | Hin].
  - rewrite forallb_filter_id by apply Htodas.
    rewrite filter_ninguno; [apply app_nil_r | ].
    intros r Hr. apply Z.eqb_neq. apply in_flat_map in Hr.
    destruct Hr as (g' & Hg' & Hr).
    destruct (union_montos_filas c mes anio g') as [_ H].
    destruct (H r Hr) as [-> _].
    intros Heq. apply Hno. rewrite <- Heq. apply in_map. exact Hg'.
  - rewrite Hninguna.
    + apply IH; assumption.
    + intros Heq. apply Hno. rewrite Heq. apply in_map. exact Hin.
Qed.

(** The rows of an id in the frame are those of the cursor. *)
Lemma filas_de_id_en_marco (c : conn) (mes anio id : Z) :
  filter (fun r => c_id r =? id) (obtener_montos_configurados c mes anio)
  = map (fila_de_marco (filas_configuradas c mes anio))
        (filter (fun r => c_id r =? id) (filas_configuradas c mes anio)).
Proof.
  unfold obtener_montos_configurados, DataFrame.
  apply filter_map_estable. intros x. reflexivity.
Qed.

(** With unique ids the rows of an active expense in the cursor are, up to
    order, those its own overrides give. *)
Lemma filas_configuradas_de_gasto (c : conn) (mes anio : Z)
    (g : gasto_mensual) :
  NoDup (map g_id (gastos_mensuales c)) ->
  In g (gastos_mensuales c) -> g_activo g = 1 ->
  Permutation (filter (fun r => c_id r =? g_id g)
                      (filas_configuradas c mes anio))
              (union_montos c mes anio g).
Proof.
  intros Hnd Hg Ha.
  assert (Hactivo : In g (filter (fun g => g_activo g =? 1)
                                 (gastos_mensuales c)))
    by (apply filter_In; split; [exact Hg | apply Z.eqb_eq; exact Ha]).
  assert (Hnd' : NoDup (map g_id (filter (fun g => g_activo g =? 1)
                                         (gastos_mensuales c)))).
  { clear Hg Hactivo. induction (gastos_mensuales c) as [| x l IH];
      [constructor | ].
    simpl in *. inversion Hnd as [| ? ? Hno Hnd']; subst.
    destruct (g_activo x =? 1); [ | apply IH; exact Hnd'].
    simpl. constructor; [ | apply IH; exact Hnd'].
    intros Hin. apply Hno. apply in_map_iff in Hin.
    destruct Hin as (y & Hy & Hin). apply filter_In in Hin.
    rewrite <- Hy. apply in_map. apply Hin. }
  unfold filas_configuradas.
  rewrite <- (filas_de_un_gasto c mes anio g _ Hnd' Hactivo).
  apply filter_perm. apply ordenar_perm.
Qed.



(** ** The split, further *)

Lemma max_0_de_negativo (x : Q) : (x <= 0)%Q -> max_ 0 x = 0%Q.
Proof.
  intros H. unfold max_. apply Qle_bool_iff in H. rewrite H. reflexivity.
Qed.

(** The two shares of a fixed split, the fixed amount [f] and
    [max(0, t - f)], sum to the total exactly when [f <= t]. *)
Lemma reparto_fijo_suma_iff (f t : Q) :
  (f + max_ 0 (t - f) == t)%Q <-> (f <= t)%Q.
Proof.
  split.
  - intros H. destruct (Qlt_le_dec t f) as [Hlt | Hle]; [ | exact Hle].
    rewrite max_0_de_negativo in H by lra. lra.
  - intros H. rewrite max_0_de_no_negativo by lra. ring.
Qed.



(** X10: A percentage split gives Ricardo [t * (p / 100)] for the configured
    percentage [p] and Wendy the remainder [t - t * (p / 100)]; a percentage
    that is [None] or 0 counts as 50, so Ricardo cannot be given 0%; a
    percentage that is nan (unset in a column of the frame where another
    row has a number) makes both shares nan. *)
Theorem distribucion_personalizada (gasto : fila_config) (total : Q) :
  c_tipo_distribucion gasto = "personalizado" ->
  let montos := calcular_distribucion_pago gasto total in
  (forall p : Q, c_porcentaje_ricardo gasto = Some (Num p) -> ~ (p == 0)%Q ->
     montos = (Num (total * (p / 100)), Num (total - total * (p / 100))))
  /\ (c_porcentaje_ricardo gasto = None
      \/ (exists p : Q,
             c_porcentaje_ricardo gasto = Some (Num p) /\ (p == 0)%Q) ->
      montos = (Num (total * (50 / 100)), Num (total - total * (50 / 100))))
  /\ (c_porcentaje_ricardo gasto = Some NaN -> montos = (NaN, NaN)).
Proof.
  intros Htipo montos. unfold montos, calcular_distribucion_pago.
  rewrite Htipo. cbn [String.eqb Ascii.eqb Bool.eqb fst snd].
  split; [ | split].
  - intros p Hp Hno. rewrite Hp. cbn [celda_o].
    destruct (Qeq_bool p 0) eqn:E;
      [apply Qeq_bool_iff in E; contradiction | ].
    reflexivity.
  - intros [Hp | (p & Hp & H0)]; rewrite Hp; cbn [celda_o].
    + reflexivity.
    + apply Qeq_bool_iff in H0. rewrite H0. reflexivity.
  - intros ->. reflexivity.
Qed.

Lemma distribucion_personalizada_witness :
  calcular_distribucion_pago (gasto_personalizado (Some (Num 0))) 90
  = (Num (90 * (50 / 100)), Num (90 - 90 * (50 / 100)))
  /\ calcular_distribucion_pago (gasto_personalizado (Some NaN)) 90
     = (NaN, NaN).
Proof.
  split.
  - destruct (distribucion_personalizada (gasto_personalizado (Some (Num 0)))
                                         90 eq_refl) as (_ & H & _).
    apply H. right. exists 0%Q. split; reflexivity.
  - destruct (distribucion_personalizada (gasto_personalizado (Some NaN))
                                         90 eq_refl) as (_ & _ & H).
    apply H. reflexivity.
Defined.



(** ** The rows of the table *)

(** X12: The row of an expense that is not weekly is built for every month
    and year that SQLite can bind as 64-bit integers, also when the month
    is no month of the calendar: its total is the frequency conversion of
    the configured amount, its shares are those of
    [calcular_distribucion_pago] on that total (nan included, when a
    parameter of the row is nan), and each person is marked paid exactly
    when a payment record of that person exists for the expense in (month,
    year), whatever its amount. *)
Theorem fila_de_gasto_no_semanal (c : conn) (mes anio : Z)
    (gasto : fila_config) :
  cabe_en_sqlite (c_id gasto) = true ->
  cabe_en_sqlite mes = true ->
  cabe_en_sqlite anio = true ->
  c_frecuencia gasto <> "Semanal" ->
  exists f total,
    fila_de_gasto c mes anio gasto = Ok f
    /\ calcular_monto_mensual_segun_frecuencia
         (c_monto_total gasto) (c_frecuencia gasto) mes anio = Ok total
    /\ f_id f = IdGasto (c_id gasto)
    /\ f_Monto_Total f = total
    /\ (f_Debe_Ricardo f, f_Debe_Wendy f)
       = calcular_distribucion_pago gasto total
    /\ (f_Ricardo_Pago f = marca true
        <-> hay_pago c (c_id gasto) mes anio "Ricardo")
    /\ (f_Wendy_Pago f = marca true
        <-> hay_pago c (c_id gasto) mes anio "Wendy").
Proof.
  intros _ _ _ Hfrec. apply String.eqb_neq in Hfrec.
  assert (Htotal : exists total,
             calcular_monto_mensual_segun_frecuencia
               (c_monto_total gasto) (c_frecuencia gasto) mes anio
             = Ok total).
  { unfold calcular_monto_mensual_segun_frecuencia. rewrite Hfrec.
    destruct (c_frecuencia gasto =? "Quincenal")%string;
      [eexists; reflexivity | ].
    destruct (c_frecuencia gasto =? "Anual")%string; eexists; reflexivity. }
  destruct Htotal as [total Htotal].
  unfold fila_de_gasto. rewrite Htotal, Hfrec. cbn [bind].
  destruct (calcular_distribucion_pago gasto total) as [mr mw] eqn:Ed.
  eexists. exists total. rewrite Ed. split; [reflexivity | ].
  cbn [f_id f_Monto_Total f_Debe_Ricardo f_Debe_Wendy f_Ricardo_Pago
       f_Wendy_Pago].
  repeat (split; [reflexivity | ]).
  split; (etransitivity; [apply marca_verdadera | ]);
    apply verificar_pago_existente_iff.
Qed.

Lemma fila_de_gasto_no_semanal_witness :
  In gasto_fijo_nan (obtener_montos_configurados conn_fijo_sin_monto 13 2025)
  /\ exists f,
       fila_de_gasto conn_fijo_sin_monto 13 2025 gasto_fijo_nan = Ok f
       /\ f_Monto_Total f = 100%Q
       /\ (f_Debe_Ricardo f, f_Debe_Wendy f) = (NaN, Num 0)
       /\ f_Ricardo_Pago f <> marca true.
Proof.
  split; [vm_compute; left; reflexivity | ].
  destruct (fila_de_gasto_no_semanal conn_fijo_sin_monto 13 2025
                                     gasto_fijo_nan)
    as (f & total & Hf & Ht & _ & Hm & Hd & Hr & _).
  - reflexivity.
  - reflexivity.
  - reflexivity.
  - discriminate.
  - exists f. split; [exact Hf | ]. injection Ht as <-.
    split; [exact Hm | ]. split; [rewrite Hd; reflexivity | ].
    intros H. apply Hr in H. destruct H as (p & [] & _).
Defined.

Lemma fila_de_gasto_id (c : conn) (mes anio : Z) (gasto : fila_config)
    (f : fila) :
  fila_de_gasto c mes anio gasto = Ok f -> f_id f = IdGasto (c_id gasto).
Proof.
  unfold fila_de_gasto.
  destruct (calcular_monto_mensual_segun_frecuencia _ _ _ _) as [t | e];
    cbn [bind]; [ | discriminate].
  destruct (calcular_distribucion_pago gasto t) as [mr mw].
  destruct (c_frecuencia gasto =? "Semanal")%string.
  - destruct (calcular_semanas_del_mes mes anio) as [s | e]; cbn [bind];
      [ | discriminate].
    intros [= <-]. reflexivity.
  - cbn [bind]. intros [= <-]. reflexivity.
Qed.

(** Where the rows of the second loop come from. *)
Lemma iterar_procesar_gasto_origen (c : conn) (mes anio : Z)
    (procesados : list Z) (df : list fila_config) :
  forall resultados filas,
    iterar (procesar_gasto c mes anio procesados) df resultados = Ok filas ->
    forall f, In f filas ->
      In f resultados
      \/ exists gasto, In gasto df
                       /\ fila_de_gasto c mes anio gasto = Ok f
                       /\ ~ In (c_id gasto) procesados
                       /\ c_tipo_distribucion gasto <> "agrupado".
Proof.
  induction df as [| gasto df IH]; intros resultados filas; cbn [iterar].
  - intros [= <-] f Hf. left. exact Hf.
  - unfold procesar_gasto at 1.
    destruct (existsb (fun id => id =? c_id gasto) procesados) eqn:Ep.
    { cbn [bind]. intros H f Hf.
      destruct (IH _ _ H f Hf) as [Hr | (g & Hg & Hrest)];
        [left; exact Hr | right; exists g; split; [right; exact Hg | ]].
      exact Hrest. }
    destruct (c_tipo_distribucion gasto =? "agrupado")%string eqn:Et.
    { cbn [bind]. intros H f Hf.
      destruct (IH _ _ H f Hf) as [Hr | (g & Hg & Hrest)];
        [left; exact Hr | right; exists g; split; [right; exact Hg | ]].
      exact Hrest. }
    destruct (fila_de_gasto c mes anio gasto) as [f0 | e] eqn:Ef;
      cbn [bind]; [ | discriminate].
    intros H f Hf.
    destruct (IH _ _ H f Hf) as [Hr | (g & Hg & Hrest)].
    + apply in_app_or in Hr. destruct Hr as [Hr | [<- | []]];
        [left; exact Hr | ].
      right. exists gasto. split; [left; reflexivity | ].
      split; [exact Ef | ]. split.
      * intros Hin.
        assert (existsb (fun id => id =? c_id gasto) procesados = true)
          by (apply existsb_exists; exists (c_id gasto);
              split; [exact Hin | apply Z.eqb_refl]).
        congruence.
      * apply String.eqb_neq. exact Et.
    + right. exists g. split; [right; exact Hg | exact Hrest].
Qed.

(** The ids the loop over the members of a group marks as processed. *)
Lemma iterar_sumar_procesados (c : conn) (df : list fila_config)
    (mes anio : Z) (gs : list (Z * string * Q)) :
  forall t cs ps t' cs' ps',
    iterar (sumar_gasto_de_grupo c df mes anio) gs (t, cs, ps)
    = Ok (t', cs', ps') ->
    incl ps ps'
    /\ forall id concepto base,
         In (id, concepto, base) gs ->
         (exists r, In r df /\ c_id r = id) -> In id ps'.
Proof.
  induction gs as [| [[id0 co0] b0] gs IH]; intros t cs ps t' cs' ps';
    cbn [iterar].
  - intros [= <- <- <-]. split; [apply incl_refl | ]. intros ? ? ? [].
  - unfold sumar_gasto_de_grupo at 1.
    destruct (filter (fun r => c_id r =? id0) df) as [| r0 rs] eqn:Ef.
    + cbn [bind]. intros H. destruct (IH _ _ _ _ _ _ H) as [Hincl Hin].
      split; [exact Hincl | ].
      intros id co b [Heq | Hg] Hr; [ | exact (Hin id co b Hg Hr)].
      injection Heq as <- _ _. destruct Hr as (r & Hr & Hid).
      assert (Hx : In r (filter (fun r => c_id r =? id0) df))
        by (apply filter_In; split; [exact Hr | apply Z.eqb_eq; exact Hid]).
      rewrite Ef in Hx. destruct Hx.
    + destruct (calcular_monto_mensual_segun_frecuencia _ _ _ _)
        as [m | e]; cbn [bind]; [ | discriminate].
      intros H. destruct (IH _ _ _ _ _ _ H) as [Hincl Hin].
      split; [intros x Hx; apply Hincl; right; exact Hx | ].
      intros id co b [Heq | Hg] Hr; [ | exact (Hin id co b Hg Hr)].
      injection Heq as <- _ _. apply Hincl. left. reflexivity.
Qed.

Lemma fila_de_grupo_origen (c : conn) (df : list fila_config) (mes anio : Z)
    (gr : grupo) (fila_grupo : option fila) (ids : list Z) :
  fila_de_grupo c df mes anio gr = Ok (fila_grupo, ids) ->
  (forall f, fila_grupo = Some f ->
             gr_gastos gr <> [] /\ f_id f = IdGrupo (gr_id gr))
  /\ forall id concepto base,
       In (id, concepto, base) (gr_gastos gr) ->
       (exists r, In r df /\ c_id r = id) -> In id ids.
Proof.
  unfold fila_de_grupo.
  destruct (gr_gastos gr) as [| g0 gs] eqn:Eg.
  - intros [= <- <-]. split; [discriminate | ]. intros ? ? ? [].
  - destruct (iterar _ (g0 :: gs) _) as [[[t cs] ps] | e] eqn:Eit;
      cbn [bind]; [ | discriminate].
    apply iterar_sumar_procesados in Eit. destruct Eit as [_ Hin].
    destruct (inicial (gr_quien_paga_fijo gr)) as [letra | e];
      [ | destruct (gr_quien_paga_fijo gr =? "Ricardo")%string;
          [ | destruct (gr_quien_paga_fijo gr =? "Wendy")%string];
          discriminate].
    destruct (gr_quien_paga_fijo gr =? "Ricardo")%string;
      [ | destruct (gr_quien_paga_fijo gr =? "Wendy")%string];
      cbn [bind]; intros [= <- <-];
      (split; [intros f [= <-]; split; [discriminate | reflexivity]
              | exact Hin]).
Qed.

Lemma iterar_procesar_grupo_origen (c : conn) (df : list fila_config)
    (mes anio : Z) (grupos : list grupo) :
  forall resultados procesados resultados' procesados',
    iterar (procesar_grupo c df mes anio) grupos (resultados, procesados)
    = Ok (resultados', procesados') ->
    (forall f, In f resultados' ->
       In f resultados
       \/ exists gr, In gr grupos /\ gr_gastos gr <> []
                     /\ f_id f = IdGrupo (gr_id gr))
    /\ incl procesados procesados'
    /\ forall gr id concepto base,
         In gr grupos -> In (id, concepto, base) (gr_gastos gr) ->
         (exists r, In r df /\ c_id r = id) -> In id procesados'.
Proof.
  induction grupos as [| gr0 grupos IH];
    intros resultados procesados resultados' procesados'; cbn [iterar].
  - intros [= <- <-]. split; [intros f Hf; left; exact Hf | ].
    split; [apply incl_refl | ]. intros ? ? ? ? [].
  - unfold procesar_grupo at 1.
    destruct (fila_de_grupo c df mes anio gr0) as [[fg ids0] | e] eqn:E0;
      cbn [bind]; [ | discriminate].
    destruct (fila_de_grupo_origen _ _ _ _ _ _ _ E0) as [Hfila Hids].
    intros H. destruct (IH _ _ _ _ H) as (Hres & Hincl & Hproc).
    split; [ | split].
    + intros f Hf. destruct (Hres f Hf) as [Hr | (gr & Hgr & Hrest)].
      * destruct fg as [f0 | ]; [ | left; exact Hr].
        apply in_app_or in Hr. destruct Hr as [Hr | [<- | []]];
          [left; exact Hr | ].
        right. exists gr0. split; [left; reflexivity | ].
        apply Hfila. reflexivity.
      * right. exists gr. split; [right; exact Hgr | exact Hrest].
    + intros x Hx. apply Hincl. apply in_or_app. right. exact Hx.
    + intros gr id co b [<- | Hgr] Hg Hr.
      * apply Hincl. apply in_or_app. left. exact (Hids id co b Hg Hr).
      * exact (Hproc gr id co b Hgr Hg Hr).
Qed.

Lemma union_montos_tipo (c : conn) (mes anio : Z) (g : gasto_mensual)
    (r : fila_config) :
  In r (union_montos c mes anio g) ->
  c_tipo_distribucion r = g_tipo_distribucion g.
Proof.
  unfold union_montos.
  destruct (filter _ (montos_mensuales c)) as [| m ms].
  - intros [<- | []]. reflexivity.
  - intros Hr. apply in_map_iff in Hr. destruct Hr as (m' & <- & _).
    reflexivity.
Qed.

(** X13: Groups take precedence in the table. Every row of the table is either
    the row of an active group that has an active member, or the row of an
    active expense whose kind is not 'agrupado' and which is no active member
    of any active group: a grouped expense never has a row of its own. *)
Theorem tabla_mensual_filas (c : conn) (mes anio : Z) (filas : list fila)
    (f : fila) :
  calcular_tabla_mensual c mes anio = Ok filas ->
  In f filas ->
  (exists gd, In gd (grupos_distribucion c) /\ gd_activo gd = 1
              /\ miembros_de_grupo c (gd_id gd) <> []
              /\ f_id f = IdGrupo (gd_id gd))
  \/ (exists g, In g (gastos_mensuales c) /\ g_activo g = 1
                /\ f_id f = IdGasto (g_id g)
                /\ g_tipo_distribucion g <> "agrupado"
                /\ forall gd e, In gd (grupos_distribucion c) ->
                                gd_activo gd = 1 ->
                                In e (miembros_de_grupo c (gd_id gd)) ->
                                g_id e <> g_id g).
Proof.
  unfold calcular_tabla_mensual.
  destruct (obtener_montos_configurados c mes anio) as [| r0 df] eqn:Edf;
    [intros [= <-] [] | ].
  destruct (iterar (procesar_grupo c (r0 :: df) mes anio)
                   (obtener_grupos_distribucion c) ([], []))
    as [[resultados procesados] | e] eqn:Egr; cbn [bind]; [ | discriminate].
  apply iterar_procesar_grupo_origen in Egr.
  destruct Egr as (Hres & _ & Hproc).
  intros Hind Hf.
  destruct (iterar_procesar_gasto_origen _ _ _ _ _ _ _ Hind f Hf)
    as [Hr | (gasto & Hgasto & Hfila & Hno & Htipo)].
  - left. destruct (Hres f Hr) as [[] | (gr & Hgr & Hne & Hid)].
    unfold obtener_grupos_distribucion in Hgr. apply in_map_iff in Hgr.
    destruct Hgr as (gd & <- & Hgd). apply ordenar_In in Hgd.
    apply filter_In in Hgd. destruct Hgd as [Hgd Hact].
    exists gd. split; [exact Hgd | ]. split; [apply Z.eqb_eq; exact Hact | ].
    split; [ | exact Hid].
    intros Hvacio. apply Hne. cbn [gr_gastos grupo_de_fila].
    rewrite Hvacio. reflexivity.
  - right. rewrite <- Edf in Hgasto.
    apply montos_configurados_origen in Hgasto.
    destruct Hgasto as (g & Hg & Hact & Hid & _ & Hdist).
    exists g. split; [exact Hg | ]. split; [exact Hact | ].
    split; [rewrite <- Hid; apply (fila_de_gasto_id _ _ _ _ _ Hfila) | ].
    split; [rewrite <- Hdist; exact Htipo | ].
    intros gd e Hgd Hgdact He Heq. apply Hno. rewrite Hid, <- Heq.
    apply (Hproc (grupo_de_fila c gd) (g_id e) (g_concepto e)
                 (g_monto_total e)).
    + unfold obtener_grupos_distribucion. apply in_map. apply ordenar_In.
      apply filter_In. split; [exact Hgd | apply Z.eqb_eq; exact Hgdact].
    + cbn [gr_gastos grupo_de_fila].
      apply (in_map (fun g => (g_id g, g_concepto g, g_monto_total g))).
      exact He.
    + destruct (miembros_de_grupo_In c (gd_id gd) e He) as [He' Hea].
      destruct (montos_configurados_fila c mes anio e He' Hea)
        as (r & Hr & Hrid & _).
      exists r. split; [rewrite <- Edf; exact Hr | exact Hrid].
Qed.

Lemma tabla_mensual_filas_witness :
  exists filas f,
    calcular_tabla_mensual conn_grupo_40_60 3 2025 = Ok filas
    /\ In f filas
    /\ f_id f = IdGrupo 1.
Proof.
  destruct (calcular_tabla_mensual conn_grupo_40_60 3 2025)
    as [[| f filas] | e] eqn:E; try (vm_compute in E; discriminate).
  exists (f :: filas), f. split; [reflexivity | ].
  split; [left; reflexivity | ].
  destruct (tabla_mensual_filas conn_grupo_40_60 3 2025 (f :: filas) f E
                                (or_introl eq_refl))
    as [(gd & Hgd & _ & _ & Hid) | (g & _ & _ & Hid & _)].
  - destruct Hgd as [<- | []]. exact Hid.
  - vm_compute in E. injection E as <- _. discriminate.
Defined.

(** A loop whose body returns on every element returns. *)
Lemma iterar_definido {A S : Type} (cuerpo : S -> A -> resultado S)
    (l : list A) :
  (forall s x, In x l -> exists s', cuerpo s x = Ok s') ->
  forall s, exists s', iterar cuerpo l s = Ok s'.
Proof.
  induction l as [| x l IH]; intros H s; cbn [iterar].
  - exists s. reflexivity.
  - destruct (H s x (or_introl eq_refl)) as [s1 ->]. cbn [bind].
    apply IH. intros s2 y Hy. apply H. right. exact Hy.
Qed.

(** A loop stops at the first element on which the body raises, when the
    body returns on the elements before it. *)
Lemma iterar_excepcion {A S : Type} (cuerpo : S -> A -> resultado S)
    (e : excepcion) (l : list A) :
  (forall s x, In x l ->
               (exists s', cuerpo s x = Ok s') \/ cuerpo s x = Raise e) ->
  (exists x, In x l /\ forall s, cuerpo s x = Raise e) ->
  forall s, iterar cuerpo l s = Raise e.
Proof.
  induction l as [| x l IH]; intros H (y & Hy & Hraise) s; [destruct Hy | ].
  cbn [iterar].
  destruct (H s x (or_introl eq_refl)) as [[s1 Hs1] | Hs1];
    rewrite Hs1; cbn [bind]; [ | reflexivity].
  destruct Hy as [-> | Hy]; [rewrite Hraise in Hs1; discriminate | ].
  apply IH; [ | exists y; split; assumption].
  intros s2 z Hz. apply H. right. exact Hz.
Qed.

Lemma sumar_gasto_de_grupo_definido (c : conn) (df : list fila_config)
    (mes anio : Z) (estado : Q * list string * list Z)
    (gasto : Z * string * Q) :
  mes_calculable mes anio = true ->
  exists estado', sumar_gasto_de_grupo c df mes anio estado gasto
                  = Ok estado'.
Proof.
  intros Hmes. destruct estado as [[t cs] ps], gasto as [[id co] b].
  unfold sumar_gasto_de_grupo.
  destruct (filter (fun r => c_id r =? id) df) as [| r rs];
    [eexists; reflexivity | ].
  destruct (monto_segun_frecuencia_definido
              (consultar_monto_del_mes c id mes anio) (c_frecuencia r)
              mes anio Hmes) as [m ->].
  cbn [bind]. eexists. reflexivity.
Qed.

(** On a calculable month the row of a group is built, unless the group has
    members and an empty payer text, where [quien_paga[0]] raises. *)
Lemma fila_de_grupo_calculable (c : conn) (df : list fila_config)
    (mes anio : Z) (gr : grupo) :
  mes_calculable mes anio = true ->
  (gr_gastos gr <> [] /\ gr_quien_paga_fijo gr = ""
   /\ fila_de_grupo c df mes anio gr = Raise IndexError)
  \/ ((gr_gastos gr = [] \/ gr_quien_paga_fijo gr <> "")
      /\ exists r, fila_de_grupo c df mes anio gr = Ok r).
Proof.
  intros Hmes. unfold fila_de_grupo.
  destruct (gr_gastos gr) as [| g0 gs] eqn:Eg.
  - right. split; [left; reflexivity | eexists; reflexivity].
  - destruct (iterar_definido (sumar_gasto_de_grupo c df mes anio)
                              (g0 :: gs)
                              (fun s x _ =>
                                 sumar_gasto_de_grupo_definido
                                   c df mes anio s x Hmes)
                              (0%Q, [], [])) as [[[t cs] ps] ->].
    cbn [bind].
    destruct (gr_quien_paga_fijo gr) as [| a s] eqn:Eq.
    + left. split; [discriminate | ]. split; [reflexivity | ].
      reflexivity.
    + right. split; [right; discriminate | ].
      cbn [inicial bind].
      destruct (String a s =? "Ricardo")%string;
        [ | destruct (String a s =? "Wendy")%string];
        eexists; reflexivity.
Qed.

Lemma fila_de_gasto_calculable (c : conn) (mes anio : Z)
    (gasto : fila_config) :
  mes_calculable mes anio = true ->
  exists f, fila_de_gasto c mes anio gasto = Ok f.
Proof.
  intros Hmes. unfold fila_de_gasto.
  destruct (monto_segun_frecuencia_definido
              (c_monto_total gasto) (c_frecuencia gasto) mes anio Hmes)
    as [t ->].
  cbn [bind]. destruct (calcular_distribucion_pago gasto t) as [mr mw].
  destruct (semanas_del_mes_definido mes anio Hmes) as (s & -> & _).
  destruct (c_frecuencia gasto =? "Semanal")%string; cbn [bind];
    eexists; reflexivity.
Qed.

(** X14: On a calculable month the table is returned if and only if every active
    group with an active member names a payer; otherwise building the label
    of such a group raises [IndexError] and there is no table at all. *)
Theorem tabla_mensual_definida (c : conn) (mes anio : Z) :
  mes_calculable mes anio = true ->
  (grupos_con_pagador c ->
   exists filas, calcular_tabla_mensual c mes anio = Ok filas)
  /\ (forall gd, In gd (grupos_distribucion c) -> gd_activo gd = 1 ->
                 miembros_de_grupo c (gd_id gd) <> [] ->
                 gd_quien_paga_fijo gd = "" ->
                 calcular_tabla_mensual c mes anio = Raise IndexError).
Proof.
  intros Hmes.
  assert (Hgrupo : forall gd, In gd (grupos_distribucion c) ->
                              gd_activo gd = 1 ->
                              In (grupo_de_fila c gd)
                                 (obtener_grupos_distribucion c)).
  { intros gd H Ha. unfold obtener_grupos_distribucion. apply in_map.
    apply ordenar_In, filter_In.
    split; [exact H | apply Z.eqb_eq; exact Ha]. }
  split.
  - intros Hpag. unfold calcular_tabla_mensual.
    destruct (obtener_montos_configurados c mes anio) as [| r0 df];
      [eexists; reflexivity | ].
    destruct (iterar_definido (procesar_grupo c (r0 :: df) mes anio)
                              (obtener_grupos_distribucion c))
      with (s := ([] : list fila, [] : list Z)) as [[rs ps] ->].
    + intros [rs ps] gr Hgr. unfold procesar_grupo.
      destruct (fila_de_grupo_calculable c (r0 :: df) mes anio gr Hmes)
        as [(Hne & Hq & _) | (_ & [[fg ids] ->])].
      * exfalso. unfold obtener_grupos_distribucion in Hgr.
        apply in_map_iff in Hgr. destruct Hgr as (gd & <- & Hgd).
        apply ordenar_In, filter_In in Hgd. destruct Hgd as [Hgd Ha].
        apply (Hpag gd Hgd); [apply Z.eqb_eq; exact Ha | | exact Hq].
        intros Hv. apply Hne. cbn [gr_gastos grupo_de_fila].
        rewrite Hv. reflexivity.
      * cbn [bind]. eexists. reflexivity.
    + cbn [bind]. apply iterar_definido. intros rs' gasto _.
      unfold procesar_gasto.
      destruct (existsb _ ps); [eexists; reflexivity | ].
      destruct (c_tipo_distribucion gasto =? "agrupado")%string;
        [eexists; reflexivity | ].
      destruct (fila_de_gasto_calculable c mes anio gasto Hmes) as [f ->].
      cbn [bind]. eexists. reflexivity.
  - intros gd Hgd Ha Hne Hq. unfold calcular_tabla_mensual.
    destruct (obtener_montos_configurados c mes anio) as [| r0 df] eqn:Edf.
    { exfalso. destruct (miembros_de_grupo c (gd_id gd)) as [| e es] eqn:Em;
        [apply Hne; reflexivity | ].
      assert (He : In e (miembros_de_grupo c (gd_id gd)))
        by (rewrite Em; left; reflexivity).
      apply miembros_de_grupo_In in He. destruct He as [He Hea].
      destruct (montos_configurados_fila c mes anio e He Hea)
        as (r & Hr & _).
      rewrite Edf in Hr. destruct Hr. }
    rewrite (iterar_excepcion (procesar_grupo c (r0 :: df) mes anio)
                              IndexError); [reflexivity | | ].
    + intros [rs ps] gr _. unfold procesar_grupo.
      destruct (fila_de_grupo_calculable c (r0 :: df) mes anio gr Hmes)
        as [(_ & _ & ->) | (_ & [[fg ids] ->])].
      * right. reflexivity.
      * left. cbn [bind]. eexists. reflexivity.
    + exists (grupo_de_fila c gd). split; [apply Hgrupo; assumption | ].
      intros [rs ps]. unfold procesar_grupo.
      destruct (fila_de_grupo_calculable c (r0 :: df) mes anio
                                         (grupo_de_fila c gd) Hmes)
        as [(_ & _ & ->) | ([Hv | Hq'] & _)].
      * reflexivity.
      * exfalso. cbn [gr_gastos grupo_de_fila] in Hv.
        apply map_eq_nil in Hv. contradiction.
      * exfalso. apply Hq'. exact Hq.
Qed.

Lemma tabla_mensual_definida_witness :
  exists filas, calcular_tabla_mensual conn_grupo_40_60 2 2024 = Ok filas.
Proof.
  apply (tabla_mensual_definida conn_grupo_40_60 2 2024); [reflexivity | ].
  intros gd [<- | []] _ _. discriminate.
Defined.

(** An individual row of the table is the row of an active expense. *)
Lemma tabla_gasto_activo (c : conn) (mes anio id : Z) (filas : list fila)
    (f : fila) :
  calcular_tabla_mensual c mes anio = Ok filas ->
  In f filas -> f_id f = IdGasto id ->
  exists g, In g (gastos_mensuales c) /\ g_activo g = 1 /\ g_id g = id.
Proof.
  unfold calcular_tabla_mensual.
  destruct (obtener_montos_configurados c mes anio) as [| r0 df] eqn:Edf;
    [intros [= <-] [] | ].
  destruct (iterar (procesar_grupo c (r0 :: df) mes anio)
                   (obtener_grupos_distribucion c) ([], []))
    as [[resultados procesados] | e] eqn:Egr; cbn [bind]; [ | discriminate].
  apply iterar_procesar_grupo_origen in Egr. destruct Egr as (Hres & _ & _).
  intros Hind Hf Hid.
  destruct (iterar_procesar_gasto_origen _ _ _ _ _ _ _ Hind f Hf)
    as [Hr | (gasto & Hgasto & Hfila & _)].
  - destruct (Hres f Hr) as [[] | (gr & _ & _ & Hgid)]. congruence.
  - rewrite <- Edf in Hgasto. apply montos_configurados_origen in Hgasto.
    destruct Hgasto as (g & Hg & Hact & Hcid & _).
    exists g. split; [exact Hg | ]. split; [exact Hact | ].
    apply fila_de_gasto_id in Hfila. congruence.
Qed.

(** X15: [desactivar_gasto_mensual] is a soft delete. The expense leaves the
    configured amounts of every month, the members of every group and the
    individual rows of every table, while its row stays in the store with its
    id, and its payments, overrides and group memberships are kept; the flag
    tells whether the id exists. *)
Theorem desactivar_gasto_mensual_oculta (c : conn) (id_gasto : Z) :
  let c' := fst (desactivar_gasto_mensual c id_gasto) in
  let b := snd (desactivar_gasto_mensual c id_gasto) in
  (forall mes anio r, In r (obtener_montos_configurados c' mes anio) ->
                      c_id r <> id_gasto)
  /\ (forall grupo_id e, In e (miembros_de_grupo c' grupo_id) ->
                         g_id e <> id_gasto)
  /\ (forall mes anio filas f,
        calcular_tabla_mensual c' mes anio = Ok filas -> In f filas ->
        f_id f <> IdGasto id_gasto)
  /\ map g_id (gastos_mensuales c') = map g_id (gastos_mensuales c)
  /\ pagos c' = pagos c
  /\ montos_mensuales c' = montos_mensuales c
  /\ gastos_en_grupo c' = gastos_en_grupo c
  /\ (b = true <-> exists g, In g (gastos_mensuales c) /\ g_id g = id_gasto).
Proof.
  intros c' b.
  assert (Hinactivo : forall g, In g (gastos_mensuales c') ->
                                g_activo g = 1 -> g_id g <> id_gasto).
  { intros g Hg Ha Hid. unfold c' in Hg. cbn in Hg.
    apply in_map_iff in Hg. destruct Hg as (g0 & <- & _).
    destruct (g_id g0 =? id_gasto) eqn:E; [discriminate | ].
    apply Z.eqb_neq in E. contradiction. }
  split; [ | split; [ | split; [ | split; [ | split; [ | split; [ | split]]]]]];
    try reflexivity.
  - intros mes anio r Hr. apply montos_configurados_origen in Hr.
    destruct Hr as (g & Hg & Ha & -> & _). exact (Hinactivo g Hg Ha).
  - intros grupo_id e He. apply miembros_de_grupo_In in He.
    destruct He as [He Ha]. exact (Hinactivo e He Ha).
  - intros mes anio filas f Htabla Hf Hid.
    destruct (tabla_gasto_activo c' mes anio id_gasto filas f Htabla Hf Hid)
      as (g & Hg & Ha & Hgid).
    exact (Hinactivo g Hg Ha Hgid).
  - unfold c'. cbn. rewrite map_map. apply map_ext.
    intros g. destruct (g_id g =? id_gasto); reflexivity.
  - unfold b. cbn [snd desactivar_gasto_mensual]. rewrite hay_filas_iff.
    split; intros (g & Hg & H); exists g; (split; [exact Hg | ]);
      apply Z.eqb_eq; exact H.
Qed.

(** ** The groups of distribution, further *)



(** X17: Adding an expense to a group is refused exactly when it is already a
    member of that group: the call returns False and leaves the store as it
    was, so adding twice in a row succeeds once. *)
Theorem agregar_gasto_a_grupo_repetido (c : conn) (grupo_id gasto_id : Z) :
  (snd (agregar_gasto_a_grupo c grupo_id gasto_id) = false
   <-> es_miembro c grupo_id gasto_id)
  /\ (es_miembro c grupo_id gasto_id ->
      fst (agregar_gasto_a_grupo c grupo_id gasto_id) = c)
  /\ (forall c1, agregar_gasto_a_grupo c grupo_id gasto_id = (c1, true) ->
                 agregar_gasto_a_grupo c1 grupo_id gasto_id = (c1, false)).
Proof.
  assert (Hfalso : forall c0, es_miembro c0 grupo_id gasto_id ->
                              agregar_gasto_a_grupo c0 grupo_id gasto_id
                              = (c0, false)).
  { intros c0 H. apply insertar_gasto_en_grupo_None in H.
    unfold agregar_gasto_a_grupo. rewrite H. reflexivity. }
  split; [ | split].
  - split.
    + unfold agregar_gasto_a_grupo.
      destruct (insertar_gasto_en_grupo c grupo_id gasto_id) eqn:E;
        [discriminate | ].
      intros _. apply insertar_gasto_en_grupo_None. exact E.
    + intros H. rewrite (Hfalso c H). reflexivity.
  - intros H. rewrite (Hfalso c H). reflexivity.
  - intros c1. unfold agregar_gasto_a_grupo at 1.
    destruct (insertar_gasto_en_grupo c grupo_id gasto_id) as [c0 | ] eqn:E;
      [ | discriminate].
    intros [= <-]. apply Hfalso.
    destruct (insertar_gasto_en_grupo_miembros _ _ _ _ E) as [_ Hm].
    unfold es_miembro.
    cbn [gastos_en_grupo actualizar_tipo_distribucion con_gastos_mensuales].
    apply (Hm grupo_id gasto_id). right. tauto.
Qed.

(** X18: Adding an expense to a group and removing it again gives back the
    membership table of before, but not the distribution kind the expense
    had: it is left with '50/50'. *)
Theorem agregar_y_remover_gasto (c c1 : conn) (grupo_id gasto_id : Z) :
  agregar_gasto_a_grupo c grupo_id gasto_id = (c1, true) ->
  let c2 := fst (remover_gasto_de_grupo c1 grupo_id gasto_id) in
  gastos_en_grupo c2 = gastos_en_grupo c
  /\ tipo_de_gasto_es c2 gasto_id "50/50"
  /\ mismos_gastos c c2.
Proof.
  unfold agregar_gasto_a_grupo.
  destruct (insertar_gasto_en_grupo c grupo_id gasto_id) as [c0 | ] eqn:E;
    [ | discriminate].
  intros H. injection H as H. subst c1.
  match goal with
  | |- context [fst ?x] => set (c2 := fst x)
  end.
  assert (Hno : ~ es_miembro c grupo_id gasto_id).
  { intros H. apply insertar_gasto_en_grupo_None in H. congruence. }
  unfold insertar_gasto_en_grupo in E.
  destruct (existsb _ (gastos_en_grupo c)); [discriminate | ].
  injection E as <-.
  split; [ | split].
  - unfold c2. cbn. rewrite filter_app. cbn. rewrite !Z.eqb_refl. cbn.
    rewrite app_nil_r. apply forallb_filter_id. apply forallb_forall.
    intros ge Hge. apply negb_true_iff.
    destruct (ge_grupo_id ge =? grupo_id) eqn:E1; [ | reflexivity].
    destruct (ge_gasto_id ge =? gasto_id) eqn:E2; [ | reflexivity].
    exfalso. apply Hno. exists ge. apply Z.eqb_eq in E1, E2. tauto.
  - apply actualizar_tipo_por_id.
  - unfold mismos_gastos, c2. cbn. rewrite !map_map. apply map_ext.
    intros g. destruct (g_id g =? gasto_id) eqn:Eg;
      cbn [g_id con_tipo_distribucion]; rewrite ?Eg; reflexivity.
Qed.

Lemma agregar_y_remover_gasto_witness :
  map g_tipo_distribucion (gastos_mensuales conn_dos_gastos)
  = ["50/50"; "fijo_wendy"]
  /\ gastos_en_grupo
       (fst (remover_gasto_de_grupo
               (fst (agregar_gasto_a_grupo conn_dos_gastos 1 2)) 1 2))
     = gastos_en_grupo conn_dos_gastos
  /\ tipo_de_gasto_es
       (fst (remover_gasto_de_grupo
               (fst (agregar_gasto_a_grupo conn_dos_gastos 1 2)) 1 2))
       2 "50/50".
Proof.
  split; [reflexivity | ].
  destruct (agregar_y_remover_gasto
              conn_dos_gastos (fst (agregar_gasto_a_grupo conn_dos_gastos 1 2))
              1 2 eq_refl) as (H1 & H2 & _).
  split; assumption.
Defined.

(** A group row of the table is the row of an active group. *)
Lemma tabla_grupo_activo (c : conn) (mes anio grupo_id : Z)
    (filas : list fila) (f : fila) :
  calcular_tabla_mensual c mes anio = Ok filas ->
  In f filas -> f_id f = IdGrupo grupo_id ->
  exists gd, In gd (grupos_distribucion c) /\ gd_activo gd = 1
             /\ gd_id gd = grupo_id.
Proof.
  unfold calcular_tabla_mensual.
  destruct (obtener_montos_configurados c mes anio) as [| r0 df] eqn:Edf;
    [intros [= <-] [] | ].
  destruct (iterar (procesar_grupo c (r0 :: df) mes anio)
                   (obtener_grupos_distribucion c) ([], []))
    as [[resultados procesados] | e] eqn:Egr; cbn [bind]; [ | discriminate].
  apply iterar_procesar_grupo_origen in Egr. destruct Egr as (Hres & _ & _).
  intros Hind Hf Hid.
  destruct (iterar_procesar_gasto_origen _ _ _ _ _ _ _ Hind f Hf)
    as [Hr | (gasto & _ & Hfila & _)].
  - destruct (Hres f Hr) as [[] | (gr & Hgr & _ & Hgid)].
    unfold obtener_grupos_distribucion in Hgr. apply in_map_iff in Hgr.
    destruct Hgr as (gd & <- & Hgd). apply ordenar_In, filter_In in Hgd.
    destruct Hgd as [Hgd Ha]. exists gd.
    split; [exact Hgd | ]. split; [apply Z.eqb_eq; exact Ha | ].
    cbn [gr_id grupo_de_fila] in Hgid. congruence.
  - apply fila_de_gasto_id in Hfila. congruence.
Qed.

(** X19: [eliminar_grupo_distribucion] hides the group and keeps its membership
    rows: the group leaves the list of groups and the rows of every table,
    but its members stay linked to it, so adding one of them to it again is
    refused; the flag tells whether the group id exists. *)
Theorem eliminar_grupo_distribucion_oculta (c : conn) (grupo_id : Z) :
  let c' := fst (eliminar_grupo_distribucion c grupo_id) in
  let b := snd (eliminar_grupo_distribucion c grupo_id) in
  (forall gr, In gr (obtener_grupos_distribucion c') -> gr_id gr <> grupo_id)
  /\ (forall mes anio filas f,
        calcular_tabla_mensual c' mes anio = Ok filas -> In f filas ->
        f_id f <> IdGrupo grupo_id)
  /\ gastos_en_grupo c' = gastos_en_grupo c
  /\ (forall id, es_miembro c grupo_id id ->
                 agregar_gasto_a_grupo c' grupo_id id = (c', false))
  /\ (b = true
      <-> exists gd, In gd (grupos_distribucion c) /\ gd_id gd = grupo_id).
Proof.
  intros c' b.
  assert (Hinactivo : forall gd, In gd (grupos_distribucion c') ->
                                 gd_activo gd = 1 -> gd_id gd <> grupo_id).
  { intros gd Hgd Ha Hid. unfold c' in Hgd. cbn in Hgd.
    apply in_map_iff in Hgd. destruct Hgd as (gd0 & <- & _).
    destruct (gd_id gd0 =? grupo_id) eqn:E; [discriminate | ].
    apply Z.eqb_neq in E. contradiction. }
  split; [ | split; [ | split; [reflexivity | split]]].
  - intros gr Hgr. unfold obtener_grupos_distribucion in Hgr.
    apply in_map_iff in Hgr. destruct Hgr as (gd & <- & Hgd).
    apply ordenar_In, filter_In in Hgd. destruct Hgd as [Hgd Ha].
    apply Z.eqb_eq in Ha. exact (Hinactivo gd Hgd Ha).
  - intros mes anio filas f Htabla Hf Hid.
    destruct (tabla_grupo_activo c' mes anio grupo_id filas f Htabla Hf Hid)
      as (gd & Hgd & Ha & Hgid).
    exact (Hinactivo gd Hgd Ha Hgid).
  - intros id Hm. unfold agregar_gasto_a_grupo.
    assert (E : insertar_gasto_en_grupo c' grupo_id id = None)
      by (apply insertar_gasto_en_grupo_None; exact Hm).
    rewrite E. reflexivity.
  - unfold b. cbn [snd eliminar_grupo_distribucion actualizar_tipo_distribucion
                   con_gastos_mensuales grupos_distribucion].
    rewrite hay_filas_iff.
    split; intros (gd & Hgd & H); exists gd; (split; [exact Hgd | ]);
      apply Z.eqb_eq; exact H.
Qed.

(** What the loops of the table do not skip. *)
Lemma iterar_procesar_gasto_completo (c : conn) (mes anio : Z)
    (procesados : list Z) (df : list fila_config) :
  forall resultados filas,
    iterar (procesar_gasto c mes anio procesados) df resultados = Ok filas ->
    forall gasto, In gasto df -> ~ In (c_id gasto) procesados ->
                  c_tipo_distribucion gasto <> "agrupado" ->
                  exists f, In f filas /\ fila_de_gasto c mes anio gasto = Ok f.
Proof.
  induction df as [| g0 df IH]; intros resultados filas H gasto Hg Hno Ht;
    [destruct Hg | ].
  cbn [iterar] in H. destruct Hg as [-> | Hg].
  - unfold procesar_gasto at 1 in H.
    destruct (existsb (fun id => id =? c_id gasto) procesados) eqn:Ep.
    { apply existsb_exists in Ep. destruct Ep as (id & Hin & Heq).
      apply Z.eqb_eq in Heq. subst id. contradiction. }
    apply String.eqb_neq in Ht. rewrite Ht in H.
    destruct (fila_de_gasto c mes anio gasto) as [f | e]; cbn [bind] in H;
      [ | discriminate].
    exists f. split; [ | reflexivity].
    apply (iterar_procesar_gasto_incl _ _ _ _ _ _ _ H).
    apply in_or_app. right. left. reflexivity.
  - destruct (procesar_gasto c mes anio procesados resultados g0)
      as [rs | e]; cbn [bind] in H; [ | discriminate].
    exact (IH _ _ H gasto Hg Hno Ht).
Qed.

Lemma iterar_sumar_procesados_origen (c : conn) (df : list fila_config)
    (mes anio : Z) (gs : list (Z * string * Q)) :
  forall t cs ps t' cs' ps',
    iterar (sumar_gasto_de_grupo c df mes anio) gs (t, cs, ps)
    = Ok (t', cs', ps') ->
    forall id, In id ps' ->
               In id ps \/ exists concepto base, In (id, concepto, base) gs.
Proof.
  induction gs as [| [[id0 co0] b0] gs IH]; intros t cs ps t' cs' ps';
    cbn [iterar].
  - intros [= <- <- <-] id Hid. left. exact Hid.
  - unfold sumar_gasto_de_grupo at 1.
    destruct (filter (fun r => c_id r =? id0) df) as [| r0 rs].
    + cbn [bind]. intros H id Hid.
      destruct (IH _ _ _ _ _ _ H id Hid) as [Hp | (co & b & Hg)];
        [left; exact Hp | right; exists co, b; right; exact Hg].
    + destruct (calcular_monto_mensual_segun_frecuencia _ _ _ _)
        as [m | e]; cbn [bind]; [ | discriminate].
      intros H id Hid.
      destruct (IH _ _ _ _ _ _ H id Hid) as [[<- | Hp] | (co & b & Hg)].
      * right. exists co0, b0. left. reflexivity.
      * left. exact Hp.
      * right. exists co, b. right. exact Hg.
Qed.

Lemma iterar_procesar_grupo_completo (c : conn) (df : list fila_config)
    (mes anio : Z) (grupos : list grupo) :
  forall resultados procesados resultados' procesados',
    iterar (procesar_grupo c df mes anio) grupos (resultados, procesados)
    = Ok (resultados', procesados') ->
    (forall gr, In gr grupos -> gr_gastos gr <> [] ->
                exists f, In f resultados' /\ f_id f = IdGrupo (gr_id gr))
    /\ forall id, In id procesados' ->
                  In id procesados
                  \/ exists gr concepto base,
                       In gr grupos /\ In (id, concepto, base) (gr_gastos gr).
Proof.
  induction grupos as [| gr0 grupos IH];
    intros resultados procesados resultados' procesados' H.
  - cbn [iterar] in H. injection H as <- <-.
    split; [intros gr [] | intros id Hid; left; exact Hid].
  - pose proof H as H0. cbn [iterar] in H. unfold procesar_grupo at 1 in H.
    destruct (fila_de_grupo c df mes anio gr0) as [[fg ids0] | e] eqn:E0;
      cbn [bind] in H; [ | discriminate].
    destruct (IH _ _ _ _ H) as [Hfilas Hproc]. split.
    + intros gr [<- | Hgr] Hne; [ | exact (Hfilas gr Hgr Hne)].
      destruct fg as [f | ].
      * exists f. split.
        -- apply iterar_procesar_grupo_In in H0. destruct H0 as [_ Hin].
           apply (Hin gr0 f ids0); [left; reflexivity | exact E0].
        -- apply (fila_de_grupo_origen _ _ _ _ _ _ _ E0). reflexivity.
      * exfalso. unfold fila_de_grupo in E0.
        destruct (gr_gastos gr0) as [| g0 gs]; [apply Hne; reflexivity | ].
        destruct (iterar _ (g0 :: gs) _) as [[[t cs] ps] | e];
          cbn [bind] in E0; [ | discriminate].
        destruct (inicial (gr_quien_paga_fijo gr0));
          destruct (gr_quien_paga_fijo gr0 =? "Ricardo")%string;
          try destruct (gr_quien_paga_fijo gr0 =? "Wendy")%string;
          discriminate.
    + intros id Hid. destruct (Hproc id Hid) as [Hp | (gr & co & b & Hgr & Hg)].
      * apply in_app_or in Hp. destruct Hp as [Hp | Hp];
          [ | left; exact Hp].
        right. exists gr0.
        unfold fila_de_grupo in E0.
        destruct (gr_gastos gr0) as [| g0 gs] eqn:Eg.
        { injection E0 as _ <-. destruct Hp. }
        destruct (iterar _ (g0 :: gs) _) as [[[t cs] ps] | e] eqn:Eit;
          cbn [bind] in E0; [ | discriminate].
        assert (ids0 = ps).
        { destruct (inicial (gr_quien_paga_fijo gr0));
            destruct (gr_quien_paga_fijo gr0 =? "Ricardo")%string;
            try destruct (gr_quien_paga_fijo gr0 =? "Wendy")%string;
            try discriminate; cbn [bind] in E0; congruence. }
        subst ids0.
        destruct (iterar_sumar_procesados_origen _ _ _ _ _ _ _ _ _ _ _
                    Eit id Hp) as [[] | (co & b & Hg)].
        exists co, b. split; [left; reflexivity | exact Hg].
      * right. exists gr, co, b. split; [right; exact Hgr | exact Hg].
Qed.

(** X20: The table is complete. When it is returned, every active group with an
    active member has its row, and every active expense whose kind is not
    'agrupado' and which is no active member of an active group has its
    own row. *)
Theorem tabla_mensual_completa (c : conn) (mes anio : Z) (filas : list fila) :
  calcular_tabla_mensual c mes anio = Ok filas ->
  (forall gd, In gd (grupos_distribucion c) -> gd_activo gd = 1 ->
              miembros_de_grupo c (gd_id gd) <> [] ->
              exists f, In f filas /\ f_id f = IdGrupo (gd_id gd))
  /\ (forall g, In g (gastos_mensuales c) -> g_activo g = 1 ->
                g_tipo_distribucion g <> "agrupado" ->
                (forall gd e, In gd (grupos_distribucion c) ->
                              gd_activo gd = 1 ->
                              In e (miembros_de_grupo c (gd_id gd)) ->
                              g_id e <> g_id g) ->
                exists f, In f filas /\ f_id f = IdGasto (g_id g)).
Proof.
  intros Htabla.
  assert (Hdf : forall g, In g (gastos_mensuales c) -> g_activo g = 1 ->
                          exists r, In r (obtener_montos_configurados
                                            c mes anio)
                                    /\ c_id r = g_id g
                                    /\ c_tipo_distribucion r
                                       = g_tipo_distribucion g).
  { intros g Hg Ha.
    destruct (montos_configurados_fila c mes anio g Hg Ha)
      as (r & Hr & Hid & _ & Hdist).
    exists r. split; [exact Hr | ]. split; [exact Hid | exact Hdist]. }
  revert Htabla Hdf. unfold calcular_tabla_mensual.
  destruct (obtener_montos_configurados c mes anio) as [| r0 df].
  { intros _ Hdf. split.
    - intros gd Hgd Ha Hne. exfalso.
      destruct (miembros_de_grupo c (gd_id gd)) as [| e es] eqn:Em;
        [apply Hne; reflexivity | ].
      assert (He : In e (miembros_de_grupo c (gd_id gd)))
        by (rewrite Em; left; reflexivity).
      apply miembros_de_grupo_In in He.
      destruct (Hdf e (proj1 He) (proj2 He)) as (r & [] & _).
    - intros g Hg Ha _ _. destruct (Hdf g Hg Ha) as (r & [] & _). }
  destruct (iterar (procesar_grupo c (r0 :: df) mes anio)
                   (obtener_grupos_distribucion c) ([], []))
    as [[resultados procesados] | e] eqn:Egr; cbn [bind]; [ | discriminate].
  intros Hind Hdf.
  apply iterar_procesar_grupo_completo in Egr. destruct Egr as [Hgr Hproc].
  split.
  - intros gd Hgd Ha Hne.
    destruct (Hgr (grupo_de_fila c gd)) as (f & Hf & Hid).
    + unfold obtener_grupos_distribucion. apply in_map.
      apply ordenar_In, filter_In.
      split; [exact Hgd | apply Z.eqb_eq; exact Ha].
    + cbn [gr_gastos grupo_de_fila]. intros Hv. apply map_eq_nil in Hv.
      contradiction.
    + exists f. split; [ | exact Hid].
      apply (iterar_procesar_gasto_incl _ _ _ _ _ _ _ Hind). exact Hf.
  - intros g Hg Ha Ht Hno.
    destruct (Hdf g Hg Ha) as (r & Hr & Hid & Htipo).
    destruct (iterar_procesar_gasto_completo _ _ _ _ _ _ _ Hind r Hr)
      as (f & Hf & Hfila).
    + intros Hp. destruct (Hproc _ Hp) as [[] | (gr & co & b & Hin & Hm)].
      unfold obtener_grupos_distribucion in Hin. apply in_map_iff in Hin.
      destruct Hin as (gd & <- & Hgd). apply ordenar_In, filter_In in Hgd.
      destruct Hgd as [Hgd Hgda]. apply Z.eqb_eq in Hgda.
      cbn [gr_gastos grupo_de_fila] in Hm. apply in_map_iff in Hm.
      destruct Hm as (e & Heq & He). injection Heq as Heq _ _.
      apply (Hno gd e Hgd Hgda He). congruence.
    + congruence.
    + exists f. split; [exact Hf | ].
      rewrite <- Hid. exact (fila_de_gasto_id _ _ _ _ _ Hfila).
Qed.

Lemma tabla_mensual_completa_witness :
  exists filas f,
    calcular_tabla_mensual conn_dos_gastos 3 2025 = Ok filas
    /\ In f filas
    /\ f_id f = IdGasto 2.
Proof.
  destruct (calcular_tabla_mensual conn_dos_gastos 3 2025)
    as [filas | e] eqn:E; [ | vm_compute in E; discriminate].
  destruct (tabla_mensual_completa conn_dos_gastos 3 2025 filas E)
    as [_ H].
  assert (Hg : exists g, In g (gastos_mensuales conn_dos_gastos)
                         /\ g_id g = 2 /\ g_activo g = 1
                         /\ g_tipo_distribucion g <> "agrupado").
  { vm_compute. eexists. split; [right; left; reflexivity | ].
    split; [reflexivity | ]. split; [reflexivity | discriminate]. }
  destruct Hg as (g & Hin & Hid & Ha & Ht).
  destruct (H g Hin Ha Ht) as (f & Hf & Hfid).
  - intros gd e Hgd _ He. vm_compute in Hgd. destruct Hgd as [<- | []].
    vm_compute in He. destruct He.
  - exists filas, f. split; [reflexivity | ].
    split; [exact Hf | ]. rewrite Hfid, Hid. reflexivity.
Defined.


(** ** The weeks of a month, further *)

Lemma date_invalido (anio mes dia : Z) :
  ~ (1 <= mes <= 12 /\ 1 <= anio <= 9999) ->
  cabe_en_int anio = true -> cabe_en_int mes = true ->
  cabe_en_int dia = true ->
  date_ anio mes dia = Raise ValueError.
Proof.
  intros H Hca Hcm Hcd. unfold date_, MINYEAR, MAXYEAR.
  rewrite Hca, Hcm, Hcd. cbn [andb negb].
  destruct ((1 <=? anio) && (anio <=? 9999)) eqn:Ea; [ | reflexivity].
  destruct ((1 <=? mes) && (mes <=? 12)) eqn:Em; [ | reflexivity].
  exfalso. apply H.
  apply andb_true_iff in Ea, Em. rewrite !Z.leb_le in Ea, Em. lia.
Qed.

Lemma date_fuera_de_int (anio mes dia : Z) :
  cabe_en_int anio = false \/ cabe_en_int mes = false ->
  date_ anio mes dia = Raise OverflowError.
Proof.
  intros [H | H]; unfold date_; rewrite H;
    [ | rewrite andb_false_r]; reflexivity.
Qed.

(** X21: [calcular_semanas_del_mes] on every input: 4 or 5 on a month 1..12 of a
    year 1..9999, December 9999 apart; [OverflowError] in December 9999;
    on every other month and year that are C ints (within
    -2^31 .. 2^31 - 1), [ValueError] from the range checks of the
    constructor of [date]; and [OverflowError], from the conversion of the
    arguments of [date], when the month or the year is no C int. *)
Theorem calcular_semanas_del_mes_casos (mes anio : Z) :
  (1 <= mes <= 12 /\ 1 <= anio <= 9999 /\ ~ (mes = 12 /\ anio = 9999) ->
   exists s, calcular_semanas_del_mes mes anio = Ok s /\ (s = 4 \/ s = 5))
  /\ (mes = 12 /\ anio = 9999 ->
      calcular_semanas_del_mes mes anio = Raise OverflowError)
  /\ (~ (1 <= mes <= 12 /\ 1 <= anio <= 9999) ->
      -2147483648 <= mes <= 2147483647 ->
      -2147483648 <= anio <= 2147483647 ->
      calcular_semanas_del_mes mes anio = Raise ValueError)
  /\ (~ (-2147483648 <= mes <= 2147483647
         /\ -2147483648 <= anio <= 2147483647) ->
      calcular_semanas_del_mes mes anio = Raise OverflowError).
Proof.
  split; [ | split; [ | split]].
  - intros (Hm & Ha & Hd). apply semanas_del_mes_definido.
    unfold mes_calculable, MINYEAR, MAXYEAR.
    rewrite !andb_true_iff, negb_true_iff, andb_false_iff, !Z.leb_le,
      !Z.eqb_neq. lia.
  - intros [-> ->]. reflexivity.
  - intros H Hm Ha. unfold calcular_semanas_del_mes.
    rewrite (date_invalido anio mes 1 H);
      [reflexivity | | | reflexivity];
      unfold cabe_en_int; apply andb_true_iff; rewrite !Z.leb_le; lia.
  - intros H. unfold calcular_semanas_del_mes.
    rewrite (date_fuera_de_int anio mes 1); [reflexivity | ].
    unfold cabe_en_int.
    destruct ((-2147483648 <=? anio) && (anio <=? 2147483647)) eqn:Ea;
      [ | left; reflexivity].
    destruct ((-2147483648 <=? mes) && (mes <=? 2147483647)) eqn:Em;
      [ | right; reflexivity].
    exfalso. apply H. apply andb_true_iff in Ea, Em.
    rewrite !Z.leb_le in Ea, Em. lia.
Qed.

Lemma calcular_semanas_del_mes_casos_witness :
  calcular_semanas_del_mes 0 2024 = Raise ValueError
  /\ calcular_semanas_del_mes 6 10000 = Raise ValueError
  /\ calcular_semanas_del_mes 1 2147483648 = Raise OverflowError
  /\ calcular_semanas_del_mes 12 9999 = Raise OverflowError
  /\ exists s, calcular_semanas_del_mes 11 9999 = Ok s /\ (s = 4 \/ s = 5).
Proof.
  split; [ | split; [ | split; [ | split]]].
  - destruct (calcular_semanas_del_mes_casos 0 2024) as (_ & _ & H & _).
    apply H; lia.
  - destruct (calcular_semanas_del_mes_casos 6 10000) as (_ & _ & H & _).
    apply H; lia.
  - destruct (calcular_semanas_del_mes_casos 1 2147483648)
      as (_ & _ & _ & H).
    apply H. lia.
  - destruct (calcular_semanas_del_mes_casos 12 9999) as (_ & H & _).
    apply H. lia.
  - destruct (calcular_semanas_del_mes_casos 11 9999) as (H & _).
    apply H. lia.
Defined.

(** X22: The weeks [obtener_rango_semana] describes are those
    [calcular_semanas_del_mes] counts. On a calculable month of [s] weeks,
    every week 1..s has a range: it starts on a Monday that is a day of the
    month, ends on the Sunday six days later, and week k+1 starts the day
    after week k ends; a week number above [s] that still has a range starts
    after the last day of the month. *)
Theorem rango_semana_del_mes (mes anio s : Z) :
  mes_calculable mes anio = true ->
  calcular_semanas_del_mes mes anio = Ok s ->
  let ultimo := _ymd2ord anio mes (_days_in_month anio mes) in
  (forall k, 1 <= k <= s ->
     exists inicio fin dia,
       rango_semana mes anio k = Ok (inicio, fin)
       /\ obtener_rango_semana mes anio k
          = Ok (strftime_dm inicio, strftime_dm fin)
       /\ weekday inicio = 0 /\ fin = inicio + 6 /\ weekday fin = 6
       /\ 1 <= dia <= _days_in_month anio mes
       /\ date_ anio mes dia = Ok inicio
       /\ (k < s ->
           exists fin', rango_semana mes anio (k + 1) = Ok (fin + 1, fin')))
  /\ (forall k inicio fin,
        s < k -> rango_semana mes anio k = Ok (inicio, fin) ->
        ultimo < inicio).
Proof.
  intros Hmes Hs ultimo.
  destruct (semanas_del_mes_formula mes anio Hmes) as (l & Hl & Hr & Hw & Hf).
  rewrite Hf in Hs. injection Hs as Hs.
  destruct (ordinal_del_mes_rango anio mes Hmes) as [Hlo Hhi].
  fold ultimo in Hhi, Hs.
  pose proof (mes_calculable_rango mes anio Hmes) as (Hm & Ha & _).
  pose proof (dias_del_mes_rango anio mes Hm) as Hn.
  assert (Hu : ultimo = _ymd2ord anio mes 1 + _days_in_month anio mes - 1)
    by (unfold ultimo, _ymd2ord; lia).
  assert (Hrango : forall k,
             0 < l + (k - 1) * 7 -> l + (k - 1) * 7 + 6 <= _MAXORDINAL ->
             rango_semana mes anio k
             = Ok (l + (k - 1) * 7, l + (k - 1) * 7 + 6)).
  { intros k H1 H2. unfold rango_semana.
    rewrite date_ok by lia. cbn [bind]. rewrite Hl. cbn [bind].
    unfold date_add.
    replace ((0 <? l + (k - 1) * 7) && (l + (k - 1) * 7 <=? _MAXORDINAL))
      with true
      by (symmetry; apply andb_true_iff;
          split; [apply Z.ltb_lt | apply Z.leb_le]; lia).
    cbn [bind].
    replace ((0 <? l + (k - 1) * 7 + 6)
             && (l + (k - 1) * 7 + 6 <=? _MAXORDINAL)) with true
      by (symmetry; apply andb_true_iff;
          split; [apply Z.ltb_lt | apply Z.leb_le]; lia).
    reflexivity. }
  assert (Hdentro : forall k, 1 <= k <= s -> l + (k - 1) * 7 <= ultimo)
    by (intros k Hk; subst s; Z.div_mod_to_equations; lia).
  split.
  - intros k Hk. pose proof (Hdentro k Hk) as Hd.
    exists (l + (k - 1) * 7), (l + (k - 1) * 7 + 6),
      (l + (k - 1) * 7 - _ymd2ord anio mes 1 + 1).
    assert (Hk' : rango_semana mes anio k
                  = Ok (l + (k - 1) * 7, l + (k - 1) * 7 + 6))
      by (apply Hrango; lia).
    split; [exact Hk' | ].
    split; [unfold obtener_rango_semana; rewrite Hk'; reflexivity | ].
    split; [unfold weekday in *; Z.div_mod_to_equations; lia | ].
    split; [reflexivity | ].
    split; [unfold weekday in *; Z.div_mod_to_equations; lia | ].
    split; [lia | ]. split.
    + rewrite date_ok by lia. apply f_equal. unfold _ymd2ord. lia.
    + intros Hks.
      assert (l + (k + 1 - 1) * 7 <= ultimo) by (apply Hdentro; lia).
      eexists. rewrite Hrango by lia.
      replace (l + (k + 1 - 1) * 7) with (l + (k - 1) * 7 + 6 + 1) by lia.
      reflexivity.
  - intros k inicio fin Hk. unfold rango_semana.
    rewrite date_ok by lia. cbn [bind]. rewrite Hl. cbn [bind].
    unfold date_add.
    destruct ((0 <? l + (k - 1) * 7) && (l + (k - 1) * 7 <=? _MAXORDINAL));
      cbn [bind]; [ | discriminate].
    destruct ((0 <? l + (k - 1) * 7 + 6)
              && (l + (k - 1) * 7 + 6 <=? _MAXORDINAL));
      cbn [bind]; [ | discriminate].
    intros [= <- _]. subst s. Z.div_mod_to_equations. lia.
Qed.

Lemma rango_semana_del_mes_witness :
  obtener_rango_semana 2 2024 4 = Ok ("26/02", "03/03")
  /\ exists inicio fin dia,
       rango_semana 2 2024 4 = Ok (inicio, fin)
       /\ weekday inicio = 0 /\ fin = inicio + 6
       /\ date_ 2024 2 dia = Ok inicio.
Proof.
  split; [reflexivity | ].
  destruct (rango_semana_del_mes 2 2024 4 eq_refl eq_refl) as [H _].
  destruct (H 4) as (inicio & fin & dia & Hr & _ & Hw & Hfin & _ & _ & Hd & _);
    [lia | ].
  exists inicio, fin, dia. tauto.
Defined.

(** ** The constraints of the schema *)

Section ListasSinRepetidos.

Context {A B : Type} (f : A -> B).

Lemma NoDup_map_filter (p : A -> bool) (l : list A) :
  NoDup (map f l) -> NoDup (map f (filter p l)).
Proof.
  induction l as [| x l IH]; simpl; intros H; [constructor | ].
  inversion H as [| ? ? Hno Hnd]; subst.
  destruct (p x); [ | apply IH; exact Hnd].
  simpl. constructor; [ | apply IH; exact Hnd].
  intros Hin. apply Hno. apply in_map_iff in Hin.
  destruct Hin as (y & Hy & Hin). apply filter_In in Hin.
  rewrite <- Hy. apply in_map. apply Hin.
Qed.

Lemma NoDup_map_snoc (l : list A) (x : A) :
  NoDup (map f l) -> ~ In (f x) (map f l) -> NoDup (map f (l ++ [x])).
Proof.
  intros Hnd Hno. rewrite map_app. simpl.
  apply NoDup_app; [exact Hnd | repeat constructor; intros [] | ].
  intros b Hb [<- | []]. contradiction.
Qed.

Lemma map_map_estable (g : A -> A) (l : list A) :
  (forall x, f (g x) = f x) -> map f (map g l) = map f l.
Proof. intros H. rewrite map_map. apply map_ext. exact H. Qed.

End ListasSinRepetidos.

Lemma nuevo_id_no_esta (sec : Z) (ids : list Z) :
  ~ In (nuevo_id sec ids) ids.
Proof.
  intros H. destruct (nuevo_id_fresco sec ids) as [_ Hf].
  specialize (Hf _ H). lia.
Qed.

Lemma actualizar_tipo_esquema (c : conn) (donde : gasto_mensual -> bool)
    (tipo : string) :
  map g_id (gastos_mensuales (actualizar_tipo_distribucion c donde tipo))
  = map g_id (gastos_mensuales c)
  /\ ((forall g, In g (gastos_mensuales c) ->
                 g_activo g = 0 \/ g_activo g = 1) ->
      forall g, In g (gastos_mensuales
                        (actualizar_tipo_distribucion c donde tipo)) ->
                g_activo g = 0 \/ g_activo g = 1).
Proof.
  split.
  - cbn. apply map_map_estable. intros g. destruct (donde g); reflexivity.
  - intros H g Hg. cbn in Hg. apply in_map_iff in Hg.
    destruct Hg as (g0 & <- & Hg0). specialize (H g0 Hg0).
    destruct (donde g0); exact H.
Qed.

Lemma insertar_gasto_en_grupo_esquema (c c1 : conn) (grupo_id gasto_id : Z) :
  insertar_gasto_en_grupo c grupo_id gasto_id = Some c1 ->
  gastos_mensuales c1 = gastos_mensuales c
  /\ montos_mensuales c1 = montos_mensuales c
  /\ pagos c1 = pagos c
  /\ grupos_distribucion c1 = grupos_distribucion c
  /\ (NoDup (map ge_id (gastos_en_grupo c)) ->
      NoDup (map ge_id (gastos_en_grupo c1)))
  /\ (NoDup (map (fun ge => (ge_grupo_id ge, ge_gasto_id ge))
                 (gastos_en_grupo c)) ->
      NoDup (map (fun ge => (ge_grupo_id ge, ge_gasto_id ge))
                 (gastos_en_grupo c1))).
Proof.
  intros E.
  assert (Hno : ~ es_miembro c grupo_id gasto_id).
  { intros H. apply insertar_gasto_en_grupo_None in H. congruence. }
  unfold insertar_gasto_en_grupo in E.
  destruct (existsb _ (gastos_en_grupo c)); [discriminate | ].
  injection E as <-. cbn [gastos_mensuales montos_mensuales pagos
                          grupos_distribucion gastos_en_grupo].
  repeat (split; [reflexivity | ]). split.
  - intros H. apply NoDup_map_snoc; [exact H | ]. apply nuevo_id_no_esta.
  - intros H. apply NoDup_map_snoc; [exact H | ]. cbn.
    intros Hin. apply in_map_iff in Hin. destruct Hin as (ge & Heq & Hin).
    apply Hno. exists ge. injection Heq as H1 H2. tauto.
Qed.

Lemma asociar_gastos_esquema (gastos_ids : list Z) :
  forall c c' grupo_id,
    asociar_gastos c grupo_id gastos_ids = Some c' ->
    montos_mensuales c' = montos_mensuales c
    /\ pagos c' = pagos c
    /\ (NoDup (map ge_id (gastos_en_grupo c)) ->
        NoDup (map ge_id (gastos_en_grupo c')))
    /\ (NoDup (map (fun ge => (ge_grupo_id ge, ge_gasto_id ge))
                   (gastos_en_grupo c)) ->
        NoDup (map (fun ge => (ge_grupo_id ge, ge_gasto_id ge))
                   (gastos_en_grupo c'))).
Proof.
  induction gastos_ids as [| id0 resto IH]; intros c c' grupo_id; simpl.
  - intros [= <-]. tauto.
  - destruct (insertar_gasto_en_grupo c grupo_id id0) as [c1 | ] eqn:E;
      [ | discriminate].
    destruct (insertar_gasto_en_grupo_esquema _ _ _ _ E)
      as (_ & Hm & Hp & _ & H1 & H2).
    intros H. apply IH in H. destruct H as (Hm' & Hp' & H1' & H2').
    cbn [montos_mensuales pagos gastos_en_grupo actualizar_tipo_distribucion
         con_gastos_mensuales] in *.
    split; [congruence | ]. split; [congruence | ].
    split; intros H; [apply H1', H1, H | apply H2', H2, H].
Qed.

Lemma establecer_monto_esquema (c : conn) (gasto_id mes anio : Z)
    (monto : Q) :
  let c' := fst (establecer_monto_del_mes c gasto_id mes anio monto) in
  (NoDup (map m_id (montos_mensuales c)) ->
   NoDup (map m_id (montos_mensuales c')))
  /\ (clave_unica_montos c -> clave_unica_montos c').
Proof.
  intros c'. split.
  - intros H. unfold c'. rewrite establecer_montos.
    destruct (snd (establecer_monto_del_mes c gasto_id mes anio monto));
      [ | exact H].
    destruct (existsb _ (montos_mensuales c)).
    + rewrite map_map_estable; [exact H | ].
      intros m. destruct (es_monto_de gasto_id mes anio m); reflexivity.
    + apply NoDup_map_snoc; [exact H | ]. apply nuevo_id_no_esta.
  - intros Hu g m a. unfold c'.
    destruct (Z.eq_dec g gasto_id) as [-> | Hg];
      [destruct (Z.eq_dec m mes) as [-> | Hm];
       [destruct (Z.eq_dec a anio) as [-> | Ha] | ] | ];
      try (rewrite establecer_filas_de_otra_clave by tauto; apply Hu).
    rewrite establecer_filas_de_clave. specialize (Hu gasto_id mes anio).
    destruct (snd (establecer_monto_del_mes c gasto_id mes anio monto));
      [ | exact Hu].
    destruct (existsb _ (montos_mensuales c)) eqn:E.
    + rewrite length_map. exact Hu.
    + rewrite filter_ninguno.
      * destruct (es_monto_de gasto_id mes anio _); simpl; lia.
      * intros x Hx. destruct (es_monto_de gasto_id mes anio x) eqn:Ex;
          [ | reflexivity].
        assert (existsb (es_monto_de gasto_id mes anio) (montos_mensuales c)
                = true)
          by (apply existsb_exists; exists x; split; assumption).
        congruence.
Qed.

(** Solves the constraints an operation does not touch. *)
Ltac sin_cambio H :=
  first [ exact (pk_gastos _ H) | exact (pk_montos _ H)
        | exact (pk_pagos _ H) | exact (pk_grupos _ H)
        | exact (pk_gastos_en_grupo _ H) | exact (unico_montos _ H)
        | exact (unico_gastos_en_grupo _ H) | exact (activo_gastos _ H)
        | exact (activo_grupos _ H) | exact (fijo_del_pagador _ H) ].

Lemma ejecutar_esquema (c : conn) (op : operacion) :
  esquema c -> esquema (ejecutar c op).
Proof.
  intros H. destruct op; cbn [ejecutar].
  - (* crear_gasto_mensual *)
    constructor; try sin_cambio H.
    + cbn. apply NoDup_map_snoc; [exact (pk_gastos _ H) | ].
      apply nuevo_id_no_esta.
    + intros g Hg. cbn in Hg. apply in_app_or in Hg.
      destruct Hg as [Hg | [<- | []]];
        [exact (activo_gastos _ H g Hg) | right; reflexivity].
  - (* actualizar_gasto_mensual *)
    constructor; try sin_cambio H.
    + cbn. rewrite map_map_estable; [exact (pk_gastos _ H) | ].
      intros g. destruct (g_id g =? id_gasto); reflexivity.
    + intros g Hg. cbn in Hg. apply in_map_iff in Hg.
      destruct Hg as (g0 & <- & Hg0). pose proof (activo_gastos _ H g0 Hg0).
      destruct (g_id g0 =? id_gasto); assumption.
  - (* desactivar_gasto_mensual *)
    constructor; try sin_cambio H.
    + cbn. rewrite map_map_estable; [exact (pk_gastos _ H) | ].
      intros g. destruct (g_id g =? id_gasto); reflexivity.
    + intros g Hg. cbn in Hg. apply in_map_iff in Hg.
      destruct Hg as (g0 & <- & Hg0). pose proof (activo_gastos _ H g0 Hg0).
      destruct (g_id g0 =? id_gasto); [left; reflexivity | assumption].
  - (* establecer_monto_del_mes *)
    destruct (establecer_monto_esquema c gasto_id mes anio monto)
      as [Hpk Hu].
    pose proof (establecer_resto c gasto_id mes anio monto) as Hresto.
    cbv zeta in Hresto. destruct Hresto as (Hg & Hp & Hgd & Hge).
    constructor; rewrite ?Hg, ?Hp, ?Hgd, ?Hge; try sin_cambio H.
    + apply Hpk. exact (pk_montos _ H).
    + apply Hu. exact (unico_montos _ H).
  - (* crear_grupo_distribucion *)
    unfold crear_grupo_distribucion.
    match goal with
    | |- context [asociar_gastos ?x ?gid gastos_ids] =>
        set (c1 := x); set (grupo_id := gid);
        destruct (asociar_gastos c1 grupo_id gastos_ids) as [c2 | ] eqn:E
    end; cbn [fst]; [ | exact H].
    pose proof (asociar_gastos_gastos _ _ _ _ E) as Hg.
    destruct (asociar_gastos_miembros _ _ _ _ E) as [Hgr _].
    destruct (asociar_gastos_esquema _ _ _ _ E) as (Hm & Hp & H1 & H2).
    assert (Hnuevo : forall gd, In gd (grupos_distribucion c2) ->
                                In gd (grupos_distribucion c)
                                \/ (gd_activo gd = 1
                                    /\ gd_monto_fijo_ricardo gd
                                       = (if (quien_paga_fijo =? "Ricardo")%string
                                          then Some monto_fijo else None)
                                    /\ gd_monto_fijo_wendy gd
                                       = (if (quien_paga_fijo =? "Wendy")%string
                                          then Some monto_fijo else None)
                                    /\ gd_quien_paga_fijo gd
                                       = quien_paga_fijo)).
    { intros gd Hgd. rewrite Hgr in Hgd. cbn in Hgd.
      apply in_app_or in Hgd. destruct Hgd as [Hgd | [<- | []]];
        [left; exact Hgd | right; repeat split]. }
    constructor.
    + rewrite Hg. rewrite map_map_estable; [exact (pk_gastos _ H) | ].
      intros g. destruct (existsb _ gastos_ids); reflexivity.
    + rewrite Hm. exact (pk_montos _ H).
    + rewrite Hp. exact (pk_pagos _ H).
    + rewrite Hgr. cbn. apply NoDup_map_snoc; [exact (pk_grupos _ H) | ].
      apply nuevo_id_no_esta.
    + apply H1. exact (pk_gastos_en_grupo _ H).
    + intros g m a. rewrite Hm. exact (unico_montos _ H g m a).
    + apply H2. exact (unico_gastos_en_grupo _ H).
    + intros g Hin. rewrite Hg in Hin. apply in_map_iff in Hin.
      destruct Hin as (g0 & <- & Hg0). pose proof (activo_gastos _ H g0 Hg0).
      destruct (existsb _ gastos_ids); assumption.
    + intros gd Hgd. destruct (Hnuevo gd Hgd) as [Hv | (Ha & _)];
        [exact (activo_grupos _ H gd Hv) | right; exact Ha].
    + intros gd Hgd.
      destruct (Hnuevo gd Hgd) as [Hv | (_ & Hr & Hw & Hq)];
        [exact (fijo_del_pagador _ H gd Hv) | ].
      rewrite Hr, Hw, Hq. split.
      * destruct (quien_paga_fijo =? "Ricardo")%string eqn:Eq;
          [intros _; apply String.eqb_eq; exact Eq | congruence].
      * destruct (quien_paga_fijo =? "Wendy")%string eqn:Eq;
          [intros _; apply String.eqb_eq; exact Eq | congruence].
  - (* actualizar_grupo_distribucion *)
    constructor; try sin_cambio H.
    + cbn. rewrite map_map_estable; [exact (pk_grupos _ H) | ].
      intros gd. destruct (gd_id gd =? grupo_id); reflexivity.
    + intros gd Hgd. cbn in Hgd. apply in_map_iff in Hgd.
      destruct Hgd as (g0 & <- & Hg0). pose proof (activo_grupos _ H g0 Hg0).
      destruct (gd_id g0 =? grupo_id); assumption.
    + intros gd Hgd. cbn in Hgd. apply in_map_iff in Hgd.
      destruct Hgd as (g0 & <- & Hg0).
      pose proof (fijo_del_pagador _ H g0 Hg0).
      destruct (gd_id g0 =? grupo_id); [ | assumption]. cbn. split.
      * destruct (quien_paga_fijo =? "Ricardo")%string eqn:Eq;
          [intros _; apply String.eqb_eq; exact Eq | congruence].
      * destruct (quien_paga_fijo =? "Wendy")%string eqn:Eq;
          [intros _; apply String.eqb_eq; exact Eq | congruence].
  - (* agregar_gasto_a_grupo *)
    unfold agregar_gasto_a_grupo.
    destruct (insertar_gasto_en_grupo c grupo_id gasto_id) as [c1 | ] eqn:E;
      cbn [fst]; [ | exact H].
    destruct (insertar_gasto_en_grupo_esquema _ _ _ _ E)
      as (Hg & Hm & Hp & Hgr & H1 & H2).
    destruct (actualizar_tipo_esquema c1 (fun g => g_id g =? gasto_id)
                                      "agrupado") as [Hids Hact].
    constructor.
    + rewrite Hids, Hg. exact (pk_gastos _ H).
    + cbn. rewrite Hm. exact (pk_montos _ H).
    + cbn. rewrite Hp. exact (pk_pagos _ H).
    + cbn. rewrite Hgr. exact (pk_grupos _ H).
    + apply H1. exact (pk_gastos_en_grupo _ H).
    + intros g m a. cbn. rewrite Hm. exact (unico_montos _ H g m a).
    + apply H2. exact (unico_gastos_en_grupo _ H).
    + apply Hact. rewrite Hg. exact (activo_gastos _ H).
    + cbn. rewrite Hgr. exact (activo_grupos _ H).
    + cbn. rewrite Hgr. exact (fijo_del_pagador _ H).
  - (* remover_gasto_de_grupo *)
    unfold remover_gasto_de_grupo. cbn [fst].
    match goal with
    | |- esquema (actualizar_tipo_distribucion ?x _ _) => set (c1 := x)
    end.
    destruct (actualizar_tipo_esquema c1 (fun g => g_id g =? gasto_id)
                                      "50/50") as [Hids Hact].
    constructor; try sin_cambio H.
    + rewrite Hids. exact (pk_gastos _ H).
    + cbn. apply NoDup_map_filter. exact (pk_gastos_en_grupo _ H).
    + cbn. apply NoDup_map_filter. exact (unico_gastos_en_grupo _ H).
    + apply Hact. exact (activo_gastos _ H).
  - (* eliminar_grupo_distribucion *)
    unfold eliminar_grupo_distribucion. cbn [fst].
    match goal with
    | |- context [actualizar_tipo_distribucion c ?d "50/50"] =>
        destruct (actualizar_tipo_esquema c d "50/50") as [Hids Hact]
    end.
    constructor; try sin_cambio H.
    + cbn [gastos_mensuales]. rewrite Hids. exact (pk_gastos _ H).
    + cbn. rewrite map_map_estable; [exact (pk_grupos _ H) | ].
      intros gd. destruct (gd_id gd =? grupo_id); reflexivity.
    + cbn [gastos_mensuales]. apply Hact. exact (activo_gastos _ H).
    + intros gd Hgd. cbn in Hgd. apply in_map_iff in Hgd.
      destruct Hgd as (g0 & <- & Hg0). pose proof (activo_grupos _ H g0 Hg0).
      destruct (gd_id g0 =? grupo_id); [left; reflexivity | assumption].
    + intros gd Hgd. cbn in Hgd. apply in_map_iff in Hgd.
      destruct Hgd as (g0 & <- & Hg0).
      pose proof (fijo_del_pagador _ H g0 Hg0).
      destruct (gd_id g0 =? grupo_id); assumption.
  - (* registrar_pago *)
    constructor; try sin_cambio H.
    cbn. apply NoDup_map_snoc; [exact (pk_pagos _ H) | ].
    apply nuevo_id_no_esta.
  - (* eliminar_pago *)
    constructor; try sin_cambio H.
    cbn. apply NoDup_map_filter. exact (pk_pagos _ H).
  - (* eliminar_pago_por_criterios *)
    constructor; try sin_cambio H.
    cbn. apply NoDup_map_filter. exact (pk_pagos _ H).
Qed.

(** X23: The operations keep the constraints of the schema. After any history of
    operations on the empty store the ids of each table are unique, there is
    at most one override per (expense, month, year) and one membership row
    per (group, expense), every [activo] flag is 0 or 1, and a group stores
    a fixed amount only for the person who pays it. *)
Theorem esquema_de_toda_historia (ops : list operacion) :
  esquema (historia ops).
Proof.
  unfold historia.
  assert (Hvacia : esquema conn_vacia).
  { constructor;
      lazymatch goal with
      | |- NoDup _ => cbn; constructor
      | |- clave_unica_montos _ => intros g m a; cbn; lia
      | |- _ => cbn; intros ? []
      end. }
  revert Hvacia. generalize conn_vacia.
  induction ops as [| op ops IH]; intros c Hc; cbn [fold_left];
    [exact Hc | ].
  apply IH. apply ejecutar_esquema. exact Hc.
Qed.

(** ** Reading the expenses and the groups *)

Lemma filtro_clave_unica {A K : Type} (f : A -> K) (p : A -> bool)
    (l : list A) :
  NoDup (map f l) ->
  (forall x y, In x l -> In y l -> p x = true -> p y = true -> f x = f y) ->
  (List.length (filter p l) <= 1)%nat.
Proof.
  induction l as [| x l IH]; simpl; intros Hnd Hp; [lia | ].
  inversion Hnd as [| ? ? Hno Hnd']; subst.
  destruct (p x) eqn:Ex.
  - rewrite filter_ninguno; [simpl; lia | ].
    intros y Hy. destruct (p y) eqn:Ey; [ | reflexivity].
    exfalso. apply Hno. rewrite (Hp x y); auto. apply in_map. exact Hy.
  - apply IH; [exact Hnd' | ]. intros a b Ha Hb. apply Hp; right; assumption.
Qed.

Lemma miembros_de_grupo_iff (c : conn) (grupo_id : Z) (g : gasto_mensual) :
  In g (miembros_de_grupo c grupo_id)
  <-> In g (gastos_mensuales c) /\ g_activo g = 1
      /\ es_miembro c grupo_id (g_id g).
Proof.
  unfold miembros_de_grupo, es_miembro. rewrite in_flat_map. split.
  - intros (g0 & Hg0 & Hin). apply in_map_iff in Hin.
    destruct Hin as (ge & <- & Hge). apply filter_In in Hg0, Hge.
    destruct Hg0 as [Hg0 Ha]. destruct Hge as [Hge Hk].
    apply andb_true_iff in Hk. destruct Hk as [Hk1 Hk2].
    apply Z.eqb_eq in Hk1, Hk2, Ha.
    split; [exact Hg0 | ]. split; [exact Ha | ].
    exists ge. split; [exact Hge | ]. split; [exact Hk2 | ].
    symmetry. exact Hk1.
  - intros (Hg & Ha & ge & Hge & Hk1 & Hk2). exists g. split.
    + apply filter_In. split; [exact Hg | apply Z.eqb_eq; exact Ha].
    + apply in_map_iff. exists ge. split; [reflexivity | ].
      apply filter_In. split; [exact Hge | ].
      apply andb_true_iff. rewrite !Z.eqb_eq. split; congruence.
Qed.

Lemma miembros_sin_repetidos (c : conn) (grupo_id : Z) :
  NoDup (map g_id (gastos_mensuales c)) ->
  NoDup (map (fun ge => (ge_grupo_id ge, ge_gasto_id ge))
             (gastos_en_grupo c)) ->
  NoDup (map g_id (miembros_de_grupo c grupo_id)).
Proof.
  intros Hg Hge. unfold miembros_de_grupo.
  apply (NoDup_map_filter g_id (fun g => g_activo g =? 1)) in Hg.
  induction (filter (fun g => g_activo g =? 1) (gastos_mensuales c))
    as [| g l IH]; simpl; [constructor | ].
  inversion Hg as [| ? ? Hno Hnd]; subst.
  rewrite map_app. apply NoDup_app.
  - assert (Hlen : (List.length
                      (filter (fun ge => ((g_id g =? ge_gasto_id ge)
                                          && (ge_grupo_id ge =? grupo_id))%Z)
                              (gastos_en_grupo c)) <= 1)%nat).
    { apply (filtro_clave_unica
               (fun ge => (ge_grupo_id ge, ge_gasto_id ge)));
        [exact Hge | ].
      intros x y _ _ Hx Hy. apply andb_true_iff in Hx, Hy.
      rewrite !Z.eqb_eq in Hx, Hy. f_equal; lia. }
    destruct (filter _ (gastos_en_grupo c)) as [| a [| b r]];
      simpl in *; [constructor | | lia].
    constructor; [intros [] | constructor].
  - apply IH. exact Hnd.
  - intros a Ha Hb. apply in_map_iff in Ha, Hb.
    destruct Ha as (x & <- & Hx). apply in_map_iff in Hx.
    destruct Hx as (ge & <- & _).
    destruct Hb as (y & Hy & Hin). apply in_flat_map in Hin.
    destruct Hin as (g0 & Hg0 & Hin). apply in_map_iff in Hin.
    destruct Hin as (ge0 & <- & _).
    apply Hno. rewrite <- Hy. apply in_map. exact Hg0.
Qed.

(** X24: [obtener_gastos_de_grupo] lists the active expenses that have a
    membership row of the group, with their id, name, base amount and amount
    kind. In a store with unique expense ids and one membership row per
    (group, expense) every member is listed once, and the expenses
    [obtener_grupos_distribucion] attaches to a group are the same rows
    without the amount kind. *)
Theorem obtener_gastos_de_grupo_miembros (c : conn) (grupo_id : Z) :
  NoDup (map g_id (gastos_mensuales c)) ->
  NoDup (map (fun ge => (ge_grupo_id ge, ge_gasto_id ge))
             (gastos_en_grupo c)) ->
  NoDup (map (fun t => fst (fst (fst t)))
             (obtener_gastos_de_grupo c grupo_id))
  /\ (forall t,
        In t (obtener_gastos_de_grupo c grupo_id)
        <-> exists g, In g (gastos_mensuales c) /\ g_activo g = 1
                      /\ es_miembro c grupo_id (g_id g)
                      /\ t = (g_id g, g_concepto g, g_monto_total g,
                              g_tipo_monto g))
  /\ (forall gr, In gr (obtener_grupos_distribucion c) ->
                 gr_gastos gr
                 = map (fun t => fst t)
                       (obtener_gastos_de_grupo c (gr_id gr))).
Proof.
  intros Hg Hge. unfold obtener_gastos_de_grupo. split; [ | split].
  - rewrite map_map. cbn [fst].
    exact (miembros_sin_repetidos c grupo_id Hg Hge).
  - intros t. rewrite in_map_iff. split.
    + intros (g & <- & Hin). apply miembros_de_grupo_iff in Hin.
      exists g. tauto.
    + intros (g & H1 & H2 & H3 & ->). exists g.
      split; [reflexivity | ]. apply miembros_de_grupo_iff. tauto.
  - intros gr Hgr. unfold obtener_grupos_distribucion in Hgr.
    apply in_map_iff in Hgr. destruct Hgr as (gd & <- & _).
    cbn [gr_gastos gr_id grupo_de_fila]. rewrite map_map. reflexivity.
Qed.

Lemma obtener_gastos_de_grupo_miembros_witness :
  map (fun t => fst (fst (fst t)))
      (obtener_gastos_de_grupo conn_grupo_40_60 1) = [1; 2]
  /\ NoDup (map (fun t => fst (fst (fst t)))
                (obtener_gastos_de_grupo conn_grupo_40_60 1)).
Proof.
  split; [reflexivity | ].
  assert (Hg : NoDup (map g_id (gastos_mensuales conn_grupo_40_60)))
    by (vm_compute; repeat constructor; cbn; intuition discriminate).
  assert (Hge : NoDup (map (fun ge => (ge_grupo_id ge, ge_gasto_id ge))
                           (gastos_en_grupo conn_grupo_40_60)))
    by (vm_compute; repeat constructor; cbn; intuition discriminate).
  exact (proj1 (obtener_gastos_de_grupo_miembros conn_grupo_40_60 1 Hg Hge)).
Defined.

(** X25: [actualizar_grupo_distribucion] rewrites the name, the description, the
    payer and the fixed amount of the rows with the id: the fixed amount is
    stored for the payer and cleared for the other person. It keeps the
    [activo] flag (a deleted group stays deleted), the other groups, the
    memberships and the expenses, and returns whether a row has the id. *)
Theorem actualizar_grupo_distribucion_efecto (c : conn) (grupo_id : Z)
    (nombre : string) (descripcion : option string)
    (quien_paga_fijo : string) (monto_fijo : Q) :
  let r := actualizar_grupo_distribucion c grupo_id nombre descripcion
                                         quien_paga_fijo monto_fijo in
  let c' := fst r in
  (forall gd, In gd (grupos_distribucion c') -> gd_id gd = grupo_id ->
     gd_nombre gd = nombre /\ gd_descripcion gd = descripcion
     /\ gd_quien_paga_fijo gd = quien_paga_fijo
     /\ gd_monto_fijo_ricardo gd
        = (if (quien_paga_fijo =? "Ricardo")%string
           then Some monto_fijo else None)
     /\ gd_monto_fijo_wendy gd
        = (if (quien_paga_fijo =? "Wendy")%string
           then Some monto_fijo else None))
  /\ (forall gd, gd_id gd <> grupo_id ->
        (In gd (grupos_distribucion c') <-> In gd (grupos_distribucion c)))
  /\ map (fun gd => (gd_id gd, gd_activo gd)) (grupos_distribucion c')
     = map (fun gd => (gd_id gd, gd_activo gd)) (grupos_distribucion c)
  /\ gastos_mensuales c' = gastos_mensuales c
  /\ (forall g, miembros_de_grupo c' g = miembros_de_grupo c g)
  /\ (snd r = true
      <-> exists gd, In gd (grupos_distribucion c) /\ gd_id gd = grupo_id).
Proof.
  cbn zeta. unfold actualizar_grupo_distribucion.
  cbn [fst snd grupos_distribucion gastos_mensuales].
  split; [ | split; [ | split; [ | split; [ | split]]]].
  - intros gd Hgd Hid. apply in_map_iff in Hgd.
    destruct Hgd as (g0 & Heq & _).
    destruct (gd_id g0 =? grupo_id) eqn:E.
    + subst gd. cbn. repeat split.
    + subst gd. apply Z.eqb_neq in E. contradiction.
  - intros gd Hid. rewrite in_map_iff. split.
    + intros (g0 & Heq & Hin). destruct (gd_id g0 =? grupo_id) eqn:E.
      * subst gd. cbn in Hid. apply Z.eqb_eq in E. contradiction.
      * subst gd. exact Hin.
    + intros Hin. exists gd. apply Z.eqb_neq in Hid. rewrite Hid.
      split; [reflexivity | exact Hin].
  - rewrite map_map. apply map_ext. intros gd.
    destruct (gd_id gd =? grupo_id); reflexivity.
  - reflexivity.
  - intros g. reflexivity.
  - rewrite hay_filas_iff. split.
    + intros (gd & Hin & E). apply Z.eqb_eq in E. exists gd. tauto.
    + intros (gd & Hin & E). exists gd. apply Z.eqb_eq in E. tauto.
Qed.

Lemma union_montos_unica (c : conn) (mes anio : Z) (g : gasto_mensual) :
  clave_unica_montos c ->
  map c_id (union_montos c mes anio g) = [g_id g].
Proof.
  intros Hu. unfold union_montos. specialize (Hu (g_id g) mes anio).
  assert (Hfiltro : filter (fun m => (g_id g =? m_gasto_id m)
                                     && (m_mes m =? mes) && (m_anio m =? anio))
                           (montos_mensuales c)
                    = filter (es_monto_de (g_id g) mes anio)
                             (montos_mensuales c)).
  { apply filter_ext. intros m. unfold es_monto_de.
    rewrite (Z.eqb_sym (g_id g)). reflexivity. }
  rewrite Hfiltro.
  destruct (filter (es_monto_de (g_id g) mes anio) (montos_mensuales c))
    as [| m [| m' ms]]; simpl in *; [reflexivity | reflexivity | lia].
Qed.

Lemma DataFrame_ids (rows : list fila_config) :
  map c_id (DataFrame rows) = map c_id rows.
Proof.
  unfold DataFrame. rewrite map_map. reflexivity.
Qed.



(** X27: [actualizar_gasto_mensual] and [obtener_monto_del_mes]: after an edit the
    amount of a month without override is the new base amount, the amount of
    a month with an override is still the override, and the amounts of the
    other expenses are unchanged. The edit sets the distribution kind it is
    given, also on a member of a group, and keeps the [activo] flags, the
    overrides and the memberships; it returns whether a row has the id. *)
Theorem actualizar_gasto_mensual_monto (c : conn) (id_gasto : Z)
    (concepto : string) (monto_total : Q)
    (frecuencia tipo_monto tipo_distribucion : string)
    (monto_fijo_ricardo monto_fijo_wendy porcentaje_ricardo : option Q)
    (grupo : option string) :
  let r := actualizar_gasto_mensual c id_gasto concepto monto_total
             frecuencia tipo_monto tipo_distribucion monto_fijo_ricardo
             monto_fijo_wendy porcentaje_ricardo grupo in
  let c' := fst r in
  (snd r = true
   <-> exists g, In g (gastos_mensuales c) /\ g_id g = id_gasto)
  /\ (forall mes anio,
        (forall m, In m (montos_mensuales c) ->
                   es_monto_de id_gasto mes anio m = false) ->
        obtener_monto_del_mes c' id_gasto mes anio
        = enlazado [id_gasto; mes; anio]
                   (if snd r then monto_total else 0%Q))
  /\ (forall mes anio m,
        In m (montos_mensuales c) ->
        es_monto_de id_gasto mes anio m = true ->
        obtener_monto_del_mes c' id_gasto mes anio
        = obtener_monto_del_mes c id_gasto mes anio)
  /\ (forall g mes anio,
        g <> id_gasto ->
        obtener_monto_del_mes c' g mes anio = obtener_monto_del_mes c g mes anio)
  /\ tipo_de_gasto_es c' id_gasto tipo_distribucion
  /\ map (fun g => (g_id g, g_activo g)) (gastos_mensuales c')
     = map (fun g => (g_id g, g_activo g)) (gastos_mensuales c)
  /\ montos_mensuales c' = montos_mensuales c
  /\ gastos_en_grupo c' = gastos_en_grupo c.
Proof.
  cbn zeta. unfold actualizar_gasto_mensual.
  cbn [fst snd gastos_mensuales montos_mensuales gastos_en_grupo].
  set (editar := fun g : gasto_mensual =>
                   if g_id g =? id_gasto
                   then {| g_id := g_id g; g_concepto := concepto;
                           g_monto_total := monto_total;
                           g_frecuencia := frecuencia;
                           g_tipo_monto := tipo_monto;
                           g_tipo_distribucion := tipo_distribucion;
                           g_monto_fijo_ricardo := monto_fijo_ricardo;
                           g_monto_fijo_wendy := monto_fijo_wendy;
                           g_porcentaje_ricardo := porcentaje_ricardo;
                           g_grupo := grupo; g_activo := g_activo g |}
                   else g).
  assert (Hid : forall g, g_id (editar g) = g_id g)
    by (intros g; unfold editar; destruct (g_id g =? id_gasto); reflexivity).
  assert (Hfiltro : forall k,
             filter (fun g => g_id g =? k) (map editar (gastos_mensuales c))
             = map editar (filter (fun g => g_id g =? k)
                                  (gastos_mensuales c))).
  { intros k. induction (gastos_mensuales c) as [| x l IH];
      simpl; [reflexivity | ].
    rewrite Hid. destruct (g_id x =? k); simpl; rewrite IH; reflexivity. }
  split; [ | split; [ | split; [ | split; [ | split; [ | split]]]]].
  - rewrite hay_filas_iff. split.
    + intros (g & Hin & E). apply Z.eqb_eq in E. exists g. tauto.
    + intros (g & Hin & E). exists g. apply Z.eqb_eq in E. tauto.
  - intros mes anio Hno. rewrite obtener_monto_enlazado. f_equal.
    unfold consultar_monto_del_mes.
    cbn [montos_mensuales gastos_mensuales].
    change (fun m => (m_gasto_id m =? id_gasto) && (m_mes m =? mes)
                     && (m_anio m =? anio))
      with (es_monto_de id_gasto mes anio).
    rewrite (filter_ninguno _ _ Hno), Hfiltro.
    destruct (filter (fun g => g_id g =? id_gasto) (gastos_mensuales c))
      as [| g l] eqn:E; simpl; [reflexivity | ].
    assert (Hg : In g (filter (fun g => g_id g =? id_gasto)
                              (gastos_mensuales c)))
      by (rewrite E; left; reflexivity).
    apply filter_In in Hg. destruct Hg as [_ Hg].
    unfold editar. rewrite Hg. reflexivity.
  - intros mes anio m Hm Hk. rewrite !obtener_monto_enlazado. f_equal.
    unfold consultar_monto_del_mes.
    cbn [montos_mensuales gastos_mensuales].
    change (fun m => (m_gasto_id m =? id_gasto) && (m_mes m =? mes)
                     && (m_anio m =? anio))
      with (es_monto_de id_gasto mes anio).
    destruct (filter (es_monto_de id_gasto mes anio) (montos_mensuales c))
      as [| m0 l] eqn:E; [ | reflexivity].
    assert (H : In m (filter (es_monto_de id_gasto mes anio)
                             (montos_mensuales c)))
      by (apply filter_In; split; assumption).
    rewrite E in H. destruct H.
  - intros g mes anio Hg. rewrite !obtener_monto_enlazado. f_equal.
    unfold consultar_monto_del_mes.
    cbn [montos_mensuales gastos_mensuales].
    destruct (filter _ (montos_mensuales c)); [ | reflexivity].
    rewrite Hfiltro.
    destruct (filter (fun g0 => g_id g0 =? g) (gastos_mensuales c))
      as [| g1 l] eqn:E; simpl; [reflexivity | ].
    assert (Hg1 : In g1 (filter (fun g0 => g_id g0 =? g)
                                (gastos_mensuales c)))
      by (rewrite E; left; reflexivity).
    apply filter_In in Hg1. destruct Hg1 as [_ Hg1]. apply Z.eqb_eq in Hg1.
    unfold editar. replace (g_id g1 =? id_gasto) with false; [reflexivity | ].
    symmetry. apply Z.eqb_neq. congruence.
  - intros g Hin Hg. cbn [gastos_mensuales] in Hin.
    apply in_map_iff in Hin. destruct Hin as (g0 & <- & _).
    rewrite Hid in Hg. unfold editar. apply Z.eqb_eq in Hg. rewrite Hg.
    reflexivity.
  - rewrite map_map. apply map_ext. intros g. unfold editar.
    destruct (g_id g =? id_gasto); reflexivity.
  - split; reflexivity.
Qed.
